(** * NG12 Cancer Risk Assessor: retrieval-grounding and conversation pipeline

    A shallow embedding of [ingestion/ingest_pdf.py], [app/chat.py] and
    [app/agent.py], and the properties of the pipeline proved over it.

    Conventions of the embedding:
    - a Python [str] is a [string]: a sequence of code points below 256;
    - a Python [int] is a [Z], a counter that only counts up from 0 a [nat];
    - a [float] distance is a binary64 primitive float, compared with the
      IEEE comparison, as Python's [<] does;
    - an exception is an explicit outcome ([None], or a [Raise] result);
    - module-level mutable state ([_sessions]) is passed explicitly;
    - services outside the repository (the vector store, the generative
      model, [json.loads]) are variables of the section that uses them. *)

From Stdlib Require Import ZArith List Ascii String Lia.
From Stdlib Require Import PrimFloat SpecFloat FloatOps FloatAxioms.
From Stdlib Require Import Decimal DecimalString DecimalNat Sorted.
From stdpp Require Import gmap strings sorting.

Import ListNotations.
Set Warnings "-inexact-float".
Set Warnings "-abstract-large-number".
Set Warnings "-register-all".
Local Open Scope Z_scope.

(** ** Python's [str] operations used by the sources *)

Module Py.

Definition len (s : string) : Z := Z.of_nat (String.length s).

(** [str.isspace] on one code point below 256. *)
Definition isspace (c : ascii) : bool :=
  let n := nat_of_ascii c in
  ((9 <=? n)%nat && (n <=? 13)%nat) || ((28 <=? n)%nat && (n <=? 32)%nat)
  || (n =? 133)%nat || (n =? 160)%nat.

(** [str.lower] on one code point below 256. *)
Definition lower_char (c : ascii) : ascii :=
  let n := nat_of_ascii c in
  if ((65 <=? n)%nat && (n <=? 90)%nat)
     || ((192 <=? n)%nat && (n <=? 222)%nat && negb (n =? 215)%nat)
  then ascii_of_nat (n + 32) else c.

Fixpoint lower (s : string) : string :=
  match s with
  | EmptyString => EmptyString
  | String c r => String (lower_char c) (lower r)
  end.

Fixpoint lstrip_by (p : ascii -> bool) (s : string) : string :=
  match s with
  | EmptyString => EmptyString
  | String c r => if p c then lstrip_by p r else s
  end.

Fixpoint rstrip_by (p : ascii -> bool) (s : string) : string :=
  match s with
  | EmptyString => EmptyString
  | String c r =>
      match rstrip_by p r with
      | EmptyString => if p c then EmptyString else String c EmptyString
      | r' => String c r'
      end
  end.

(** [s.strip()] *)
Definition strip (s : string) : string := rstrip_by isspace (lstrip_by isspace s).

Fixpoint mem_char (c : ascii) (cs : string) : bool :=
  match cs with
  | EmptyString => false
  | String d r => if Ascii.eqb c d then true else mem_char c r
  end.

(** [s.rstrip(chars)] *)
Definition rstrip_chars (s chars : string) : string :=
  rstrip_by (fun c => mem_char c chars) s.

Fixpoint take (n : nat) (s : string) : string :=
  match n, s with
  | S k, String c r => String c (take k r)
  | _, _ => EmptyString
  end.

Fixpoint drop (n : nat) (s : string) : string :=
  match n, s with
  | S k, String _ r => drop k r
  | _, _ => s
  end.

(** A slice bound as Python resolves it: a negative index counts from
    the end, and the result is clamped to [0, len s]. *)
Definition clamp (i l : Z) : Z :=
  if i <? 0 then Z.max (i + l) 0 else Z.min i l.

(** [s[lo:hi]] *)
Definition slice (s : string) (lo hi : Z) : string :=
  let a := clamp lo (len s) in
  let b := clamp hi (len s) in
  take (Z.to_nat (b - a)) (drop (Z.to_nat a) s).

(** [s[:n]] for a literal [n >= 0] *)
Definition slice_to (s : string) (n : nat) : string := take n s.

Fixpoint startswith (s p : string) : bool :=
  match p, s with
  | EmptyString, _ => true
  | String a p', String b s' => if Ascii.eqb a b then startswith s' p' else false
  | String _ _, EmptyString => false
  end.

(** [s.find(sub)], [None] standing for -1. *)
Fixpoint find (s sub : string) : option nat :=
  if startswith s sub then Some O
  else match s with
       | EmptyString => None
       | String _ r => option_map S (find r sub)
       end.

(** [s.rfind(sub)], [None] standing for -1. *)
Fixpoint rfind (s sub : string) : option nat :=
  match s with
  | EmptyString => if startswith s sub then Some O else None
  | String _ r =>
      match rfind r sub with
      | Some i => Some (S i)
      | None => if startswith s sub then Some O else None
      end
  end.

(** [sub in s] *)
Definition contains (s sub : string) : bool :=
  match find s sub with Some _ => true | None => false end.

(** [s.partition(sep)] when [sep] occurs: the text before the first
    occurrence and the text after it. *)
Definition cut (s sep : string) : option (string * string) :=
  match find s sep with
  | Some i => Some (take i s, drop (i + String.length sep) s)
  | None => None
  end.

(** [s.split(sep)] for a non-empty [sep]; [fuel] bounds the number of
    pieces and [S (length s)] always suffices. *)
Fixpoint split_fuel (fuel : nat) (s sep : string) : list string :=
  match fuel with
  | O => [s]
  | S f =>
      match cut s sep with
      | Some (b, a) => b :: split_fuel f a sep
      | None => [s]
      end
  end.

Definition split (s sep : string) : list string :=
  split_fuel (S (String.length s)) s sep.

(** [s.split()]: the maximal runs of non-space characters. *)
Fixpoint words_go (cur : string) (s : string) : list string :=
  match s with
  | EmptyString => match cur with EmptyString => [] | _ => [cur] end
  | String c r =>
      if isspace c
      then match cur with
           | EmptyString => words_go EmptyString r
           | _ => cur :: words_go EmptyString r
           end
      else words_go (cur +:+ String c EmptyString) r
  end.

Definition split_ws (s : string) : list string := words_go EmptyString s.

Definition in_list (x : string) (l : list string) : bool :=
  existsb (String.eqb x) l.

(** The ASCII decimal digits, the only ones [format] produces. *)
Definition isdigit (c : ascii) : bool :=
  ((48 <=? nat_of_ascii c)%nat && (nat_of_ascii c <=? 57)%nat)%bool.

Fixpoint repeat_char (c : ascii) (n : nat) : string :=
  match n with
  | O => EmptyString
  | S k => String c (repeat_char c k)
  end.

(** The decimal digits of a natural number, as [str(n)] prints them. *)
Definition digits (n : nat) : string := NilEmpty.string_of_uint (Nat.to_uint n).

(** [str(z)] *)
Definition str_int (z : Z) : string :=
  if z <? 0 then String "-" (digits (Z.abs_nat z)) else digits (Z.abs_nat z).

(** [format(z, "0<w>d")]: sign-aware zero padding to width [w]. *)
Definition format_0d (w : nat) (z : Z) : string :=
  let ds := digits (Z.abs_nat z) in
  if z <? 0
  then String "-" (repeat_char "0" (w - 1 - String.length ds) +:+ ds)
  else repeat_char "0" (w - String.length ds) +:+ ds.

(** The piece of [s] before the first [sep], or [s] when it has none:
    [s.split(sep)[0]]. *)
Definition before (sep s : string) : string :=
  match cut s sep with
  | Some (b, _) => b
  | None => s
  end.

End Py.

(** ** ingestion/ingest_pdf.py: the chunker *)

Module Ingest.

(** An element of [pages]: [{"page": ..., "text": ...}]. *)
Record Page := mkPage { page_num : Z; page_text : string }.

(** An element of the result: [{"chunk_id": ..., "page": ..., "text": ...}]. *)
Record Chunk := mkChunk { chunk_id : string; page : Z; text : string }.

Definition CHUNK_SIZE : Z := 500.
Definition CHUNK_OVERLAP : Z := 100.

(** [f"ng12_p{page_num:03d}_c{chunk_counter:04d}"] *)
Definition make_chunk_id (page_num : Z) (chunk_counter : nat) : string :=
  "ng12_p" +:+ Py.format_0d 3 page_num +:+ "_c"
  +:+ Py.format_0d 4 (Z.of_nat chunk_counter).

(** The state of the loops of [chunk_text]: the list [chunks] and
    [chunk_counter]. [steps] is a ghost counter of the iterations of the
    inner [while] loop; it is not in the source. *)
Record LoopState := mkLoop { chunks : list Chunk; chunk_counter : nat; steps : nat }.

(** One iteration of the body of [while start < len(text)]. *)
Definition window_step (page_num : Z) (text : string) (char_chunk_size : Z)
    (start : Z) (st : LoopState) : LoopState :=
  let end_ := start + char_chunk_size in
  let chunk_text_content := Py.slice text start end_ in
  match Py.strip chunk_text_content with
  | EmptyString => mkLoop (chunks st) (chunk_counter st) (S (steps st))
  | stripped =>
      mkLoop (chunks st ++ [mkChunk (make_chunk_id page_num (chunk_counter st))
                                    page_num stripped])
             (S (chunk_counter st)) (S (steps st))
  end.

(** The inner [while] loop. The source has no bound on it: [None] means
    that [fuel] iterations did not reach its exit. *)
Fixpoint page_loop (fuel : nat) (page_num : Z) (text : string)
    (char_chunk_size char_overlap : Z) (start : Z) (st : LoopState)
    : option LoopState :=
  if start <? Py.len text then
    match fuel with
    | O => None
    | S f =>
        page_loop f page_num text char_chunk_size char_overlap
          (start + (char_chunk_size - char_overlap))
          (window_step page_num text char_chunk_size start st)
    end
  else Some st.

(** The outer [for page_data in pages] loop. It returns the final state
    and, as a ghost value, the number of window steps of each page. *)
Fixpoint pages_loop (fuel : nat) (pages : list Page) (chunk_size overlap : Z)
    (st : LoopState) : option (LoopState * list nat) :=
  match pages with
  | [] => Some (st, [])
  | page_data :: rest =>
      let char_chunk_size := chunk_size * 4 in
      let char_overlap := overlap * 4 in
      match page_loop fuel (page_num page_data) (page_text page_data)
              char_chunk_size char_overlap 0
              (mkLoop (chunks st) (chunk_counter st) 0) with
      | None => None
      | Some st' =>
          match pages_loop fuel rest chunk_size overlap st' with
          | None => None
          | Some (st'', tr) => Some (st'', steps st' :: tr)
          end
      end
  end.

(** [chunk_text(pages, chunk_size, overlap)], with the ghost step counts. *)
Definition chunk_text_steps (fuel : nat) (pages : list Page)
    (chunk_size overlap : Z) : option (list Chunk * list nat) :=
  match pages_loop fuel pages chunk_size overlap (mkLoop [] O O) with
  | Some (st, tr) => Some (chunks st, tr)
  | None => None
  end.

Definition chunk_text (fuel : nat) (pages : list Page)
    (chunk_size overlap : Z) : option (list Chunk) :=
  option_map fst (chunk_text_steps fuel pages chunk_size overlap).

(** Reading a chunk id back: the page number and the sequence number. *)
Fixpoint span_digits (s : string) : string * string :=
  match s with
  | EmptyString => (EmptyString, EmptyString)
  | String c r =>
      if Py.isdigit c
      then let (d, t) := span_digits r in (String c d, t)
      else (EmptyString, s)
  end.

Definition read_nat (s : string) : option nat :=
  match s with
  | EmptyString => None
  | _ => option_map Nat.of_uint (NilEmpty.uint_of_string s)
  end.

Definition read_digits (s : string) : option (nat * string) :=
  let (d, t) := span_digits s in
  option_map (fun n => (n, t)) (read_nat d).

Definition read_int (s : string) : option (Z * string) :=
  match s with
  | EmptyString => None
  | String c r =>
      if Ascii.eqb c "-"
      then option_map (fun '(n, t) => (- Z.of_nat n, t)) (read_digits r)
      else option_map (fun '(n, t) => (Z.of_nat n, t)) (read_digits s)
  end.

Definition strip_prefix (p s : string) : option string :=
  if Py.startswith s p then Some (Py.drop (String.length p) s) else None.

Definition parse_chunk_id (s : string) : option (Z * nat) :=
  match strip_prefix "ng12_p" s with
  | None => None
  | Some s1 =>
      match read_int s1 with
      | None => None
      | Some (p, s2) =>
          match strip_prefix "_c" s2 with
          | None => None
          | Some s3 =>
              match read_int s3 with
              | Some (c, EmptyString) => if c <? 0 then None else Some (p, Z.to_nat c)
              | _ => None
              end
          end
      end
  end.

(** The ceiling of the quotient [a / b], for [b > 0]. *)
Definition ceil_div (a b : Z) : Z := - ((- a) / b).

(** *** Vocabulary of the properties of the chunker *)

(** [numbered base l]: the chunk at index [i] of [l] carries the page
    it was cut from and the sequence number [base + i]. *)
Definition numbered (base : nat) (l : list Chunk) : Prop :=
  forall (i : nat) (c : Chunk),
    l !! i = Some c -> chunk_id c = make_chunk_id (page c) (base + i).

(** The number of iterations the loop makes from [start] on a text of
    length [L] with step [s > 0]. *)
Definition iterations (L start s : Z) : nat := Z.to_nat (ceil_div (L - start) s).

(** Fuel that suffices whenever the step is positive: the length of the
    longest page. *)
Fixpoint enough_fuel (pages : list Page) : nat :=
  match pages with
  | [] => O
  | p :: rest => Nat.max (String.length (page_text p)) (enough_fuel rest)
  end.

(** The step-count clause of the chunking property as the specification
    words it: on every page the number of window steps is within one of
    the ceiling of (L - O) / (C - O), in characters. *)
Definition steps_within_one (pages : list Page) (chunk_size overlap : Z)
    (trace : list nat) : Prop :=
  Forall2 (fun p n =>
             Z.abs (Z.of_nat n
                    - ceil_div (Py.len (page_text p) - overlap * 4)
                               (chunk_size * 4 - overlap * 4)) <= 1)
          pages trace.

(** A string of decimal digits, and a string that does not go on with
    one. *)
Fixpoint all_digits (s : string) : bool :=
  match s with
  | EmptyString => true
  | String c r => Py.isdigit c && all_digits r
  end.

Definition stops (t : string) : Prop :=
  match t with
  | EmptyString => True
  | String c _ => Py.isdigit c = false
  end.

End Ingest.

(** ** app/models.py: the response records, and exceptions *)

Module Models.

Record Citation := mkCitation {
  source : string;
  cit_page : Z;
  cit_chunk_id : string;
  excerpt : string }.

Record ChatMessage := mkChatMessage {
  role : string;
  content : string;
  msg_citations : list Citation }.

Record ChatResponse := mkChatResponse {
  resp_session_id : string;
  answer : string;
  resp_citations : list Citation }.

Record AssessResponse := mkAssessResponse {
  patient_id : string;
  patient_name : string;
  risk_level : string;
  assessment : string;
  assess_citations : list Citation }.

Record PatientInfo := mkPatientInfo {
  info_patient_id : string;
  name : string;
  age : Z;
  gender : string;
  smoking_history : string;
  symptoms : list string;
  symptom_duration_days : Z }.

(** The exceptions that can leave the modelled functions.
    [UpstreamError] stands for any failure of a service outside the
    repository (vector store, embedding or generative model). *)
Inductive exn :=
| JSONDecodeError
| KeyError
| AttributeError
| TypeError
| ValidationError
| UpstreamError.

Inductive result (A : Type) :=
| Ok (a : A)
| Raise (e : exn).
Arguments Ok {A} a.
Arguments Raise {A} e.

Definition bind {A B} (r : result A) (k : A -> result B) : result B :=
  match r with
  | Ok a => k a
  | Raise e => Raise e
  end.

(** What [json.loads] returns: a Python object. A [dict] is kept as its
    list of items; its keys are distinct. *)
Inductive json :=
| JNull
| JBool (b : bool)
| JInt (z : Z)
| JFloat (f : float)
| JStr (s : string)
| JList (l : list json)
| JDict (items : list (string * json)).

Fixpoint assoc (k : string) (items : list (string * json)) : option json :=
  match items with
  | [] => None
  | (k', v) :: rest => if String.eqb k k' then Some v else assoc k rest
  end.

(** [obj.get(key, default)]: only a [dict] has the method. *)
Definition get (obj : json) (key : string) (default : json) : result json :=
  match obj with
  | JDict items =>
      match assoc key items with
      | Some v => Ok v
      | None => Ok default
      end
  | _ => Raise AttributeError
  end.

(** [for c in obj]: a list yields its elements, a [dict] its keys, a
    [str] its characters; nothing else is iterable. *)
Fixpoint chars (s : string) : list json :=
  match s with
  | EmptyString => []
  | String c r => JStr (String c EmptyString) :: chars r
  end.

Definition iterate (obj : json) : result (list json) :=
  match obj with
  | JList l => Ok l
  | JDict items => Ok (map (fun kv => JStr (fst kv)) items)
  | JStr s => Ok (chars s)
  | _ => Raise TypeError
  end.

(** The validation of a [str] field (pydantic 2): a [str] is taken as
    it is, any other decoded value is refused. *)
Definition validate_str (v : json) : result string :=
  match v with
  | JStr s => Ok s
  | _ => Raise ValidationError
  end.

Fixpoint traverse {A B} (f : A -> result B) (l : list A) : result (list B) :=
  match l with
  | [] => Ok []
  | a :: rest =>
      match f a with
      | Raise e => Raise e
      | Ok b =>
          match traverse f rest with
          | Raise e => Raise e
          | Ok bs => Ok (b :: bs)
          end
      end
  end.

Section Validation.

(** The validation of an [int] field, which coerces some values that
    are not integers; it belongs to pydantic. [None] is a refusal. *)
Variable validate_int : json -> option Z.

(** [Citation(source=c.get("source", "NG12 PDF"), page=c.get("page", 0),
              chunk_id=c.get("chunk_id", "unknown"),
              excerpt=c.get("excerpt", ""))] *)
Definition citation_of_json (c : json) : result Citation :=
  bind (get c "source" (JStr "NG12 PDF")) (fun src =>
  bind (get c "page" (JInt 0)) (fun pg =>
  bind (get c "chunk_id" (JStr "unknown")) (fun cid =>
  bind (get c "excerpt" (JStr "")) (fun exc =>
  bind (validate_str src) (fun src' =>
  match validate_int pg with
  | None => Raise ValidationError
  | Some pg' =>
      bind (validate_str cid) (fun cid' =>
      bind (validate_str exc) (fun exc' =>
      Ok (mkCitation src' pg' cid' exc')))
  end))))).

(** [[Citation(...) for c in parsed.get("citations", [])]] *)
Definition citations_of_json (parsed : json) : result (list Citation) :=
  bind (get parsed "citations" (JList [])) (fun cs =>
  bind (iterate cs) (fun items =>
  traverse citation_of_json items)).

End Validation.

(** The exceptions the [except] clauses of the sources catch. *)
Definition caught {A} (r : result A) : bool :=
  match r with
  | Raise JSONDecodeError | Raise KeyError => true
  | _ => false
  end.

End Models.

(** ** app/chat.py: the conversational pipeline *)

Module Chat.
Import Models.

(** An element of the list [query_guidelines_text] returns. *)
Record Retrieved := mkRetrieved {
  chunk_id : string;
  page : Z;
  text : string;
  distance : float }.

Definition SIMILARITY_THRESHOLD : float := 1.2%float.

Definition LOW_EVIDENCE_ANSWER : string :=
  "I couldn't find support in the NG12 text for that question. "
  +:+ "The retrieved guideline passages did not contain relevant information. "
  +:+ "Please try rephrasing your question or ask about specific cancer types, "
  +:+ "symptoms, or referral criteria covered by the NG12 guidelines.".

Definition GREETING_EXACT : list string :=
  [ "hi"; "hii"; "hiii"; "hey"; "hello"; "howdy"; "sup"; "yo";
    "good morning"; "good afternoon"; "good evening"; "good night";
    "thanks"; "thank you"; "bye"; "goodbye"; "see you";
    "what's up"; "whats up"; "how are you"; "who are you";
    "what can you do"; "help" ].

Definition GREETING_WORDS : list string :=
  [ "hi"; "hii"; "hiii"; "hey"; "hello"; "howdy"; "sup"; "yo"; "bye"; "goodbye" ].

Definition GREETING_RESPONSE : string :=
  "Hi there! I'm the NG12 Clinical Knowledge Assistant. I can help you with "
  +:+ "questions about the NICE NG12 guidelines on suspected cancer recognition "
  +:+ "and referral. Feel free to ask about symptoms, referral criteria, "
  +:+ "investigations, or any topic covered by the guidelines.".

Definition DISCLAIMER_PHRASES : list string :=
  [ "couldn't find"; "could not find"; "not found";
    "no relevant"; "no clear support"; "unclear in ng12";
    "not contain relevant" ].

(** Python's [min] over a non-empty sequence: the first element is kept
    until a later one compares strictly below it. *)
Fixpoint min_from (cur : float) (rest : list float) : float :=
  match rest with
  | [] => cur
  | x :: r => min_from (if PrimFloat.ltb x cur then x else cur) r
  end.

Definition py_min (l : list float) : option float :=
  match l with
  | [] => None
  | x :: r => Some (min_from x r)
  end.

Definition _has_good_evidence (chunks : list Retrieved) : bool :=
  match chunks with
  | [] => false
  | _ =>
      match py_min (map distance chunks) with
      | Some m => PrimFloat.ltb m SIMILARITY_THRESHOLD
      | None => false
      end
  end.

Definition _is_greeting (text : string) : bool :=
  let cleaned := Py.rstrip_chars (Py.lower (Py.strip text)) "!?.," in
  if Py.in_list cleaned GREETING_EXACT then true
  else if (String.length cleaned <? 60)%nat
          && existsb (fun w => Py.in_list w GREETING_WORDS) (Py.split_ws cleaned)
  then true
  else false.

Definition _is_disclaimer (text : string) : bool :=
  let lower := Py.lower text in
  existsb (fun p => Py.contains lower p) DISCLAIMER_PHRASES.

Definition FENCE_JSON : string := "```json".
Definition FENCE : string := "```".

(** [text.split(sep)[1].split("```")[0]] *)
Definition fenced (text sep : string) : string :=
  nth 0 (Py.split (nth 1 (Py.split text sep) EmptyString) FENCE) EmptyString.

(** The text handed to the first [json.loads]. *)
Definition candidate (raw_text : string) : string :=
  if Py.contains raw_text FENCE_JSON then fenced raw_text FENCE_JSON
  else if Py.contains raw_text FENCE then fenced raw_text FENCE
  else raw_text.

Definition _citations_from_chunks (chunks : list Retrieved) (limit : nat)
    : list Citation :=
  map (fun c =>
         mkCitation "NG12 PDF" (page c) (chunk_id c)
           (if (200 <? String.length (text c))%nat
            then Py.slice_to (text c) 200 +:+ "..."
            else text c))
      (firstn limit chunks).

(** The brace stage: the text from the first opening brace to the last
    closing brace, when the latter comes after the former. *)
Definition brace_span (raw_text : string) : option string :=
  match Py.find raw_text "{", Py.rfind raw_text "}" with
  | Some first, Some last =>
      if (first <? last)%nat
      then Some (Py.slice raw_text (Z.of_nat first) (Z.of_nat last + 1))
      else None
  | _, _ => None
  end.

(** The citation the reconciler makes of a retrieved passage. *)
Definition backfilled (c : Retrieved) : Citation :=
  mkCitation "NG12 PDF" (page c) (chunk_id c)
    (if (String.length (text c) <=? 200)%nat then text c
     else Py.take 200 (text c) +:+ "...").

(** [l[-n:]] for a literal [n > 0] *)
Definition last_n {A} (n : nat) (l : list A) : list A :=
  skipn (length l - n) l.

(** The module-level state. [_sessions] is the dict of the source;
    [llm_calls] is a ghost log of the message lists handed to the
    generative model, in the order of the calls. *)
Record World := mkWorld {
  _sessions : gmap string (list ChatMessage);
  llm_calls : list (list (string * string)) }.

(** [history.append(msg)], where [history] is the list stored in
    [_sessions] under [session_id] (created empty when absent). *)
Definition append_message (w : World) (session_id : string) (msg : ChatMessage)
    : World :=
  mkWorld (<[session_id := default [] (_sessions w !! session_id) ++ [msg]]> (_sessions w))
          (llm_calls w).

Definition history_of (w : World) (session_id : string) : list ChatMessage :=
  default [] (_sessions w !! session_id).

Definition get_history (w : World) (session_id : string) : list ChatMessage :=
  default [] (_sessions w !! session_id).

Definition clear_session (w : World) (session_id : string) : World * bool :=
  match _sessions w !! session_id with
  | Some _ => (mkWorld (delete session_id (_sessions w)) (llm_calls w), true)
  | None => (w, false)
  end.

Definition NL : string := String (ascii_of_nat 10) EmptyString.

(** The world after a turn that returned: the two messages are appended
    to the history of the session and [calls] is the log of model calls. *)
Definition answered (w : World) (session_id message answer : string)
    (citations : list Citation) (calls : list (list (string * string))) : World :=
  mkWorld (<[session_id := history_of w session_id
                           ++ [mkChatMessage "user" message [];
                               mkChatMessage "assistant" answer citations]]>
             (_sessions w))
          calls.

Section Pipeline.

(** The text of the system prompt; nothing below depends on it. *)
Variable SYSTEM_PROMPT : string.
(** [json.loads]; [None] is a [json.JSONDecodeError]. *)
Variable json_loads : string -> option json.
Variable validate_int : json -> option Z.
(** [format(d, ".3f")] *)
Variable format_3f : float -> string.
(** rag.py: the embedding of the query and the nearest-neighbour search. *)
Variable query_guidelines_text : string -> Z -> result (list Retrieved).
(** [_build_llm().invoke(messages).content] *)
Variable llm_invoke : list (string * string) -> result string.

Fixpoint join (sep : string) (parts : list string) : string :=
  match parts with
  | [] => EmptyString
  | [p] => p
  | p :: rest => p +:+ sep +:+ join sep rest
  end.

Definition _format_context (chunks : list Retrieved) : string :=
  match chunks with
  | [] => "No relevant guideline passages were retrieved."
  | _ =>
      join (NL +:+ NL +:+ "---" +:+ NL +:+ NL)
        (map (fun c =>
                "[Chunk " +:+ chunk_id c +:+ " | Page " +:+ Py.str_int (page c)
                +:+ " | Distance " +:+ format_3f (distance c) +:+ "]" +:+ NL
                +:+ text c)
             chunks)
  end.

(** [_parse_json]; [None] is a [json.JSONDecodeError]. *)
Definition _parse_json (raw_text : string) : option json :=
  match json_loads (Py.strip (candidate raw_text)) with
  | Some v => Some v
  | None =>
      match Py.find raw_text "{", Py.rfind raw_text "}" with
      | Some first, Some last =>
          if (first <? last)%nat
          then json_loads (Py.slice raw_text (Z.of_nat first) (Z.of_nat last + 1))
          else None
      | _, _ => None
      end
  end.

(** The message list built for the model from the history, in which
    the current user message is already the last element. *)
Definition build_messages (history : list ChatMessage)
    (retrieved_chunks : list Retrieved) (message : string)
    : list (string * string) :=
  [("system", SYSTEM_PROMPT)]
  ++ map (fun msg => (role msg, content msg)) (last_n 20 (removelast history))
  ++ [("user",
       "RETRIEVED CONTEXT:" +:+ NL +:+ _format_context retrieved_chunks
       +:+ NL +:+ NL +:+ "USER QUESTION:" +:+ NL +:+ message)].

(** The body of the [try], after [_parse_json] has returned [parsed]. *)
Definition reconcile_parsed (parsed : json) (raw_text : string)
    (retrieved_chunks : list Retrieved) : result (string * list Citation) :=
  bind (get parsed "answer" (JStr raw_text)) (fun answer =>
  bind (citations_of_json validate_int parsed) (fun citations =>
  match answer with
  | JStr answer' =>
      if _is_disclaimer answer' then Ok (answer', [])
      else match citations with
           | [] =>
               if _has_good_evidence retrieved_chunks
               then Ok (answer', _citations_from_chunks retrieved_chunks 3)
               else Ok (answer', [])
           | _ => Ok (answer', citations)
           end
  | _ => Raise AttributeError
  end)).

(** The [except (json.JSONDecodeError, KeyError)] branch. *)
Definition reconcile_raw (raw_text : string) (retrieved_chunks : list Retrieved)
    : string * list Citation :=
  if _is_disclaimer raw_text then (raw_text, [])
  else (raw_text, _citations_from_chunks retrieved_chunks 3).

Definition respond (w : World) (session_id answer : string)
    (citations : list Citation) : World * result ChatResponse :=
  (append_message w session_id (mkChatMessage "assistant" answer citations),
   Ok (mkChatResponse session_id answer citations)).

Definition chat_with_guidelines (w : World) (session_id message : string)
    (top_k : Z) : World * result ChatResponse :=
  let w1 := append_message w session_id (mkChatMessage "user" message []) in
  if _is_greeting message then respond w1 session_id GREETING_RESPONSE []
  else
    match query_guidelines_text message top_k with
    | Raise e => (w1, Raise e)
    | Ok retrieved_chunks =>
        if negb (_has_good_evidence retrieved_chunks)
        then respond w1 session_id LOW_EVIDENCE_ANSWER []
        else
          let messages :=
            build_messages (history_of w1 session_id) retrieved_chunks message in
          let w2 := mkWorld (_sessions w1) (llm_calls w1 ++ [messages]) in
          match llm_invoke messages with
          | Raise e => (w2, Raise e)
          | Ok raw_text =>
              match _parse_json raw_text with
              | Some parsed =>
                  match reconcile_parsed parsed raw_text retrieved_chunks with
                  | Ok (answer, citations) => respond w2 session_id answer citations
                  | Raise JSONDecodeError | Raise KeyError =>
                      let (answer, citations) := reconcile_raw raw_text retrieved_chunks in
                      respond w2 session_id answer citations
                  | Raise e => (w2, Raise e)
                  end
              | None =>
                  let (answer, citations) := reconcile_raw raw_text retrieved_chunks in
                  respond w2 session_id answer citations
              end
          end
    end.

(** *** Vocabulary of the properties of a turn *)

(** The final user message of the prompt. *)
Definition user_turn (chunks : list Retrieved) (message : string) : string :=
  "RETRIEVED CONTEXT:" +:+ NL +:+ _format_context chunks
  +:+ NL +:+ NL +:+ "USER QUESTION:" +:+ NL +:+ message.

(** The message list a turn hands to the model. *)
Definition turn_prompt (w : World) (session_id message : string)
    (chunks : list Retrieved) : list (string * string) :=
  build_messages (history_of w session_id ++ [mkChatMessage "user" message []]) chunks message.

(** A turn that returns, path by path. *)
Inductive turn (w : World) (session_id message : string) (top_k : Z)
    : World -> ChatResponse -> Prop :=
| turn_greeting :
    _is_greeting message = true ->
    turn w session_id message top_k
      (answered w session_id message GREETING_RESPONSE [] (llm_calls w))
      (mkChatResponse session_id GREETING_RESPONSE [])
| turn_low_evidence chunks :
    _is_greeting message = false ->
    query_guidelines_text message top_k = Ok chunks ->
    _has_good_evidence chunks = false ->
    turn w session_id message top_k
      (answered w session_id message LOW_EVIDENCE_ANSWER [] (llm_calls w))
      (mkChatResponse session_id LOW_EVIDENCE_ANSWER [])
| turn_parsed chunks raw_text parsed answer citations :
    _is_greeting message = false ->
    query_guidelines_text message top_k = Ok chunks ->
    _has_good_evidence chunks = true ->
    llm_invoke (turn_prompt w session_id message chunks) = Ok raw_text ->
    _parse_json raw_text = Some parsed ->
    reconcile_parsed parsed raw_text chunks = Ok (answer, citations) ->
    turn w session_id message top_k
      (answered w session_id message answer citations
         (llm_calls w ++ [turn_prompt w session_id message chunks]))
      (mkChatResponse session_id answer citations)
| turn_fallback chunks raw_text :
    _is_greeting message = false ->
    query_guidelines_text message top_k = Ok chunks ->
    _has_good_evidence chunks = true ->
    llm_invoke (turn_prompt w session_id message chunks) = Ok raw_text ->
    _parse_json raw_text = None ->
    turn w session_id message top_k
      (answered w session_id message raw_text (snd (reconcile_raw raw_text chunks))
         (llm_calls w ++ [turn_prompt w session_id message chunks]))
      (mkChatResponse session_id raw_text (snd (reconcile_raw raw_text chunks))).

(** The model supplied no citation: its text did not parse, or it parsed
    to an object whose citation list is empty or absent. *)
Definition no_model_citations (raw_text : string) : Prop :=
  match _parse_json raw_text with
  | Some parsed => citations_of_json validate_int parsed = Ok []
  | None => True
  end.

End Pipeline.

End Chat.

(** ** app/agent.py and app/tools.py: the one-shot assessment *)

Module Agent.
Import Models.

(** The four levels the system prompt of the agent lists. *)
Definition RISK_LEVELS : list string :=
  [ "Urgent Referral (2-week wait)"; "Urgent Investigation";
    "Non-Urgent Referral"; "Low Risk - Routine Follow-up" ].

Definition ASSESSMENT_ERROR : string := "Assessment Error".

Section Assessment.

Variable json_loads : string -> option json.
Variable validate_int : json -> option Z.
(** The patient file, as [_load_patients] caches it. *)
Variable patients : gmap string PatientInfo.
(** [agent.invoke(...)["messages"][-1].content] for a patient id: the
    whole tool-calling loop of the agent framework. *)
Variable agent_invoke : string -> result string.

(** tools.py *)
Definition get_patient (patient_id : string) : result PatientInfo :=
  match patients !! patient_id with
  | Some p => Ok p
  | None => Raise KeyError
  end.

(** [_parse_json] of agent.py; [None] is a [json.JSONDecodeError]. *)
Definition _parse_json (raw_text : string) : option json :=
  json_loads (Py.strip (Chat.candidate raw_text)).

(** The [except (json.JSONDecodeError, KeyError)] branch. *)
Definition assessment_error (patient_id final_text : string)
    : result AssessResponse :=
  bind (get_patient patient_id) (fun patient =>
  Ok (mkAssessResponse patient_id (name patient) ASSESSMENT_ERROR
        ("Agent returned non-JSON response: " +:+ final_text) [])).

(** The body of the [try], after [_parse_json] has returned [parsed]. *)
Definition assessment_parsed (patient_id final_text : string) (parsed : json)
    : result AssessResponse :=
  bind (get_patient patient_id) (fun patient =>
  bind (citations_of_json validate_int parsed) (fun citations =>
  bind (get parsed "risk_level" (JStr "Unknown")) (fun rl =>
  bind (get parsed "assessment" (JStr final_text)) (fun asm =>
  bind (validate_str rl) (fun rl' =>
  bind (validate_str asm) (fun asm' =>
  Ok (mkAssessResponse patient_id (name patient) rl' asm' citations))))))).

Definition assess_patient (patient_id : string) : result AssessResponse :=
  bind (agent_invoke patient_id) (fun final_text =>
  match _parse_json final_text with
  | None => assessment_error patient_id final_text
  | Some parsed =>
      match assessment_parsed patient_id final_text parsed with
      | Raise JSONDecodeError | Raise KeyError =>
          assessment_error patient_id final_text
      | r => r
      end
  end).

End Assessment.

End Agent.

(** ** Concrete inputs and services for the examples *)

Module Examples.
Import Models Chat.

(** The texts of the specification's examples. *)
Definition DQ : string := String (ascii_of_nat 34) EmptyString.
Definition ex_object : string := "{" +:+ DQ +:+ "a" +:+ DQ +:+ ":1}".

Definition ex_weak : list Retrieved :=
  [ mkRetrieved "ng12_p010_c0042" 10 "Offer advice on symptom control." 1.5%float;
    mkRetrieved "ng12_p031_c0120" 31 "Consider a review in primary care." 1.7%float ].

Definition ex_good : list Retrieved :=
  [ mkRetrieved "ng12_p024_c0090" 24
      ("Refer people using a suspected cancer pathway referral for breast cancer "
       +:+ "if they are aged 30 and over and have an unexplained breast lump with or "
       +:+ "without pain, or aged 50 and over with any of the following symptoms in "
       +:+ "one nipple only: discharge, retraction or other changes of concern.")
      0.8%float;
    mkRetrieved "ng12_p025_c0091" 25 "Consider a suspected cancer pathway referral." 0.95%float;
    mkRetrieved "ng12_p025_c0092" 25 "Consider non-urgent referral in people under 30." 1.1%float;
    mkRetrieved "ng12_p026_c0095" 26 "See also the recommendations on patient support." 1.15%float ].

(** The model text [{"answer": "Refer on the suspected cancer pathway."}]
    and what [json.loads] makes of it. *)
Definition ex_raw : string :=
  "{" +:+ DQ +:+ "answer" +:+ DQ +:+ ": " +:+ DQ
  +:+ "Refer on the suspected cancer pathway." +:+ DQ +:+ "}".

Definition ex_loads_answer (s : string) : option json :=
  if String.eqb s ex_raw
  then Some (JDict [("answer", JStr "Refer on the suspected cancer pathway.")])
  else None.

(** A validation of [int] fields that takes integers only. *)
Definition ex_validate_int (v : json) : option Z :=
  match v with
  | JInt z => Some z
  | _ => None
  end.

Definition ex_format (d : float) : string := "0.000".

Definition ex_query (chunks : list Retrieved) (query : string) (top_k : Z)
    : result (list Retrieved) :=
  Ok chunks.

Definition ex_llm (messages : list (string * string)) : result string := Ok ex_raw.

(** A session with 25 earlier messages. *)
Definition ex_world : World :=
  mkWorld {[ "s1" := repeat (mkChatMessage "user" "Is a lump a red flag?" []) 25 ]} [].

Definition ex_chat (chunks : list Retrieved) :=
  chat_with_guidelines "system" ex_loads_answer ex_validate_int ex_format (ex_query chunks) ex_llm.

Definition ex_answer : string := "Refer on the suspected cancer pathway.".

Definition ex_response : ChatResponse :=
  mkChatResponse "s1" ex_answer (map backfilled (firstn 3 ex_good)).

Definition ex_world_after : World :=
  answered ex_world "s1" "breast lump" ex_answer (map backfilled (firstn 3 ex_good))
    (llm_calls ex_world ++ [turn_prompt "system" ex_format ex_world "s1" "breast lump" ex_good]).

Definition ex_patients : gmap string PatientInfo :=
  {[ "PT-101" := mkPatientInfo "PT-101" "John Doe" 55 "Male" "Current Smoker"
                   ["unexplained hemoptysis"] 14 ]}.

(** Prose around an object: [blah blah {"a":1} trailing]. *)
Definition ex_prose : string :=
  "blah blah " +:+ "{" +:+ (DQ +:+ "a" +:+ DQ +:+ ":1") +:+ "}" +:+ " trailing".

Definition ex_loads_object (s : string) : option json :=
  if String.eqb s ex_object then Some (JDict [("a", JInt 1)]) else None.

(** A model text with a risk level outside the four, and one with a
    disclaimer and a citation; [json.loads] is given on these two texts. *)
Definition ex_text_high : string :=
  "{" +:+ DQ +:+ "risk_level" +:+ DQ +:+ ": " +:+ DQ +:+ "High" +:+ DQ +:+ ", "
  +:+ DQ +:+ "assessment" +:+ DQ +:+ ": " +:+ DQ +:+ "Refer." +:+ DQ +:+ "}".

Definition ex_text_disclaimer : string :=
  "{" +:+ DQ +:+ "risk_level" +:+ DQ +:+ ": " +:+ DQ +:+ "Low Risk - Routine Follow-up"
  +:+ DQ +:+ ", " +:+ DQ +:+ "assessment" +:+ DQ +:+ ": " +:+ DQ
  +:+ "I could not find guidance in NG12 for this presentation." +:+ DQ +:+ ", "
  +:+ DQ +:+ "citations" +:+ DQ +:+ ": [{" +:+ DQ +:+ "page" +:+ DQ +:+ ": 12, "
  +:+ DQ +:+ "chunk_id" +:+ DQ +:+ ": " +:+ DQ +:+ "ng12_p012_c0040" +:+ DQ +:+ ", "
  +:+ DQ +:+ "excerpt" +:+ DQ +:+ ": " +:+ DQ +:+ "Refer people aged 40 and over." +:+ DQ
  +:+ "}]}".

Definition ex_parsed_disclaimer : json :=
  JDict [("risk_level", JStr "Low Risk - Routine Follow-up");
         ("assessment", JStr "I could not find guidance in NG12 for this presentation.");
         ("citations",
          JList [JDict [("page", JInt 12); ("chunk_id", JStr "ng12_p012_c0040");
                        ("excerpt", JStr "Refer people aged 40 and over.")]])].

Definition ex_loads_assessment (s : string) : option json :=
  if String.eqb s ex_text_high
  then Some (JDict [("risk_level", JStr "High"); ("assessment", JStr "Refer.")])
  else if String.eqb s ex_text_disclaimer then Some ex_parsed_disclaimer
  else None.

End Examples.

(** ** Further vocabulary and inputs for the properties of a session *)

Module Sessions.
Import Models Chat.

(** The roles of a history in which every user message was answered. *)
Fixpoint alternating (h : list ChatMessage) : Prop :=
  match h with
  | [] => True
  | u :: a :: rest => role u = "user" /\ role a = "assistant" /\ alternating rest
  | [_] => False
  end.

(** Every stored session has at least one message. *)
Definition sessions_nonempty (w : World) : Prop :=
  forall session_id h, _sessions w !! session_id = Some h -> h <> [].

End Sessions.

(** ** Further vocabulary for the classifiers of chat.py *)

Module Classifiers.
Import Chat.

(** The local [cleaned] of [_is_greeting]. *)
Definition cleaned (text : string) : string :=
  Py.rstrip_chars (Py.lower (Py.strip text)) "!?.,".

(** [sub] occurs in [s]. *)
Definition substring_of (sub s : string) : Prop :=
  exists pre post, s = pre +:+ sub +:+ post.

End Classifiers.

(** ** app/tools.py: the patient file *)

Module Tools.
Import Models.

(** Python's [<=] on [str]: the lexicographic order of the code points. *)
Definition str_le (a b : string) : Prop := String.leb a b = true.

#[global] Instance str_le_dec a b : Decision (str_le a b).
Proof. unfold str_le. apply _. Defined.

(** [list_patient_ids]: [sorted(_load_patients().keys())]. The keys of a
    dict are distinct, so the sorted list does not depend on the sorting
    algorithm. *)
Definition list_patient_ids (patients : gmap string PatientInfo) : list string :=
  merge_sort str_le (map fst (map_to_list patients)).

End Tools.

(** ** app/main.py: the endpoints *)

Module Api.
Import Models.

(** What an endpoint gives back: the body of a 200 response, an
    [HTTPException] the endpoint raised itself, or an exception it did not
    catch, which the framework reports as a server error. *)
Inductive response (A : Type) :=
| Success (body : A)
| HTTPException (status_code : Z) (detail : string)
| Uncaught (e : exn).
Arguments Success {A} body.
Arguments HTTPException {A} status_code detail.
Arguments Uncaught {A} e.

Definition status {A} (r : response A) : Z :=
  match r with
  | Success _ => 200
  | HTTPException code _ => code
  | Uncaught _ => 500
  end.

Record ChatRequest := mkChatRequest {
  session_id : string;
  message : string;
  top_k : Z }.

Section Endpoints.

Variable SYSTEM_PROMPT : string.
Variable json_loads : string -> option json.
Variable validate_int : json -> option Z.
Variable format_3f : float -> string.
Variable query_guidelines_text : string -> Z -> result (list Chat.Retrieved).
Variable llm_invoke : list (string * string) -> result string.
Variable patients : gmap string PatientInfo.
Variable agent_invoke : string -> result string.
(** [str(e)] *)
Variable exn_message : exn -> string.

(** [GET /patients] *)
Definition get_patients : response (list string) :=
  Success (Tools.list_patient_ids patients).

(** [GET /patients/{patient_id}] *)
Definition get_patient_detail (patient_id : string) : response PatientInfo :=
  match Agent.get_patient patients patient_id with
  | Ok patient => Success patient
  | Raise KeyError => HTTPException 404 ("Patient " +:+ patient_id +:+ " not found")
  | Raise e => Uncaught e
  end.

(** [POST /assess] *)
Definition assess (patient_id : string) : response AssessResponse :=
  match Agent.get_patient patients patient_id with
  | Raise KeyError => HTTPException 404 ("Patient " +:+ patient_id +:+ " not found")
  | Raise e => Uncaught e
  | Ok _ =>
      match Agent.assess_patient json_loads validate_int patients agent_invoke patient_id with
      | Ok r => Success r
      | Raise e => HTTPException 500 ("Assessment failed: " +:+ exn_message e)
      end
  end.

(** [POST /chat] *)
Definition chat (w : Chat.World) (request : ChatRequest)
    : Chat.World * response ChatResponse :=
  let (w', r) :=
    Chat.chat_with_guidelines SYSTEM_PROMPT json_loads validate_int format_3f
      query_guidelines_text llm_invoke w (session_id request) (message request)
      (top_k request) in
  (w', match r with
       | Ok resp => Success resp
       | Raise e => HTTPException 500 ("Chat failed: " +:+ exn_message e)
       end).

(** [GET /chat/{session_id}/history]; the body is the session id and the
    messages. *)
Definition chat_history (w : Chat.World) (session_id : string)
    : response (string * list ChatMessage) :=
  match Chat.get_history w session_id with
  | [] => HTTPException 404 ("Session " +:+ session_id +:+ " not found")
  | history => Success (session_id, history)
  end.

(** [DELETE /chat/{session_id}]; the body is the status and the session
    id. *)
Definition delete_chat (w : Chat.World) (session_id : string)
    : Chat.World * response (string * string) :=
  let (w', deleted) := Chat.clear_session w session_id in
  if deleted
  then (w', Success ("deleted", session_id))
  else (w', HTTPException 404 ("Session " +:+ session_id +:+ " not found")).

End Endpoints.

End Api.

(** ** ui/streamlit_app.py: how a risk level is shown *)

Module Ui.

(** [st.error], [st.warning], [st.info], [st.success] *)
Inductive Style := st_error | st_warning | st_info | st_success.

(** The chain of [if "..." in risk] that picks the box of the risk
    level. *)
Definition risk_style (risk : string) : Style :=
  if Py.contains risk "Urgent Referral" then st_error
  else if Py.contains risk "Urgent Investigation" then st_warning
  else if Py.contains risk "Non-Urgent" then st_info
  else st_success.

End Ui.


(** ** ingestion/ingest_pdf.py and app/rag.py: from the document to the
    chunks and their embeddings *)

Module Ingestion.
Import Models Ingest.

(** [extract_pages]. The document is given by the text of its pages, in
    order, as [page.get_text("text")] returns them. *)
Fixpoint extract_from (page_num : nat) (doc : list string) : list Page :=
  match doc with
  | [] => []
  | text :: rest =>
      match Py.strip text with
      | EmptyString => extract_from (S page_num) rest
      | _ => mkPage (Z.of_nat page_num + 1) text :: extract_from (S page_num) rest
      end
  end.

Definition extract_pages (doc : list string) : list Page := extract_from 0 doc.

(** [range(0, stop, step)] for [step > 0] *)
Definition range_step (stop step : nat) : list nat :=
  map (fun k => k * step)%nat (seq 0 ((stop + step - 1) / step)).

Definition batch_size : nat := 20.

(** [[c["text"] for c in chunks[i : i + batch_size]]] *)
Definition batch_texts (chunks : list Chunk) (i : nat) : list string :=
  map text (firstn batch_size (skipn i chunks)).

Section Embeddings.

(** [embeddings_model.embed_documents] *)
Variable embed_documents : list string -> result (list (list float)).

(** The loop of [create_embeddings] over the offsets of the batches. *)
Fixpoint embed_loop (chunks : list Chunk) (offsets : list nat)
    (embeddings : list (list float)) : result (list (list float)) :=
  match offsets with
  | [] => Ok embeddings
  | i :: rest =>
      match embed_documents (batch_texts chunks i) with
      | Raise e => Raise e
      | Ok batch_embeddings => embed_loop chunks rest (embeddings ++ batch_embeddings)
      end
  end.

Definition create_embeddings (chunks : list Chunk) : result (list (list float)) :=
  embed_loop chunks (range_step (length chunks) batch_size) [].

End Embeddings.

(** The loop of [_auto_ingest_pdfs] that gathers the chunks of every PDF
    file. A file is given by the outcome of opening and reading it: the
    text of its pages, or the exception, in which case the file is
    skipped. [None] is a chunking that does not return. *)
Fixpoint gather (fuel : nat) (files : list (result (list string)))
    (all_chunks : list Chunk) : option (list Chunk) :=
  match files with
  | [] => Some all_chunks
  | Raise _ :: rest => gather fuel rest all_chunks
  | Ok doc :: rest =>
      match chunk_text fuel (extract_pages doc) CHUNK_SIZE CHUNK_OVERLAP with
      | None => None
      | Some chunks => gather fuel rest (all_chunks ++ chunks)
      end
  end.

(** Fuel that suffices for every file that can be read. *)
Fixpoint files_fuel (files : list (result (list string))) : nat :=
  match files with
  | [] => O
  | Ok doc :: rest => Nat.max (enough_fuel (extract_pages doc)) (files_fuel rest)
  | Raise _ :: rest => files_fuel rest
  end.

(** The pages kept whole: one chunk for every page that is not blank,
    numbered from [chunk_counter] on. *)
Fixpoint whole_pages (chunk_counter : nat) (pages : list Page) : list Chunk :=
  match pages with
  | [] => []
  | p :: rest =>
      match Py.strip (page_text p) with
      | EmptyString => whole_pages chunk_counter rest
      | stripped =>
          mkChunk (make_chunk_id (page_num p) chunk_counter) (page_num p) stripped
          :: whole_pages (S chunk_counter) rest
      end
  end.

(** *** Vocabulary of the properties *)

Fixpoint all_space (s : string) : bool :=
  match s with
  | EmptyString => true
  | String c r => Py.isspace c && all_space r
  end.

(** A text without white space at either end. *)
Definition trimmed (s : string) : Prop := Py.strip s = s.

(** What is said of every chunk: it is not empty, it has no white space
    at either end, it is not longer than a window, and it is an excerpt
    of a page that carries its number. *)
Definition excerpt_of (pages : list Page) (csz : Z) (c : Chunk) : Prop :=
  text c <> EmptyString
  /\ trimmed (text c)
  /\ Z.of_nat (String.length (text c)) <= csz
  /\ exists p, In p pages /\ page c = page_num p
               /\ Classifiers.substring_of (text c) (page_text p).

End Ingestion.

(** ** Inputs on which the properties are exercised *)

Module Fixtures.
Import Models Examples.

(** A session in which one question was asked and answered. *)
Definition fx_world : Chat.World :=
  Chat.mkWorld {[ "s1" := [ mkChatMessage "user" "Is a lump a red flag?" [];
                            mkChatMessage "assistant" "It can be." [] ] ]} [].

(** A retrieval and a model that are out of service. *)
Definition fx_query_down (query : string) (top_k : Z) : result (list Chat.Retrieved) :=
  Raise UpstreamError.

Definition fx_llm_down (messages : list (string * string)) : result string :=
  Raise UpstreamError.

Definition fx_llm (raw_text : string) (messages : list (string * string))
    : result string :=
  Ok raw_text.

(** A model text that cites a passage which was not retrieved, one that
    says nothing was found and still cites a passage, and one that is a
    JSON list. *)
Definition fx_text_cited : string :=
  "{" +:+ DQ +:+ "answer" +:+ DQ +:+ ": " +:+ DQ +:+ "Refer urgently." +:+ DQ +:+ ", "
  +:+ DQ +:+ "citations" +:+ DQ +:+ ": [{" +:+ DQ +:+ "page" +:+ DQ +:+ ": 99, "
  +:+ DQ +:+ "chunk_id" +:+ DQ +:+ ": " +:+ DQ +:+ "ng12_p099_c9999" +:+ DQ +:+ ", "
  +:+ DQ +:+ "excerpt" +:+ DQ +:+ ": " +:+ DQ +:+ "Refer everyone." +:+ DQ +:+ "}]}".

Definition fx_parsed_cited : json :=
  JDict [("answer", JStr "Refer urgently.");
         ("citations",
          JList [JDict [("page", JInt 99); ("chunk_id", JStr "ng12_p099_c9999");
                        ("excerpt", JStr "Refer everyone.")]])].

Definition fx_citation : Citation :=
  mkCitation "NG12 PDF" 99 "ng12_p099_c9999" "Refer everyone.".

Definition fx_text_sorry : string :=
  "{" +:+ DQ +:+ "answer" +:+ DQ +:+ ": " +:+ DQ
  +:+ "I could not find this in the NG12 passages." +:+ DQ +:+ ", "
  +:+ DQ +:+ "citations" +:+ DQ +:+ ": [{" +:+ DQ +:+ "page" +:+ DQ +:+ ": 99, "
  +:+ DQ +:+ "chunk_id" +:+ DQ +:+ ": " +:+ DQ +:+ "ng12_p099_c9999" +:+ DQ +:+ ", "
  +:+ DQ +:+ "excerpt" +:+ DQ +:+ ": " +:+ DQ +:+ "Refer everyone." +:+ DQ +:+ "}]}".

Definition fx_parsed_sorry : json :=
  JDict [("answer", JStr "I could not find this in the NG12 passages.");
         ("citations",
          JList [JDict [("page", JInt 99); ("chunk_id", JStr "ng12_p099_c9999");
                        ("excerpt", JStr "Refer everyone.")]])].

Definition fx_text_list : string := "[1]".

Definition fx_loads (s : string) : option json :=
  if String.eqb s fx_text_cited then Some fx_parsed_cited
  else if String.eqb s fx_text_sorry then Some fx_parsed_sorry
  else if String.eqb s fx_text_list then Some (JList [JInt 1])
  else None.

Definition fx_chat (query : string -> Z -> result (list Chat.Retrieved))
    (llm : list (string * string) -> result string) :=
  Chat.chat_with_guidelines "system" fx_loads ex_validate_int ex_format query llm.

(** A passage whose distance is not a number, before a close one. *)
Definition fx_nan_first : list Chat.Retrieved :=
  [ Chat.mkRetrieved "ng12_p010_c0042" 10 "Offer advice on symptom control." PrimFloat.nan;
    Chat.mkRetrieved "ng12_p024_c0090" 24 "Refer people on the pathway." 0.2%float ].

(** A model text with a fenced block after some prose. *)
Definition fx_fenced_pre : string := "Here is the answer: ".
Definition fx_fenced_post : string := " I hope this helps.".

(** A document of three pages, the second of them blank, and a second
    document. *)
Definition fx_doc : list string :=
  [ "  Suspected cancer: recognition and referral  "; "   "; "Refer urgently." ].

Definition fx_doc2 : list string := [ "Appendix" ].

Definition fx_pages : list Ingest.Page :=
  [ Ingest.mkPage 1 "  Lung cancer  "; Ingest.mkPage 2 "   ";
    Ingest.mkPage 3 "Refer people aged 40 and over." ].

Definition fx_files : list (result (list string)) :=
  [ Ok fx_doc; Raise UpstreamError; Ok fx_doc2 ].

(** An embedding service that takes batches of 1 to 20 texts only. *)
Definition fx_embed_one (t : string) : list float :=
  if Py.startswith t "Refer" then [ 1%float; 0%float ] else [ 0%float; 1%float ].

Definition fx_embed_documents (texts : list string) : result (list (list float)) :=
  if ((0 <? length texts) && (length texts <=? Ingestion.batch_size))%nat
  then Ok (map fx_embed_one texts)
  else Raise UpstreamError.

(** 45 chunks: three batches. *)
Definition fx_chunks : list Ingest.Chunk :=
  map (fun k => Ingest.mkChunk (Ingest.make_chunk_id 1 k) 1 "Refer people aged 40 and over.")
      (seq 0 45).

End Fixtures.

(** * Properties *)

(** ** Python's string operations *)

(** stdpp keeps [simpl] from unfolding the append of strings; the proofs
    below compute with it. *)
Arguments String.append !_ _ / : simpl nomatch.

Module StrFacts.
Import Py.

Lemma append_nil_r (a : string) : a +:+ "" = a.
Proof. induction a; simpl; congruence. Qed.

Lemma startswith_app p s : Py.startswith (p +:+ s) p = true.
Proof. induction p as [|a p IH]; simpl; [now destruct s|]. now rewrite Ascii.eqb_refl. Qed.

Lemma startswith_spec s p : Py.startswith s p = true <-> exists t, s = p +:+ t.
Proof.
  revert s. induction p as [|a p IH]; intros s.
  - split; [intros _; now exists s | intros _; now destruct s].
  - destruct s as [|b s]; [split; [discriminate | intros [t Ht]; discriminate]|].
    cbn [Py.startswith String.append].
    destruct (Ascii.eqb_spec a b) as [->|Hne].
    + rewrite IH. split; intros [t Ht]; exists t; congruence.
    + split; [discriminate | intros [t Ht]; congruence].
Qed.

Lemma take_length n s : (n <= String.length s)%nat -> String.length (Py.take n s) = n.
Proof.
  revert s. induction n as [|n IH]; intros s H; [reflexivity|].
  destruct s; simpl in *; [lia|]. rewrite IH; lia.
Qed.

Lemma take_drop n s : Py.take n s +:+ Py.drop n s = s.
Proof.
  revert s. induction n as [|n IH]; intros s; [reflexivity|].
  destruct s; simpl; [reflexivity|]. now rewrite IH.
Qed.

Lemma take_app p t : Py.take (String.length p) (p +:+ t) = p.
Proof. induction p; simpl; [now destruct t | congruence]. Qed.

Lemma drop_app p t : Py.drop (String.length p) (p +:+ t) = t.
Proof. induction p; simpl; [now destruct t | assumption]. Qed.

Lemma drop_drop n m s : Py.drop n (Py.drop m s) = Py.drop (m + n) s.
Proof.
  revert s. induction m as [|m IH]; intros s; simpl; [reflexivity|].
  destruct s; [now destruct n | apply IH].
Qed.

Lemma find_bound s sub i : Py.find s sub = Some i -> (i + String.length sub <= String.length s)%nat.
Proof.
  revert i. induction s as [|c s IH]; intros i; cbn [Py.find].
  - destruct (Py.startswith "" sub) eqn:E; [|discriminate].
    intros [= <-]. apply startswith_spec in E as [t Ht]. destruct sub; [simpl; lia | discriminate].
  - destruct (Py.startswith (String c s) sub) eqn:E.
    + intros [= <-]. apply startswith_spec in E as [t Ht]. rewrite Ht.
      clear. induction sub; simpl; lia.
    + destruct (Py.find s sub) as [j|] eqn:F; [|discriminate].
      intros [= <-]. specialize (IH j eq_refl). simpl. lia.
Qed.

(** The position [find] returns is an occurrence, and the first one. *)
Lemma find_Some s sub i :
  Py.find s sub = Some i ->
  s = Py.take i s +:+ sub +:+ Py.drop (i + String.length sub) s
  /\ forall j, (j < i)%nat -> Py.startswith (Py.drop j s) sub = false.
Proof.
  revert i. induction s as [|c s IH]; intros i; cbn [Py.find].
  - destruct (Py.startswith "" sub) eqn:E; [|discriminate].
    intros [= <-]. split; [|intros j; lia].
    apply startswith_spec in E as [t Ht]. destruct sub; [reflexivity | discriminate].
  - destruct (Py.startswith (String c s) sub) eqn:E.
    + intros [= <-]. split; [|intros j; lia].
      apply startswith_spec in E as [t Ht]. rewrite Ht at 1.
      simpl. f_equal. rewrite Ht. now rewrite drop_app.
    + destruct (Py.find s sub) as [j|] eqn:F; [|discriminate].
      intros [= <-]. destruct (IH j eq_refl) as [Hs Hfirst]. split.
      * simpl. now rewrite <- Hs.
      * intros [|k] Hk; [exact E | simpl; apply Hfirst; lia].
Qed.

Lemma find_None s sub :
  Py.find s sub = None -> forall j, Py.startswith (Py.drop j s) sub = false.
Proof.
  induction s as [|c s IH]; cbn [Py.find].
  - destruct (Py.startswith "" sub) eqn:E; [discriminate|].
    intros _ [|j]; exact E.
  - destruct (Py.startswith (String c s) sub) eqn:E; [discriminate|].
    destruct (Py.find s sub) eqn:F; [discriminate|].
    intros _ [|j]; [exact E | simpl; now apply IH].
Qed.

(** [sub in s] holds exactly when [s] has [sub] as a substring. *)
Lemma contains_spec s sub :
  Py.contains s sub = true <-> exists pre post, s = pre +:+ sub +:+ post.
Proof.
  unfold Py.contains. split.
  - destruct (Py.find s sub) as [i|] eqn:F; [|discriminate].
    intros _. apply find_Some in F as [Hs _]. eauto.
  - intros (pre & post & ->).
    destruct (Py.find (pre +:+ sub +:+ post) sub) eqn:F; [reflexivity|].
    pose proof (find_None _ _ F (String.length pre)) as H.
    rewrite drop_app in H.
    assert (Py.startswith (sub +:+ post) sub = true) by (apply startswith_spec; eauto).
    congruence.
Qed.

Lemma find_char_app c pre rest :
  Py.contains pre (String c "") = false ->
  Py.find (pre +:+ String c rest) (String c "") = Some (String.length pre).
Proof.
  unfold Py.contains. induction pre as [|a pre IH]; cbn [String.append Py.find Py.startswith].
  - intros _. rewrite Ascii.eqb_refl. now destruct rest.
  - destruct (Ascii.eqb c a) eqn:E.
    + destruct pre; discriminate.
    + destruct (Py.find pre (String c "")) eqn:F; [discriminate|].
      intros _. now rewrite IH.
Qed.

Lemma rfind_char_None c s :
  Py.contains s (String c "") = false -> Py.rfind s (String c "") = None.
Proof.
  unfold Py.contains. induction s as [|a s IH]; cbn [Py.rfind Py.find Py.startswith].
  - reflexivity.
  - destruct (Ascii.eqb c a) eqn:E.
    + destruct s; discriminate.
    + destruct (Py.find s (String c "")) eqn:F; [discriminate|].
      intros _. now rewrite IH.
Qed.

Lemma rfind_char_app c pre post :
  Py.contains post (String c "") = false ->
  Py.rfind (pre +:+ String c post) (String c "") = Some (String.length pre).
Proof.
  intros H. induction pre as [|a pre IH]; cbn [String.append Py.rfind].
  - rewrite (rfind_char_None c post H). cbn [Py.startswith].
    rewrite Ascii.eqb_refl. now destruct post.
  - now rewrite IH.
Qed.

Lemma append_length a b : String.length (a +:+ b) = (String.length a + String.length b)%nat.
Proof. induction a; simpl; congruence. Qed.

Lemma append_assoc (a b c : string) : (a +:+ b) +:+ c = a +:+ (b +:+ c).
Proof. induction a; simpl; congruence. Qed.

Lemma slice_middle pre x post :
  Py.slice (pre +:+ x +:+ post) (Z.of_nat (String.length pre))
    (Z.of_nat (String.length pre + String.length x))
  = x.
Proof.
  unfold Py.slice, Py.clamp, Py.len. rewrite !append_length.
  destruct (Z.ltb_spec (Z.of_nat (String.length pre)) 0); [lia|].
  destruct (Z.ltb_spec (Z.of_nat (String.length pre + String.length x)) 0); [lia|].
  rewrite !Z.min_l by lia. rewrite Nat2Z.id, drop_app.
  replace (Z.to_nat _) with (String.length x) by lia.
  apply take_app.
Qed.

Lemma split_head s sep : nth 0 (Py.split s sep) "" = before sep s.
Proof. unfold Py.split, before. cbn [Py.split_fuel]. now destruct (Py.cut s sep) as [[b a]|]. Qed.

Lemma split_second s sep b a :
  Py.cut s sep = Some (b, a) -> sep <> "" -> nth 1 (Py.split s sep) "" = before sep a.
Proof.
  intros Hc Hsep. unfold Py.split, before.
  assert (Hlen : (1 <= String.length s)%nat).
  { unfold Py.cut in Hc. destruct (Py.find s sep) eqn:F; [|discriminate].
    apply find_bound in F. destruct sep; [contradiction | simpl in F; lia]. }
  destruct (String.length s) as [|n]; [lia|].
  cbn [Py.split_fuel]. rewrite Hc. cbn [nth].
  now destruct (Py.cut a sep) as [[b2 a2]|].
Qed.

Lemma drop_app_le j x y :
  (j <= String.length x)%nat -> Py.drop j (x +:+ y) = Py.drop j x +:+ y.
Proof.
  revert x. induction j as [|j IH]; intros x H; [reflexivity|].
  destruct x; simpl in *; [lia|]. apply IH. lia.
Qed.

Lemma cut_spec s sep b a :
  Py.cut s sep = Some (b, a) ->
  s = b +:+ sep +:+ a
  /\ forall j, (j < String.length b)%nat -> Py.startswith (Py.drop j s) sep = false.
Proof.
  unfold Py.cut. destruct (Py.find s sep) as [i|] eqn:F; [|discriminate].
  intros [= <- <-]. destruct (find_Some _ _ _ F) as [Hs Hfirst].
  split; [exact Hs|]. intros j Hj. apply Hfirst.
  pose proof (find_bound _ _ _ F). rewrite take_length in Hj; lia.
Qed.

Lemma cut_None s sep : Py.cut s sep = None <-> Py.contains s sep = false.
Proof. unfold Py.cut, Py.contains. destruct (Py.find s sep); split; congruence. Qed.

(** The piece before the first separator holds no separator. *)
Lemma before_clean sep s : sep <> "" -> Py.contains (before sep s) sep = false.
Proof.
  intros Hsep. unfold before.
  destruct (Py.cut s sep) as [[b a]|] eqn:Hc; [|now apply cut_None].
  destruct (cut_spec _ _ _ _ Hc) as [Hs Hfirst].
  destruct (Py.contains b sep) eqn:Hb; [|reflexivity].
  apply contains_spec in Hb as (pre & post & Hb).
  assert (Hj : (String.length pre < String.length b)%nat).
  { rewrite Hb, !append_length. destruct sep; [contradiction | simpl; lia]. }
  specialize (Hfirst _ Hj). rewrite Hs, Hb in Hfirst.
  rewrite !append_assoc, drop_app in Hfirst.
  rewrite startswith_app in Hfirst. discriminate.
Qed.

Lemma before_id sep s : Py.contains s sep = false -> before sep s = s.
Proof. intros H. unfold before. apply cut_None in H. now rewrite H. Qed.

(** The fuel of [split] is never exhausted. *)
Lemma split_fuel_enough sep :
  sep <> "" ->
  forall f1 f2 s,
    (String.length s < f1)%nat -> (String.length s < f2)%nat ->
    Py.split_fuel f1 s sep = Py.split_fuel f2 s sep.
Proof.
  intros Hsep f1. induction f1 as [|f1 IH]; intros f2 s H1 H2; [lia|].
  destruct f2 as [|f2]; [lia|]. cbn [Py.split_fuel].
  destruct (Py.cut s sep) as [[b a]|] eqn:Hc; [|reflexivity].
  f_equal. destruct (cut_spec _ _ _ _ Hc) as [Hs _].
  assert (String.length a < String.length s)%nat.
  { apply (f_equal String.length) in Hs. rewrite !append_length in Hs.
    destruct sep; [contradiction | simpl in Hs; lia]. }
  apply IH; lia.
Qed.

Lemma split_unfold s sep :
  sep <> "" ->
  Py.split s sep
  = match Py.cut s sep with
    | Some (b, a) => b :: Py.split a sep
    | None => [s]
    end.
Proof.
  intros Hsep. unfold Py.split.
  change (Py.split_fuel (S (String.length s)) s sep)
    with (match Py.cut s sep with
          | Some (b, a) => b :: Py.split_fuel (String.length s) a sep
          | None => [s]
          end).
  destruct (Py.cut s sep) as [[b a]|] eqn:Hc; [|reflexivity].
  f_equal. destruct (cut_spec _ _ _ _ Hc) as [Hs _].
  apply split_fuel_enough; [exact Hsep | | lia].
  apply (f_equal String.length) in Hs. rewrite !append_length in Hs.
  destruct sep; [contradiction | simpl in Hs; lia].
Qed.

End StrFacts.

(** ** The chunker *)

Module IngestFacts.
Import Py Ingest StrFacts.

Example chunk_id_negative_page : make_chunk_id (-5) 0 = "ng12_p-05_c0000".
Proof. reflexivity. Qed.

Example chunk_id_example : make_chunk_id 7 12 = "ng12_p007_c0012".
Proof. reflexivity. Qed.

Example chunk_id_wide : make_chunk_id 1234 (Z.to_nat 123456) = "ng12_p1234_c123456".
Proof. reflexivity. Qed.

Example parse_chunk_id_example : parse_chunk_id "ng12_p007_c0012" = Some (7, 12%nat).
Proof. reflexivity. Qed.

Example chunk_text_small :
  chunk_text 10 [mkPage 1 "abcdefghijkl"; mkPage 2 "   "; mkPage 3 "xy"] 2 1
  = Some [mkChunk "ng12_p001_c0000" 1 "abcdefgh";
          mkChunk "ng12_p001_c0001" 1 "efghijkl";
          mkChunk "ng12_p001_c0002" 1 "ijkl";
          mkChunk "ng12_p003_c0003" 3 "xy"].
Proof. reflexivity. Qed.

(** *** Arithmetic of the window count *)

Lemma ceil_div_step a s : 0 < s -> ceil_div (a - s) s = ceil_div a s - 1.
Proof.
  intros Hs. unfold ceil_div.
  replace (- (a - s)) with (- a + 1 * s) by lia.
  rewrite Z.div_add by lia. lia.
Qed.

Lemma ceil_div_pos a s : 0 < s -> 0 < a -> 1 <= ceil_div a s.
Proof.
  intros Hs Ha. unfold ceil_div.
  assert ((- a) / s < 0) by (apply Z.div_lt_upper_bound; lia). lia.
Qed.

Lemma ceil_div_nonpos a s : 0 < s -> a <= 0 -> ceil_div a s <= 0.
Proof.
  intros Hs Ha. unfold ceil_div.
  assert (0 <= (- a) / s) by (apply Z.div_pos; lia). lia.
Qed.

Lemma ceil_div_mono a b s : 0 < s -> a <= b -> ceil_div a s <= ceil_div b s.
Proof.
  intros Hs Hab. unfold ceil_div.
  assert ((- b) / s <= (- a) / s) by (apply Z.div_le_mono; lia). lia.
Qed.

(** *** One window *)

Lemma numbered_nil base : numbered base [].
Proof. intros i c H. destruct i; discriminate. Qed.

Lemma numbered_app base l1 l2 :
  numbered base l1 -> numbered (base + length l1) l2 -> numbered base (l1 ++ l2).
Proof.
  intros H1 H2 i c Hi.
  destruct (decide (i < length l1)%nat) as [Hlt|Hge].
  - rewrite lookup_app_l in Hi by exact Hlt. auto.
  - rewrite lookup_app_r in Hi by lia.
    apply H2 in Hi. rewrite Hi. f_equal. lia.
Qed.

Lemma window_step_spec pn txt csz start st :
  exists new,
    window_step pn txt csz start st
    = mkLoop (chunks st ++ new) (chunk_counter st + length new) (S (steps st))
    /\ (length new <= 1)%nat
    /\ Forall (fun c => page c = pn) new
    /\ numbered (chunk_counter st) new.
Proof.
  unfold window_step.
  destruct (Py.strip (Py.slice txt start (start + csz))) as [|a r].
  - exists []. rewrite app_nil_r, Nat.add_0_r. repeat split; auto using numbered_nil.
  - eexists [_]. simpl. rewrite Nat.add_1_r. repeat split; auto.
    intros [|i] c Hc; simpl in Hc; [|destruct i; discriminate].
    injection Hc as <-. simpl. now rewrite Nat.add_0_r.
Qed.

(** *** The inner loop *)

Lemma iterations_done L start s : 0 < s -> L <= start -> iterations L start s = O.
Proof.
  intros Hs Hle. unfold iterations.
  pose proof (ceil_div_nonpos (L - start) s Hs). lia.
Qed.

Lemma iterations_more L start s :
  0 < s -> start < L -> iterations L start s = S (iterations L (start + s) s).
Proof.
  intros Hs Hlt. unfold iterations.
  replace (L - (start + s)) with (L - start - s) by lia.
  rewrite ceil_div_step by exact Hs.
  pose proof (ceil_div_pos (L - start) s Hs). lia.
Qed.

Lemma page_loop_runs pn txt csz cov :
  0 < csz - cov ->
  forall fuel start st,
    (iterations (Py.len txt) start (csz - cov) <= fuel)%nat ->
    exists new,
      page_loop fuel pn txt csz cov start st
      = Some (mkLoop (chunks st ++ new) (chunk_counter st + length new)
                     (steps st + iterations (Py.len txt) start (csz - cov)))
      /\ Forall (fun c => page c = pn) new
      /\ numbered (chunk_counter st) new
      /\ (length new <= iterations (Py.len txt) start (csz - cov))%nat.
Proof.
  intros Hs fuel. induction fuel as [|fuel IH]; intros start st Hfuel.
  - simpl. destruct (Z.ltb_spec start (Py.len txt)) as [Hlt|Hge].
    + rewrite (iterations_more _ _ _ Hs Hlt) in Hfuel. lia.
    + rewrite (iterations_done _ _ _ Hs Hge).
      exists []. rewrite app_nil_r, !Nat.add_0_r. destruct st; simpl.
      repeat split; auto using numbered_nil.
  - simpl. destruct (Z.ltb_spec start (Py.len txt)) as [Hlt|Hge].
    + rewrite (iterations_more _ _ _ Hs Hlt) in *.
      destruct (window_step_spec pn txt csz start st) as (n1 & -> & Hlen & Hp1 & Hn1).
      destruct (IH (start + (csz - cov))
                   (mkLoop (chunks st ++ n1) (chunk_counter st + length n1) (S (steps st))))
        as (n2 & -> & Hp2 & Hn2 & Hl2); [lia|].
      exists (n1 ++ n2). simpl in *. rewrite length_app.
      repeat split.
      * f_equal. f_equal; [now rewrite app_assoc | lia | lia].
      * apply Forall_app; auto.
      * apply numbered_app; auto.
      * lia.
    + rewrite (iterations_done _ _ _ Hs Hge).
      exists []. rewrite app_nil_r, !Nat.add_0_r. destruct st; simpl.
      repeat split; auto using numbered_nil.
Qed.

(** With a step that is not positive the loop never leaves a non-empty
    text: no amount of fuel reaches the exit. *)
Lemma page_loop_stuck pn txt csz cov :
  csz - cov <= 0 -> 0 < Py.len txt ->
  forall fuel start st, start <= 0 ->
    page_loop fuel pn txt csz cov start st = None.
Proof.
  intros Hs Hlen fuel. induction fuel as [|fuel IH]; intros start st Hstart; simpl.
  - destruct (Z.ltb_spec start (Py.len txt)); [reflexivity | lia].
  - destruct (Z.ltb_spec start (Py.len txt)); [apply IH; lia | lia].
Qed.

Lemma span_digits_app d t :
  all_digits d = true -> stops t -> span_digits (d +:+ t) = (d, t).
Proof.
  intros Hd Ht. induction d as [|c d IH]; cbn [all_digits String.append span_digits] in *.
  - destruct t as [|c t]; [reflexivity|]. cbn [stops String.append span_digits] in *.
    now rewrite Ht.
  - apply andb_prop in Hd as [Hc Hd]. rewrite Hc.
    now rewrite (IH Hd).
Qed.

Lemma all_digits_app a b :
  all_digits a = true -> all_digits b = true -> all_digits (a +:+ b) = true.
Proof.
  intros Ha Hb. induction a as [|c a IH]; cbn [all_digits String.append] in *; [exact Hb|].
  apply andb_prop in Ha as [Hc Ha]. now rewrite Hc, IH.
Qed.

Lemma all_digits_zeros k : all_digits (Py.repeat_char "0" k) = true.
Proof. induction k; simpl; auto. Qed.

Lemma all_digits_uint d : all_digits (NilEmpty.string_of_uint d) = true.
Proof. induction d; simpl; auto. Qed.

Lemma all_digits_digits n : all_digits (Py.digits n) = true.
Proof. apply all_digits_uint. Qed.

Lemma to_uint_nonnil n : Nat.to_uint n <> Nil.
Proof.
  rewrite <- (Unsigned.of_to n) at 1. rewrite Unsigned.to_of.
  unfold unorm. destruct (nzhead (Nat.to_uint n)); discriminate.
Qed.

Lemma uint_of_zeros k d :
  NilEmpty.uint_of_string (Py.repeat_char "0" k +:+ NilEmpty.string_of_uint d)
  = Some (Nat.iter k D0 d).
Proof.
  induction k as [|k IH]; simpl.
  - apply NilEmpty.usu.
  - now rewrite IH.
Qed.

Lemma of_uint_zeros k d : Nat.of_uint (Nat.iter k D0 d) = Nat.of_uint d.
Proof. induction k as [|k IH]; simpl; auto. Qed.

Lemma read_nat_padded k n : read_nat (Py.repeat_char "0" k +:+ Py.digits n) = Some n.
Proof.
  unfold read_nat, Py.digits. rewrite uint_of_zeros. simpl.
  rewrite of_uint_zeros, Unsigned.of_to.
  destruct k; simpl; [|reflexivity].
  destruct (Nat.to_uint n) eqn:E; simpl; try reflexivity.
  now apply to_uint_nonnil in E.
Qed.

Lemma read_digits_padded k n t :
  stops t -> read_digits ((Py.repeat_char "0" k +:+ Py.digits n) +:+ t) = Some (n, t).
Proof.
  intros Ht. unfold read_digits.
  rewrite span_digits_app; auto using all_digits_app, all_digits_zeros, all_digits_digits.
  now rewrite read_nat_padded.
Qed.

Lemma digits_head n : exists c r, Py.digits n = String c r /\ Py.isdigit c = true.
Proof.
  pose proof (all_digits_digits n) as H. unfold Py.digits in *.
  destruct (Nat.to_uint n) eqn:E; [now apply to_uint_nonnil in E| ..];
    cbn [NilEmpty.string_of_uint] in *; eauto.
Qed.

Lemma padded_head k n :
  exists c r, Py.repeat_char "0" k +:+ Py.digits n = String c r /\ Py.isdigit c = true.
Proof.
  destruct k; simpl; eauto using digits_head.
Qed.

Lemma isdigit_not_minus c : Py.isdigit c = true -> Ascii.eqb c "-" = false.
Proof.
  intros H. destruct (Ascii.eqb_spec c "-") as [->|]; [discriminate H | reflexivity].
Qed.

Lemma read_int_format w z t :
  stops t -> read_int (Py.format_0d w z +:+ t) = Some (z, t).
Proof.
  intros Ht. unfold Py.format_0d.
  destruct (Z.ltb_spec z 0) as [Hneg|Hpos].
  - cbn [String.append read_int]. rewrite Ascii.eqb_refl.
    rewrite read_digits_padded by exact Ht. cbn. f_equal. f_equal. lia.
  - destruct (padded_head (w - String.length (Py.digits (Z.abs_nat z))) (Z.abs_nat z))
      as (c & r & E & Hc).
    pose proof (read_digits_padded (w - String.length (Py.digits (Z.abs_nat z)))
                  (Z.abs_nat z) t Ht) as Hr.
    rewrite E in *. cbn [String.append read_int] in *.
    rewrite (isdigit_not_minus c Hc), Hr. cbn. f_equal. f_equal. lia.
Qed.

Lemma strip_prefix_app p s : strip_prefix p (p +:+ s) = Some s.
Proof. unfold strip_prefix. now rewrite startswith_app, drop_app. Qed.

Lemma parse_make_chunk_id p c : parse_chunk_id (make_chunk_id p c) = Some (p, c).
Proof.
  unfold parse_chunk_id, make_chunk_id.
  rewrite strip_prefix_app.
  rewrite read_int_format by reflexivity.
  rewrite strip_prefix_app.
  rewrite <- (append_nil_r (Py.format_0d 4 (Z.of_nat c))).
  rewrite read_int_format by exact I.
  destruct (Z.ltb_spec (Z.of_nat c) 0); [lia|]. now rewrite Nat2Z.id.
Qed.

Lemma make_chunk_id_inj p c p' c' :
  make_chunk_id p c = make_chunk_id p' c' -> p = p' /\ c = c'.
Proof.
  intros H. apply (f_equal parse_chunk_id) in H.
  rewrite !parse_make_chunk_id in H. now injection H.
Qed.

(** *** The whole of [chunk_text] *)

Lemma iterations_le_len L s : 0 < s -> 0 <= L -> (iterations L 0 s <= Z.to_nat L)%nat.
Proof.
  intros Hs HL. unfold iterations, ceil_div. rewrite Z.sub_0_r.
  assert (- L <= (- L) / s) by (apply Z.div_le_lower_bound; nia). lia.
Qed.

Lemma pages_loop_runs chunk_size overlap :
  overlap < chunk_size ->
  forall pages fuel st,
    (enough_fuel pages <= fuel)%nat ->
    exists new st',
      pages_loop fuel pages chunk_size overlap st
      = Some (st', map (fun p => iterations (Py.len (page_text p)) 0
                                   (chunk_size * 4 - overlap * 4)) pages)
      /\ chunks st' = chunks st ++ new
      /\ chunk_counter st' = (chunk_counter st + length new)%nat
      /\ numbered (chunk_counter st) new
      /\ Forall (fun c => In (page c) (map page_num pages)) new.
Proof.
  intros Hlt pages. induction pages as [|p rest IH]; intros fuel st Hfuel.
  - exists [], st. simpl. rewrite app_nil_r, Nat.add_0_r.
    repeat split; auto using numbered_nil.
  - cbn [enough_fuel] in Hfuel. cbn [pages_loop map].
    destruct (page_loop_runs (page_num p) (page_text p) (chunk_size * 4) (overlap * 4)
                ltac:(lia) fuel 0 (mkLoop (chunks st) (chunk_counter st) 0))
      as (n1 & -> & Hp1 & Hn1 & _).
    { pose proof (iterations_le_len (Py.len (page_text p))
                    (chunk_size * 4 - overlap * 4) ltac:(lia) ltac:(unfold Py.len; lia)).
      unfold Py.len in *. lia. }
    cbn [chunks chunk_counter steps] in *.
    destruct (IH fuel (mkLoop (chunks st ++ n1) (chunk_counter st + length n1)
                         (0 + iterations (Py.len (page_text p)) 0
                                (chunk_size * 4 - overlap * 4))))
      as (n2 & st' & -> & Hc & Hk & Hn2 & Hp2); [lia|].
    cbn [chunks chunk_counter steps] in *.
    exists (n1 ++ n2), st'. rewrite length_app. repeat split.
    + now rewrite Hc, app_assoc.
    + lia.
    + apply numbered_app; auto.
    + apply Forall_app; split.
      * eapply Forall_impl; [exact Hp1|]. intros c ->. now left.
      * eapply Forall_impl; [exact Hp2|]. intros c Hc'. now right.
Qed.

Lemma pages_loop_stuck chunk_size overlap pages :
  chunk_size <= overlap ->
  Exists (fun p => page_text p <> EmptyString) pages ->
  forall fuel st, pages_loop fuel pages chunk_size overlap st = None.
Proof.
  intros Hge Hex. induction Hex as [p rest Hp | p rest Hex IH]; intros fuel st.
  - cbn [pages_loop]. rewrite page_loop_stuck; [reflexivity | lia | | lia].
    unfold Py.len. destruct (page_text p); [contradiction | simpl; lia].
  - cbn [pages_loop].
    destruct (page_loop _ _ _ _ _ _ _); [|reflexivity]. now rewrite IH.
Qed.

Lemma numbered_NoDup base l : numbered base l -> NoDup (map chunk_id l).
Proof.
  revert base. induction l as [|c r IH]; intros base Hn; simpl; constructor.
  - intros Hin. apply list_elem_of_In, in_map_iff in Hin as (c' & Hid & Hin).
    apply list_elem_of_In, list_elem_of_lookup_1 in Hin as [i Hi].
    pose proof (Hn O c eq_refl) as H0.
    pose proof (Hn (S i) c' Hi) as H1.
    rewrite H0, H1 in Hid. apply make_chunk_id_inj in Hid. lia.
  - apply (IH (S base)). intros i c' Hi.
    rewrite (Hn (S i) c' Hi). f_equal. lia.
Qed.

(** The count of the specification is within one of the real count when the
    overlap is at most one step. *)
Lemma ceil_div_shift L O s :
  0 < s -> 0 <= O <= s ->
  ceil_div L s - 1 <= ceil_div (L - O) s <= ceil_div L s.
Proof.
  intros Hs HO. split.
  - rewrite <- ceil_div_step by exact Hs. apply ceil_div_mono; lia.
  - apply ceil_div_mono; lia.
Qed.


(** More fuel never changes a result. *)
Lemma page_loop_fuel_mono pn txt csz cov f1 :
  forall f2 start st r,
    (f1 <= f2)%nat ->
    page_loop f1 pn txt csz cov start st = Some r ->
    page_loop f2 pn txt csz cov start st = Some r.
Proof.
  induction f1 as [|f1 IH]; intros f2 start st r Hle H;
    destruct f2 as [|f2]; simpl in *;
    destruct (start <? Py.len txt); try discriminate; try assumption; try lia.
  apply IH; [lia | exact H].
Qed.

Lemma pages_loop_fuel_mono chunk_size overlap f1 f2 :
  (f1 <= f2)%nat ->
  forall pages st r,
    pages_loop f1 pages chunk_size overlap st = Some r ->
    pages_loop f2 pages chunk_size overlap st = Some r.
Proof.
  intros Hle pages. induction pages as [|p rest IH]; intros st r H; simpl in *.
  - exact H.
  - destruct (page_loop f1 _ _ _ _ _ _) as [s1|] eqn:E1; [|discriminate].
    rewrite (page_loop_fuel_mono _ _ _ _ _ _ _ _ _ Hle E1).
    destruct (pages_loop f1 rest _ _ s1) as [[s2 tr]|] eqn:E2; [|discriminate].
    now rewrite (IH _ _ E2).
Qed.

Lemma window_count_nonneg L s : 0 < s -> 0 <= L -> 0 <= ceil_div L s.
Proof.
  intros Hs HL. destruct (Z.eq_dec L 0) as [->|Hne].
  - unfold ceil_div. simpl. rewrite Z.div_0_l; lia.
  - pose proof (ceil_div_pos L s Hs). lia.
Qed.

Lemma steps_within_one_small_overlap pages chunk_size overlap :
  overlap < chunk_size -> 0 <= overlap -> 2 * overlap <= chunk_size ->
  steps_within_one pages chunk_size overlap
    (map (fun p => Z.to_nat (ceil_div (Py.len (page_text p))
                               (chunk_size * 4 - overlap * 4))) pages).
Proof.
  intros Hlt H0 H2. unfold steps_within_one.
  induction pages as [|p rest IH]; cbn [map]; constructor; [|exact IH].
  pose proof (ceil_div_shift (Py.len (page_text p)) (overlap * 4)
                (chunk_size * 4 - overlap * 4) ltac:(lia) ltac:(lia)).
  pose proof (window_count_nonneg (Py.len (page_text p))
                (chunk_size * 4 - overlap * 4) ltac:(lia) ltac:(unfold Py.len; lia)).
  lia.
Qed.

(** *** Main properties of the chunker *)

(** Pages without text are chunked to nothing whatever the sizes. *)
Lemma page_loop_no_text fuel pn csz cov st :
  page_loop fuel pn EmptyString csz cov 0 st = Some st.
Proof. now destruct fuel. Qed.

Lemma chunk_text_no_text pages chunk_size overlap fuel :
  Forall (fun p => page_text p = EmptyString) pages ->
  chunk_text fuel pages chunk_size overlap = Some [].
Proof.
  intros H. unfold chunk_text, chunk_text_steps.
  assert (Hl : forall st, exists st' tr,
               pages_loop fuel pages chunk_size overlap st = Some (st', tr)
               /\ chunks st' = chunks st).
  { induction H as [|p rest Hp _ IH]; intros st; cbn [pages_loop].
    - now exists st, [].
    - rewrite Hp, page_loop_no_text.
      destruct (IH (mkLoop (chunks st) (chunk_counter st) 0)) as (st' & tr & -> & Hc).
      now eexists _, _. }
  destruct (Hl (mkLoop [] O O)) as (st' & tr & -> & Hc). cbn in *. now rewrite Hc.
Qed.

(** C3. An overlap at least as large as the chunk size is not rejected:
    [chunk_text] has no check of its configuration and raises no error.
    As soon as one page has text, the window never advances past it and
    the call never returns, whatever the fuel. *)
Theorem chunk_text_overlap_ge_size_never_returns
    (pages : list Page) (chunk_size overlap : Z) :
  chunk_size <= overlap ->
  Exists (fun p => page_text p <> EmptyString) pages ->
  forall fuel, chunk_text fuel pages chunk_size overlap = None.
Proof.
  intros Hge Hex fuel. unfold chunk_text, chunk_text_steps.
  now rewrite pages_loop_stuck.
Qed.

Lemma chunk_text_overlap_ge_size_never_returns_witness :
  1 <= 1 /\ Exists (fun p => page_text p <> EmptyString) [mkPage 1 "a"]
  /\ forall fuel, chunk_text fuel [mkPage 1 "a"] 1 1 = None.
Proof.
  assert (H : Exists (fun p => page_text p <> EmptyString) [mkPage 1 "a"])
    by (constructor; discriminate).
  split; [lia | split; [exact H |]].
  apply (chunk_text_overlap_ge_size_never_returns [mkPage 1 "a"] 1 1); [lia | exact H].
Defined.

(** C4, as the code has it. With an overlap below the chunk size,
    [chunk_text] returns, and returns the same chunks and step counts for
    every sufficient fuel, so chunking the same input twice gives the same
    ids and counts; the chunk ids are pairwise distinct; the chunk at
    index [i] has the id made of its page number and of the sequence
    number [i], and both can be read back from the id; a page of [L]
    characters takes exactly the ceiling of L / (C - O) window steps,
    which is within one of the ceiling of (L - O) / (C - O) when the
    overlap is not negative and at most half the chunk size. *)
Theorem chunk_text_windows (pages : list Page) (chunk_size overlap : Z) :
  overlap < chunk_size ->
  exists chunks trace,
    (forall fuel, (enough_fuel pages <= fuel)%nat ->
       chunk_text_steps fuel pages chunk_size overlap = Some (chunks, trace))
    /\ NoDup (map chunk_id chunks)
    /\ (forall (i : nat) (c : Chunk), chunks !! i = Some c ->
          In (page c) (map page_num pages)
          /\ chunk_id c = make_chunk_id (page c) i
          /\ parse_chunk_id (chunk_id c) = Some (page c, i))
    /\ trace = map (fun p => Z.to_nat (ceil_div (Py.len (page_text p))
                                         (chunk_size * 4 - overlap * 4))) pages
    /\ (0 <= overlap -> 2 * overlap <= chunk_size ->
        steps_within_one pages chunk_size overlap trace).
Proof.
  intros Hlt.
  destruct (pages_loop_runs chunk_size overlap Hlt pages (enough_fuel pages)
              (mkLoop [] O O) (le_n _)) as (new & st' & Hrun & Hc & _ & Hn & Hp).
  cbn [chunks chunk_counter app] in *.
  assert (Htr : map (fun p => iterations (Py.len (page_text p)) 0
                                (chunk_size * 4 - overlap * 4)) pages
                = map (fun p => Z.to_nat (ceil_div (Py.len (page_text p))
                                            (chunk_size * 4 - overlap * 4))) pages).
  { apply map_ext. intros p. unfold iterations. now rewrite Z.sub_0_r. }
  rewrite Htr in Hrun.
  eexists new, _. split; [|split; [|split; [|split; [reflexivity|]]]].
  - intros fuel Hfuel. unfold chunk_text_steps.
    rewrite (pages_loop_fuel_mono _ _ _ _ Hfuel _ _ _ Hrun). now rewrite Hc.
  - now apply (numbered_NoDup O).
  - intros i c Hi.
    assert (Hid : chunk_id c = make_chunk_id (page c) i) by (apply (Hn i c Hi)).
    split; [|split; [exact Hid|]].
    + apply list_elem_of_lookup_2 in Hi.
      rewrite Forall_forall in Hp. now apply Hp.
    + rewrite Hid. apply parse_make_chunk_id.
  - intros H0 H2. now apply steps_within_one_small_overlap.
Qed.

Lemma chunk_text_windows_witness :
  1 < 2 /\
  exists chunks trace,
    (forall fuel, (enough_fuel [mkPage 1 "abcdefghijkl"; mkPage 3 "xy"] <= fuel)%nat ->
       chunk_text_steps fuel [mkPage 1 "abcdefghijkl"; mkPage 3 "xy"] 2 1
       = Some (chunks, trace))
    /\ NoDup (map chunk_id chunks)
    /\ (forall (i : nat) (c : Chunk), chunks !! i = Some c ->
          In (page c) (map page_num [mkPage 1 "abcdefghijkl"; mkPage 3 "xy"])
          /\ chunk_id c = make_chunk_id (page c) i
          /\ parse_chunk_id (chunk_id c) = Some (page c, i))
    /\ trace = map (fun p => Z.to_nat (ceil_div (Py.len (page_text p)) (2 * 4 - 1 * 4)))
                   [mkPage 1 "abcdefghijkl"; mkPage 3 "xy"]
    /\ (0 <= 1 -> 2 * 1 <= 2 ->
        steps_within_one [mkPage 1 "abcdefghijkl"; mkPage 3 "xy"] 2 1 trace).
Proof.
  split; [lia|].
  apply (chunk_text_windows [mkPage 1 "abcdefghijkl"; mkPage 3 "xy"] 2 1). lia.
Defined.

(** The step-count clause fails as the specification words it: with a
    chunk of 40 characters and an overlap of 36, a page of 40 characters
    takes 10 window steps, and the ceiling of (40 - 36) / (40 - 36) is 1. *)
Lemma step_count_counterexample :
  9 < 10 /\
  exists chunks,
    chunk_text_steps 10 [mkPage 1 "0123456789012345678901234567890123456789"] 10 9
    = Some (chunks, [10%nat])
    /\ ceil_div (40 - 9 * 4) (10 * 4 - 9 * 4) = 1
    /\ ~ steps_within_one [mkPage 1 "0123456789012345678901234567890123456789"]
           10 9 [10%nat].
Proof.
  split; [lia|]. eexists. split; [vm_compute; reflexivity|].
  split; [reflexivity|].
  intros H. inversion H as [|? ? ? ? Hd _]; subst. vm_compute in Hd. now apply Hd.
Qed.

End IngestFacts.

(** ** The order of binary64 distances *)

Module FloatOrder.

Ltac cmp_cases :=
  repeat match goal with
  | |- context [Z.compare ?a ?b] => destruct (Z.compare_spec a b)
  | H : context [Z.compare ?a ?b] |- _ => destruct (Z.compare_spec a b)
  | |- context [Pos.compare ?a ?b] => destruct (Pos.compare_spec a b)
  | H : context [Pos.compare ?a ?b] |- _ => destruct (Pos.compare_spec a b)
  end.

Lemma SFltb_trans x y z : SFltb x y = true -> SFltb y z = true -> SFltb x z = true.
Proof.
  unfold SFltb, SFcompare.
  destruct x as [[]|[]| |[] mx ex], y as [[]|[]| |[] my ey], z as [[]|[]| |[] mz ez];
    try discriminate; try reflexivity;
    change (Pos.compare_cont Eq ?a ?b) with (Pos.compare a b);
    intros H1 H2; cmp_cases; simpl in *; try discriminate; try reflexivity; try lia.
Qed.

Lemma SFltb_cotrans x y z :
  y <> S754_nan -> SFltb x z = true -> SFltb x y = true \/ SFltb y z = true.
Proof.
  unfold SFltb, SFcompare.
  destruct x as [[]|[]| |[] mx ex], y as [[]|[]| |[] my ey], z as [[]|[]| |[] mz ez];
    try discriminate; try congruence; auto;
    change (Pos.compare_cont Eq ?a ?b) with (Pos.compare a b);
    intros _ H1; cmp_cases; simpl in *; try discriminate; auto; try lia.
Qed.

Lemma SFltb_irrefl x : SFltb x x = false.
Proof.
  unfold SFltb, SFcompare. destruct x as [[]|[]| |[] mx ex]; try reflexivity;
    change (Pos.compare_cont Eq ?a ?b) with (Pos.compare a b);
    rewrite Z.compare_refl, Pos.compare_refl; reflexivity.
Qed.

Lemma ltb_trans (x y z : float) :
  PrimFloat.ltb x y = true -> PrimFloat.ltb y z = true -> PrimFloat.ltb x z = true.
Proof. rewrite !FloatAxioms.ltb_spec. apply SFltb_trans. Qed.

Lemma ltb_irrefl (x : float) : PrimFloat.ltb x x = false.
Proof. rewrite FloatAxioms.ltb_spec. apply SFltb_irrefl. Qed.

Lemma not_nan_spec (y : float) : PrimFloat.is_nan y = false -> Prim2SF y <> S754_nan.
Proof.
  unfold PrimFloat.is_nan. rewrite FloatAxioms.eqb_spec. intros H E. rewrite E in H. discriminate H.
Qed.

Lemma ltb_cotrans (x y z : float) :
  PrimFloat.is_nan y = false ->
  PrimFloat.ltb x z = true -> PrimFloat.ltb x y = true \/ PrimFloat.ltb y z = true.
Proof. intros Hy. rewrite !FloatAxioms.ltb_spec. apply SFltb_cotrans, not_nan_spec, Hy. Qed.

End FloatOrder.

(** ** The evidence gate *)

Module GateFacts.
Import Models Chat FloatOrder.

(** [min_from] keeps an element of the sequence that no element of the
    sequence is strictly below. *)
Lemma min_from_spec rest :
  forall cur seen,
    In cur seen ->
    (forall y, In y seen -> PrimFloat.ltb y cur = false) ->
    In (min_from cur rest) (seen ++ rest)
    /\ forall y, In y (seen ++ rest) -> PrimFloat.ltb y (min_from cur rest) = false.
Proof.
  induction rest as [|x rest IH]; intros cur seen Hin Hlow; cbn [min_from].
  - rewrite app_nil_r. auto.
  - replace (seen ++ x :: rest) with ((seen ++ [x]) ++ rest)
      by (now rewrite <- app_assoc).
    destruct (PrimFloat.ltb x cur) eqn:Hx; apply IH.
    + apply in_or_app. right. now left.
    + intros y Hy. apply in_app_or in Hy as [Hy|[<-|[]]].
      * destruct (PrimFloat.ltb y x) eqn:Hyx; [|reflexivity].
        rewrite <- (Hlow y Hy). symmetry. now apply (ltb_trans y x cur).
      * apply ltb_irrefl.
    + apply in_or_app. now left.
    + intros y Hy. apply in_app_or in Hy as [Hy|[<-|[]]]; auto.
Qed.

Lemma py_min_spec l m :
  py_min l = Some m ->
  In m l /\ forall y, In y l -> PrimFloat.ltb y m = false.
Proof.
  destruct l as [|x rest]; [discriminate|]. intros [= <-].
  apply (min_from_spec rest x [x]).
  - now left.
  - intros y [<-|[]]. apply ltb_irrefl.
Qed.

(** When no distance is a NaN, the minimum is below the threshold exactly
    when some distance is. *)
Lemma py_min_below l m t :
  Forall (fun d => PrimFloat.is_nan d = false) l ->
  py_min l = Some m ->
  PrimFloat.ltb m t = true <-> exists d, In d l /\ PrimFloat.ltb d t = true.
Proof.
  intros Hnan Hm. destruct (py_min_spec l m Hm) as [Hin Hlow]. split.
  - intros H. now exists m.
  - intros (d & Hd & Hdt).
    rewrite Forall_forall in Hnan.
    destruct (ltb_cotrans d m t (Hnan m (proj2 (list_elem_of_In _ _) Hin)) Hdt) as [H|H];
      [|exact H].
    rewrite (Hlow d Hd) in H. discriminate H.
Qed.

Lemma has_good_evidence_some_below chunks :
  Forall (fun c => PrimFloat.is_nan (distance c) = false) chunks ->
  _has_good_evidence chunks = true
  <-> exists c, In c chunks /\ PrimFloat.ltb (distance c) SIMILARITY_THRESHOLD = true.
Proof.
  intros Hnan. destruct chunks as [|c0 rest].
  - split; [discriminate | intros (c & [] & _)].
  - unfold _has_good_evidence.
    destruct (py_min (map distance (c0 :: rest))) as [m|] eqn:Hm; [|discriminate Hm].
    assert (H1 : Forall (fun d => PrimFloat.is_nan d = false) (map distance (c0 :: rest)))
      by (apply Forall_map; exact Hnan).
    rewrite (py_min_below _ m SIMILARITY_THRESHOLD H1 Hm).
    split.
    + intros (d & Hd & Hlt). apply in_map_iff in Hd as (c & <- & Hc). now exists c.
    + intros (c & Hc & Hlt). exists (distance c). split; [now apply in_map | exact Hlt].
Qed.


End GateFacts.

(** ** The output parser *)

Module ParserFacts.
Import Models Chat StrFacts Examples.

Lemma fence_nonempty : FENCE <> "" /\ FENCE_JSON <> "".
Proof. split; discriminate. Qed.

Lemma fence_json_has_fence s : Py.contains s FENCE = false -> Py.contains s FENCE_JSON = false.
Proof.
  intros H. destruct (Py.contains s FENCE_JSON) eqn:E; [|reflexivity].
  apply contains_spec in E as (pre & post & ->).
  assert (Py.contains (pre +:+ FENCE_JSON +:+ post) FENCE = true); [|congruence].
  apply contains_spec. exists pre, ("json" +:+ post). reflexivity.
Qed.

Lemma fenced_cut text sep b a :
  sep <> "" -> Py.cut text sep = Some (b, a) ->
  fenced text sep = Py.before FENCE (Py.before sep a).
Proof.
  intros Hsep Hc. unfold fenced.
  now rewrite (split_second _ _ _ _ Hc Hsep), split_head.
Qed.

(** Stage 1: with a json fence, the candidate is the text after the first
    json fence, cut at the next json fence and then at the next fence. *)
Lemma candidate_fence_json raw_text b a :
  Py.cut raw_text FENCE_JSON = Some (b, a) ->
  candidate raw_text = Py.before FENCE (Py.before FENCE_JSON a).
Proof.
  intros Hc. unfold candidate.
  assert (Hin : Py.contains raw_text FENCE_JSON = true).
  { destruct (Py.contains raw_text FENCE_JSON) eqn:E; [reflexivity|].
    apply cut_None in E. congruence. }
  rewrite Hin. now apply fenced_cut with b.
Qed.

(** Stage 2: with a fence but no json fence, the candidate is the text
    between the first fence and the next one, or the end of the text. *)
Lemma candidate_fence raw_text b a :
  Py.contains raw_text FENCE_JSON = false ->
  Py.cut raw_text FENCE = Some (b, a) ->
  candidate raw_text = Py.before FENCE a.
Proof.
  intros Hj Hc. unfold candidate. rewrite Hj.
  assert (Hin : Py.contains raw_text FENCE = true).
  { destruct (Py.contains raw_text FENCE) eqn:E; [reflexivity|].
    apply cut_None in E. congruence. }
  rewrite Hin, (fenced_cut _ _ b a) by (try discriminate; exact Hc).
  apply before_id, before_clean. discriminate.
Qed.

(** Stage 3: without a fence the candidate is the whole text. *)
Lemma candidate_plain raw_text :
  Py.contains raw_text FENCE = false -> candidate raw_text = raw_text.
Proof.
  intros H. unfold candidate. now rewrite (fence_json_has_fence _ H), H.
Qed.

(** Stage 4: the span from the first opening to the last closing brace. *)
Lemma brace_span_spec pre mid post :
  Py.contains pre "{" = false ->
  Py.contains post "}" = false ->
  brace_span (pre +:+ "{" +:+ mid +:+ "}" +:+ post) = Some ("{" +:+ mid +:+ "}").
Proof.
  intros Hpre Hpost. unfold brace_span.
  change (pre +:+ "{" +:+ mid +:+ "}" +:+ post)
    with (pre +:+ String "{" (mid +:+ "}" +:+ post)) at 1.
  rewrite (find_char_app "{" pre _ Hpre).
  replace (pre +:+ "{" +:+ mid +:+ "}" +:+ post)
    with ((pre +:+ "{" +:+ mid) +:+ String "}" post) at 1
    by (now rewrite !append_assoc).
  rewrite (rfind_char_app "}" _ post Hpost).
  rewrite !append_length. cbn [String.length].
  destruct (Nat.ltb_spec (String.length pre)
              (String.length pre + (1 + String.length mid))); [|lia].
  f_equal.
  replace (pre +:+ "{" +:+ mid +:+ "}" +:+ post)
    with (pre +:+ ("{" +:+ mid +:+ "}") +:+ post)
    by (now rewrite !append_assoc).
  replace (Z.of_nat (String.length pre + (1 + String.length mid)) + 1)
    with (Z.of_nat (String.length pre + String.length ("{" +:+ mid +:+ "}")))
    by (rewrite !append_length; cbn [String.length]; lia).
  apply slice_middle.
Qed.

Lemma brace_span_no_open raw_text : Py.contains raw_text "{" = false -> brace_span raw_text = None.
Proof.
  unfold brace_span, Py.contains. now destruct (Py.find raw_text "{").
Qed.

Lemma brace_span_no_close raw_text : Py.contains raw_text "}" = false -> brace_span raw_text = None.
Proof.
  intros H. unfold brace_span. rewrite (rfind_char_None "}" _ H).
  now destruct (Py.find raw_text "{").
Qed.

Section Parser.

Variable json_loads : string -> option json.

(** The parser of chat.py tries the candidate of stages 1 to 3, trimmed,
    and on failure the brace span of the raw text; it fails when both do. *)
Lemma parse_json_stages raw_text :
  _parse_json json_loads raw_text
  = match json_loads (Py.strip (candidate raw_text)) with
    | Some v => Some v
    | None =>
        match brace_span raw_text with
        | Some s => json_loads s
        | None => None
        end
    end.
Proof.
  unfold _parse_json, brace_span.
  destruct (json_loads (Py.strip (candidate raw_text))); [reflexivity|].
  destruct (Py.find raw_text "{"), (Py.rfind raw_text "}"); try reflexivity.
  now destruct (_ <? _)%nat.
Qed.

(** The parser of agent.py stops after the candidate. *)
Lemma agent_parse_json_stages raw_text :
  Agent._parse_json json_loads raw_text = json_loads (Py.strip (candidate raw_text)).
Proof. reflexivity. Qed.

End Parser.

Example fenced_object :
  Py.strip (candidate ("```json " +:+ ex_object +:+ " ```")) = ex_object.
Proof. reflexivity. Qed.

Example fenced_object_plain :
  Py.strip (candidate ("Here you are:" +:+ NL +:+ "```" +:+ NL +:+ ex_object +:+ NL +:+ "```"))
  = ex_object.
Proof. reflexivity. Qed.

Example braces_in_prose :
  candidate ("blah blah " +:+ ex_object +:+ " trailing")
  = "blah blah " +:+ ex_object +:+ " trailing"
  /\ brace_span ("blah blah " +:+ ex_object +:+ " trailing") = Some ex_object.
Proof. split; reflexivity. Qed.

Example unbalanced_braces :
  brace_span ("{" +:+ DQ +:+ "a" +:+ DQ +:+ ":1") = None
  /\ brace_span "} then {" = None.
Proof. split; reflexivity. Qed.

End ParserFacts.

(** ** A chat turn *)

Module ChatFacts.
Import Models Chat ParserFacts Examples.

Lemma append_message_twice w sid m1 m2 :
  _sessions (append_message (append_message w sid m1) sid m2)
  = <[sid := history_of w sid ++ [m1; m2]]> (_sessions w).
Proof.
  unfold append_message, history_of. cbn [_sessions].
  rewrite lookup_insert_eq, insert_insert_eq. cbn [default id].
  now rewrite <- app_assoc.
Qed.

Lemma append_message_calls w sid m : llm_calls (append_message w sid m) = llm_calls w.
Proof. reflexivity. Qed.

Lemma history_of_append w sid m :
  history_of (append_message w sid m) sid = history_of w sid ++ [m].
Proof. unfold history_of, append_message. cbn [_sessions]. now rewrite lookup_insert_eq. Qed.

Lemma last_n_length {A} n (l : list A) : (length (last_n n l) <= n)%nat.
Proof. unfold last_n. rewrite length_skipn. lia. Qed.

Lemma last_n_suffix {A} n (l : list A) : firstn (length l - n) l ++ last_n n l = l.
Proof. unfold last_n. apply firstn_skipn. Qed.

Lemma caught_bind {A B} (r : result A) (k : A -> result B) :
  caught r = false -> (forall a, caught (k a) = false) -> caught (bind r k) = false.
Proof. destruct r as [a|e]; simpl; auto. Qed.

Lemma caught_get obj key default : caught (get obj key default) = false.
Proof. unfold get. destruct obj; try reflexivity. now destruct (assoc key items). Qed.

Lemma caught_iterate obj : caught (iterate obj) = false.
Proof. now destruct obj. Qed.

Lemma caught_validate_str v : caught (validate_str v) = false.
Proof. now destruct v. Qed.

Lemma caught_traverse {A B} (f : A -> result B) l :
  (forall a, caught (f a) = false) -> caught (traverse f l) = false.
Proof.
  intros Hf. induction l as [|a l IH]; cbn [traverse]; [reflexivity|].
  specialize (Hf a). destruct (f a) as [b|e]; [|exact Hf].
  destruct (traverse f l) as [bs|e]; [reflexivity | exact IH].
Qed.

Lemma caught_citation validate_int c : caught (citation_of_json validate_int c) = false.
Proof.
  unfold citation_of_json.
  repeat (apply caught_bind; [first [apply caught_get | apply caught_validate_str]|intros ?]).
  destruct (validate_int _); [|reflexivity].
  repeat (apply caught_bind; [apply caught_validate_str|intros ?]).
  reflexivity.
Qed.

Lemma caught_citations validate_int parsed :
  caught (citations_of_json validate_int parsed) = false.
Proof.
  unfold citations_of_json.
  apply caught_bind; [apply caught_get | intros cs].
  apply caught_bind; [apply caught_iterate | intros items].
  apply caught_traverse, caught_citation.
Qed.

Section Turn.

Variable SYSTEM_PROMPT : string.
Variable json_loads : string -> option json.
Variable validate_int : json -> option Z.
Variable format_3f : float -> string.
Variable query_guidelines_text : string -> Z -> result (list Retrieved).
Variable llm_invoke : list (string * string) -> result string.

Local Abbreviation chat :=
  (chat_with_guidelines SYSTEM_PROMPT json_loads validate_int format_3f
     query_guidelines_text llm_invoke).
Local Abbreviation prompt := (build_messages SYSTEM_PROMPT format_3f).
Local Abbreviation turn_prompt := (Chat.turn_prompt SYSTEM_PROMPT format_3f).
Local Abbreviation user_turn := (Chat.user_turn format_3f).
Local Abbreviation no_model_citations := (Chat.no_model_citations json_loads validate_int).
Local Abbreviation turn :=
  (Chat.turn SYSTEM_PROMPT json_loads validate_int format_3f
     query_guidelines_text llm_invoke).

Lemma reconcile_parsed_not_caught parsed raw_text chunks :
  caught (reconcile_parsed validate_int parsed raw_text chunks) = false.
Proof.
  unfold reconcile_parsed.
  apply caught_bind; [apply caught_get | intros answer].
  apply caught_bind; [apply caught_citations | intros citations].
  destruct answer; try reflexivity.
  destruct (_is_disclaimer s); [reflexivity|].
  destruct citations; [|reflexivity].
  now destruct (_has_good_evidence chunks).
Qed.


Lemma respond_answered w session_id message answer citations calls :
  respond (mkWorld (_sessions (append_message w session_id (mkChatMessage "user" message [])))
                   calls)
          session_id answer citations
  = (answered w session_id message answer citations calls,
     Ok (mkChatResponse session_id answer citations)).
Proof.
  unfold respond, answered. f_equal.
  pose proof (append_message_twice w session_id (mkChatMessage "user" message [])
                (mkChatMessage "assistant" answer citations)) as H.
  unfold append_message in *. cbn [_sessions llm_calls] in *. now rewrite H.
Qed.

Lemma reconcile_raw_fst raw_text chunks : fst (reconcile_raw raw_text chunks) = raw_text.
Proof. unfold reconcile_raw. now destruct (_is_disclaimer raw_text). Qed.

(** The function and the relation describe the same turns. *)
Lemma chat_turn w session_id message top_k w' resp :
  chat w session_id message top_k = (w', Ok resp)
  <-> turn w session_id message top_k w' resp.
Proof.
  unfold chat_with_guidelines. cbv zeta.
  pose proof (respond_answered w session_id message) as Hr.
  set (w1 := append_message w session_id (mkChatMessage "user" message [])) in *.
  assert (Hw1 : w1 = mkWorld (_sessions w1) (llm_calls w)) by reflexivity.
  assert (Hh : history_of w1 session_id
               = history_of w session_id ++ [mkChatMessage "user" message []])
    by apply history_of_append.
  rewrite Hh.
  assert (Hpr : forall chunks,
             prompt (history_of w session_id ++ [mkChatMessage "user" message []])
               chunks message
             = turn_prompt w session_id message chunks) by reflexivity.
  split.
  - destruct (_is_greeting message) eqn:Hg.
    { rewrite Hw1, Hr. intros [= <- <-]. now constructor. }
    destruct (query_guidelines_text message top_k) as [chunks|e] eqn:Hq; [|discriminate].
    destruct (_has_good_evidence chunks) eqn:He; cbn [negb].
    2:{ rewrite Hw1, Hr. intros [= <- <-]. now apply turn_low_evidence with chunks. }
    rewrite !Hpr.
    destruct (llm_invoke (turn_prompt w session_id message chunks)) as [raw|e] eqn:Hl;
      [|discriminate].
    destruct (_parse_json json_loads raw) as [parsed|] eqn:Hp.
    + pose proof (reconcile_parsed_not_caught parsed raw chunks) as Hc.
      destruct (reconcile_parsed validate_int parsed raw chunks) as [[a c]|e] eqn:Hrec.
      * rewrite Hr. intros [= <- <-]. now apply turn_parsed with raw parsed.
      * destruct e; cbn in Hc |- *; first [discriminate Hc | discriminate].
    + destruct (reconcile_raw raw chunks) as [a c] eqn:Hraw.
      rewrite Hr. intros [= <- <-].
      pose proof (reconcile_raw_fst raw chunks) as Ha. rewrite Hraw in Ha. cbn in Ha.
      subst a. replace c with (snd (reconcile_raw raw chunks)) by now rewrite Hraw.
      now apply turn_fallback.
  - intros Ht. destruct Ht as [Hg | chunks Hg Hq He | chunks raw parsed a c Hg Hq He Hl Hp Hrec
                              | chunks raw Hg Hq He Hl Hp]; rewrite Hg.
    + now rewrite Hw1, Hr.
    + rewrite Hq, He. cbn [negb]. now rewrite Hw1, Hr.
    + rewrite Hq, He. cbn [negb]. rewrite !Hpr, Hl, Hp, Hrec. now rewrite Hr.
    + rewrite Hq, He. cbn [negb]. rewrite !Hpr, Hl, Hp.
      pose proof (reconcile_raw_fst raw chunks) as Ha.
      destruct (reconcile_raw raw chunks) as [a c]. cbn in Ha. subst a. now rewrite Hr.
Qed.

(** *** The reconciler *)

Lemma citations_from_chunks_backfilled chunks limit :
  _citations_from_chunks chunks limit = map backfilled (firstn limit chunks).
Proof.
  unfold _citations_from_chunks. apply map_ext. intros c. unfold backfilled, Py.slice_to.
  rewrite Nat.ltb_antisym. now destruct (String.length (text c) <=? 200)%nat.
Qed.

Lemma reconcile_parsed_disclaimer parsed raw_text chunks answer citations :
  reconcile_parsed validate_int parsed raw_text chunks = Ok (answer, citations) ->
  _is_disclaimer answer = true -> citations = [].
Proof.
  unfold reconcile_parsed, bind.
  destruct (get parsed "answer" (JStr raw_text)) as [a|]; [|discriminate].
  destruct (citations_of_json validate_int parsed) as [cs|]; [|discriminate].
  destruct a; try discriminate.
  destruct (_is_disclaimer s) eqn:Hd.
  - now intros [= <- <-].
  - destruct cs; [destruct (_has_good_evidence chunks)|]; intros [= <- <-]; congruence.
Qed.

Lemma reconcile_parsed_backfill parsed raw_text chunks answer citations :
  reconcile_parsed validate_int parsed raw_text chunks = Ok (answer, citations) ->
  _is_disclaimer answer = false ->
  _has_good_evidence chunks = true ->
  citations_of_json validate_int parsed = Ok [] ->
  citations = _citations_from_chunks chunks 3.
Proof.
  unfold reconcile_parsed, bind. intros H Hd He Hc. rewrite Hc, He in H.
  destruct (get parsed "answer" (JStr raw_text)) as [a|]; [|discriminate].
  destruct a; try discriminate.
  destruct (_is_disclaimer s) eqn:Hs; injection H as <- <-; [congruence | reflexivity].
Qed.

Lemma reconcile_parsed_passthrough parsed raw_text chunks answer citations c cs :
  reconcile_parsed validate_int parsed raw_text chunks = Ok (answer, citations) ->
  _is_disclaimer answer = false ->
  citations_of_json validate_int parsed = Ok (c :: cs) ->
  citations = c :: cs.
Proof.
  unfold reconcile_parsed, bind. intros H Hd Hc. rewrite Hc in H.
  destruct (get parsed "answer" (JStr raw_text)) as [a|]; [|discriminate].
  destruct a; try discriminate.
  destruct (_is_disclaimer s) eqn:Hs; injection H as <- <-; [congruence | reflexivity].
Qed.

Lemma reconcile_raw_disclaimer raw_text chunks :
  _is_disclaimer raw_text = true -> snd (reconcile_raw raw_text chunks) = [].
Proof. unfold reconcile_raw. now intros ->. Qed.

Lemma reconcile_raw_backfill raw_text chunks :
  _is_disclaimer raw_text = false ->
  snd (reconcile_raw raw_text chunks) = _citations_from_chunks chunks 3.
Proof. unfold reconcile_raw. now intros ->. Qed.

(** A disclaimer is a text that has one of the phrases as a substring once
    it is put in lower case. *)
Lemma is_disclaimer_spec text :
  _is_disclaimer text = true
  <-> exists p pre post,
        In p DISCLAIMER_PHRASES /\ Py.lower text = pre +:+ p +:+ post.
Proof.
  unfold _is_disclaimer. rewrite existsb_exists. split.
  - intros (p & Hp & Hc). apply StrFacts.contains_spec in Hc as (pre & post & Hc). eauto.
  - intros (p & pre & post & Hp & Hc). exists p. split; [exact Hp|].
    apply StrFacts.contains_spec. eauto.
Qed.

(** In a chat turn a disclaimer never comes with citations. *)
Lemma chat_disclaimer_no_citations w session_id message top_k w' resp :
  chat w session_id message top_k = (w', Ok resp) ->
  _is_disclaimer (answer resp) = true ->
  resp_citations resp = [].
Proof.
  intros H. apply chat_turn in H.
  destruct H as [Hg | chunks Hg Hq He | chunks raw parsed a c Hg Hq He Hl Hp Hrec
                | chunks raw Hg Hq He Hl Hp]; cbn [answer resp_citations]; auto.
  - now apply reconcile_parsed_disclaimer with parsed raw chunks.
  - apply reconcile_raw_disclaimer.
Qed.

(** *** Main properties of a chat turn *)

Lemma turn_prompt_window w session_id message chunks :
  turn_prompt w session_id message chunks
  = [("system", SYSTEM_PROMPT)]
    ++ map (fun m => (role m, content m)) (last_n 20 (history_of w session_id))
    ++ [("user", user_turn chunks message)].
Proof.
  unfold turn_prompt, build_messages. now rewrite removelast_last.
Qed.

(** C2. A turn whose message is not a greeting and whose retrieved
    results are judged inadequate returns the fixed insufficient-evidence
    answer with no citation; the generative model is not invoked: the log
    of its calls is unchanged, and the outcome is the same whatever the
    model would have answered. *)
Theorem low_evidence_short_circuit w session_id message top_k chunks :
  _is_greeting message = false ->
  query_guidelines_text message top_k = Ok chunks ->
  _has_good_evidence chunks = false ->
  snd (chat w session_id message top_k)
  = Ok (mkChatResponse session_id LOW_EVIDENCE_ANSWER [])
  /\ llm_calls (fst (chat w session_id message top_k)) = llm_calls w
  /\ forall other_llm,
       chat_with_guidelines SYSTEM_PROMPT json_loads validate_int format_3f
         query_guidelines_text other_llm w session_id message top_k
       = chat w session_id message top_k.
Proof.
  intros Hg Hq He. unfold chat_with_guidelines.
  rewrite Hg, Hq, He. cbn [negb respond fst snd]. auto.
Qed.

(** C8. In a turn with adequate evidence whose answer is not a disclaimer
    and for which the model supplied no citation, the citations are made
    of the first min(3, n) of the n retrieved passages, in the order of
    retrieval, each with the passage text as excerpt when it has at most
    200 characters and its first 200 characters followed by "..."
    otherwise. *)
Theorem backfill_from_top_chunks w session_id message top_k w' resp chunks raw_text :
  chat w session_id message top_k = (w', Ok resp) ->
  _is_greeting message = false ->
  query_guidelines_text message top_k = Ok chunks ->
  _has_good_evidence chunks = true ->
  llm_invoke (turn_prompt w session_id message chunks) = Ok raw_text ->
  no_model_citations raw_text ->
  _is_disclaimer (answer resp) = false ->
  resp_citations resp = map backfilled (firstn 3 chunks)
  /\ length (resp_citations resp) = Nat.min 3 (length chunks)
  /\ forall (i : nat) (c : Retrieved),
       (i < 3)%nat -> chunks !! i = Some c ->
       resp_citations resp !! i = Some (backfilled c).
Proof.
  intros H Hg Hq He Hl Hnone Hd. apply chat_turn in H.
  assert (Hc : resp_citations resp = map backfilled (firstn 3 chunks)).
  { rewrite <- citations_from_chunks_backfilled. unfold no_model_citations in Hnone.
    destruct H as [Hg' | chunks' Hg' Hq' He' | chunks' raw parsed a c Hg' Hq' He' Hl' Hp Hrec
                  | chunks' raw Hg' Hq' He' Hl' Hp]; try congruence;
      rewrite Hq in Hq'; injection Hq' as <-; rewrite Hl in Hl'; injection Hl' as <-;
      cbn [answer resp_citations] in *.
    - rewrite Hp in Hnone. now apply reconcile_parsed_backfill with parsed raw_text a.
    - now apply reconcile_raw_backfill. }
  rewrite Hc. split; [reflexivity|]. split.
  - now rewrite length_map, length_firstn.
  - intros i c Hi Hlook. rewrite list_lookup_fmap, lookup_take_lt by exact Hi.
    now rewrite Hlook.
Qed.

(** C9. In a turn that reaches generation the model receives the system
    prompt, then the last 20 messages of the history as it was before the
    turn (all of them when there are fewer), then the user turn with the
    retrieved context; the message of the turn itself is not among the
    history messages. With 25 earlier messages these are the last 20. *)
Theorem prompt_history_window w session_id message top_k chunks :
  _is_greeting message = false ->
  query_guidelines_text message top_k = Ok chunks ->
  _has_good_evidence chunks = true ->
  let prior := history_of w session_id in
  let window := last_n 20 prior in
  llm_calls (fst (chat w session_id message top_k))
  = llm_calls w
    ++ [[("system", SYSTEM_PROMPT)]
        ++ map (fun m => (role m, content m)) window
        ++ [("user", user_turn chunks message)]]
  /\ (length window <= 20)%nat
  /\ firstn (length prior - 20) prior ++ window = prior
  /\ (length prior = 25%nat -> window = skipn 5 prior).
Proof.
  intros Hg Hq He prior window. subst window prior. split; [|split; [|split]].
  - rewrite <- turn_prompt_window.
    unfold chat_with_guidelines. cbv zeta. rewrite Hg, Hq, He. cbn [negb].
    rewrite history_of_append.
    change (prompt (history_of w session_id ++ [mkChatMessage "user" message []])
              chunks message) with (turn_prompt w session_id message chunks).
    destruct (llm_invoke (turn_prompt w session_id message chunks)) as [raw|e];
      [|reflexivity].
    destruct (_parse_json json_loads raw) as [parsed|].
    + destruct (reconcile_parsed validate_int parsed raw chunks) as [[a c]|[]];
        try reflexivity; now destruct (reconcile_raw raw chunks).
    + now destruct (reconcile_raw raw chunks).
  - apply last_n_length.
  - apply last_n_suffix.
  - intros H25. unfold last_n. now rewrite H25.
Qed.

(** C10. A call that returns has appended exactly two messages to the
    history of its session, the user message and then the assistant
    message with the returned answer and citations; the earlier messages
    of the session and the other sessions are as before. *)
Theorem chat_appends_two_messages w session_id message top_k w' resp :
  chat w session_id message top_k = (w', Ok resp) ->
  get_history w' session_id
  = get_history w session_id
    ++ [mkChatMessage "user" message [];
        mkChatMessage "assistant" (answer resp) (resp_citations resp)]
  /\ forall other, other <> session_id -> _sessions w' !! other = _sessions w !! other.
Proof.
  intros H. apply chat_turn in H.
  assert (Hs : _sessions w'
               = <[session_id := history_of w session_id
                                 ++ [mkChatMessage "user" message [];
                                     mkChatMessage "assistant" (answer resp)
                                       (resp_citations resp)]]> (_sessions w))
    by (destruct H; reflexivity).
  unfold get_history. rewrite Hs. split.
  - now rewrite lookup_insert_eq.
  - intros other Hne. now rewrite lookup_insert_ne.
Qed.

End Turn.


(** *** A concrete instance of the services, for the examples *)

Example greeting_examples :
  _is_greeting "hi" = true /\ _is_greeting "Hello!!" = true
  /\ _is_greeting "what's up" = true
  /\ _is_greeting "I have a cough for 3 weeks" = false.
Proof. repeat split; reflexivity. Qed.

Example evidence_examples :
  _has_good_evidence ex_good = true /\ _has_good_evidence ex_weak = false.
Proof. split; reflexivity. Qed.

Lemma low_evidence_short_circuit_witness :
  _is_greeting "vague discomfort" = false
  /\ ex_query ex_weak "vague discomfort" 5 = Ok ex_weak
  /\ _has_good_evidence ex_weak = false
  /\ snd (ex_chat ex_weak ex_world "s1" "vague discomfort" 5)
     = Ok (mkChatResponse "s1" LOW_EVIDENCE_ANSWER [])
  /\ llm_calls (fst (ex_chat ex_weak ex_world "s1" "vague discomfort" 5))
     = llm_calls ex_world
  /\ forall other_llm,
       chat_with_guidelines "system" ex_loads_answer ex_validate_int ex_format
         (ex_query ex_weak) other_llm ex_world "s1" "vague discomfort" 5
       = ex_chat ex_weak ex_world "s1" "vague discomfort" 5.
Proof.
  split; [reflexivity | split; [reflexivity | split; [reflexivity |]]].
  apply (low_evidence_short_circuit "system" ex_loads_answer ex_validate_int ex_format
           (ex_query ex_weak) ex_llm ex_world "s1" "vague discomfort" 5 ex_weak);
    reflexivity.
Defined.

Lemma ex_turn :
  ex_chat ex_good ex_world "s1" "breast lump" 5 = (ex_world_after, Ok ex_response).
Proof.
  apply chat_turn.
  apply (turn_parsed "system" ex_loads_answer ex_validate_int ex_format (ex_query ex_good) ex_llm
           ex_world "s1" "breast lump" 5 ex_good ex_raw
           (JDict [("answer", JStr ex_answer)]) ex_answer
           (map backfilled (firstn 3 ex_good))); reflexivity.
Qed.

Example ex_excerpts :
  map (fun c => String.length (excerpt c)) (resp_citations ex_response)
  = [203; 45; 48]%nat.
Proof. reflexivity. Qed.

Lemma backfill_from_top_chunks_witness :
  ex_chat ex_good ex_world "s1" "breast lump" 5 = (ex_world_after, Ok ex_response)
  /\ _is_greeting "breast lump" = false
  /\ ex_query ex_good "breast lump" 5 = Ok ex_good
  /\ _has_good_evidence ex_good = true
  /\ ex_llm (turn_prompt "system" ex_format ex_world "s1" "breast lump" ex_good) = Ok ex_raw
  /\ no_model_citations ex_loads_answer ex_validate_int ex_raw
  /\ _is_disclaimer (answer ex_response) = false
  /\ resp_citations ex_response = map backfilled (firstn 3 ex_good)
  /\ length (resp_citations ex_response) = Nat.min 3 (length ex_good)
  /\ forall (i : nat) (c : Retrieved),
       (i < 3)%nat -> ex_good !! i = Some c ->
       resp_citations ex_response !! i = Some (backfilled c).
Proof.
  assert (Hn : no_model_citations ex_loads_answer ex_validate_int ex_raw) by reflexivity.
  split; [exact ex_turn|].
  split; [reflexivity|]. split; [reflexivity|]. split; [reflexivity|].
  split; [reflexivity|]. split; [exact Hn|]. split; [reflexivity|].
  apply (backfill_from_top_chunks "system" ex_loads_answer ex_validate_int ex_format
           (ex_query ex_good) ex_llm ex_world "s1" "breast lump" 5
           ex_world_after ex_response ex_good ex_raw);
    first [exact ex_turn | exact Hn | reflexivity].
Defined.

Lemma prompt_history_window_witness :
  _is_greeting "breast lump" = false
  /\ ex_query ex_good "breast lump" 5 = Ok ex_good
  /\ _has_good_evidence ex_good = true
  /\ (let prior := history_of ex_world "s1" in
      let window := last_n 20 prior in
      llm_calls (fst (ex_chat ex_good ex_world "s1" "breast lump" 5))
      = llm_calls ex_world
        ++ [[("system", "system")]
            ++ map (fun m => (role m, content m)) window
            ++ [("user", user_turn ex_format ex_good "breast lump")]]
      /\ (length window <= 20)%nat
      /\ firstn (length prior - 20) prior ++ window = prior
      /\ (length prior = 25%nat -> window = skipn 5 prior)).
Proof.
  split; [reflexivity|]. split; [reflexivity|]. split; [reflexivity|].
  apply (prompt_history_window "system" ex_loads_answer ex_validate_int ex_format
           (ex_query ex_good) ex_llm ex_world "s1" "breast lump" 5 ex_good);
    reflexivity.
Defined.

Example ex_prior_count : length (history_of ex_world "s1") = 25%nat.
Proof. reflexivity. Qed.

Lemma chat_appends_two_messages_witness :
  ex_chat ex_good ex_world "s1" "breast lump" 5 = (ex_world_after, Ok ex_response)
  /\ get_history ex_world_after "s1"
     = get_history ex_world "s1"
       ++ [mkChatMessage "user" "breast lump" [];
           mkChatMessage "assistant" (answer ex_response) (resp_citations ex_response)]
  /\ forall other, other <> "s1" ->
       _sessions ex_world_after !! other = _sessions ex_world !! other.
Proof.
  split; [exact ex_turn|].
  apply (chat_appends_two_messages "system" ex_loads_answer ex_validate_int ex_format
           (ex_query ex_good) ex_llm ex_world "s1" "breast lump" 5
           ex_world_after ex_response).
  exact ex_turn.
Defined.

End ChatFacts.

(** ** The one-shot assessment *)

Module AgentFacts.
Import Models Agent StrFacts ParserFacts Examples.

Section Assess.

Variable json_loads : string -> option json.
Variable validate_int : json -> option Z.
Variable patients : gmap string PatientInfo.
Variable agent_invoke : string -> result string.

Local Abbreviation assess := (assess_patient json_loads validate_int patients agent_invoke).
Local Abbreviation parse := (Agent._parse_json json_loads).

Lemma assessment_parsed_not_caught patient_id final_text parsed p :
  patients !! patient_id = Some p ->
  caught (assessment_parsed validate_int patients patient_id final_text parsed)
  = false.
Proof.
  intros Hp. unfold assessment_parsed, get_patient. rewrite Hp. cbn [bind].
  apply ChatFacts.caught_bind; [apply ChatFacts.caught_citations | intros cs].
  repeat (apply ChatFacts.caught_bind;
          [first [apply ChatFacts.caught_get | apply ChatFacts.caught_validate_str]
          | intros ?]).
  reflexivity.
Qed.

(** A text that does not parse gives the error response, for a patient on
    file. *)
Lemma assess_parse_failure patient_id final_text p :
  agent_invoke patient_id = Ok final_text ->
  patients !! patient_id = Some p ->
  parse final_text = None ->
  assess patient_id
  = Ok (mkAssessResponse patient_id (name p) ASSESSMENT_ERROR
          ("Agent returned non-JSON response: " +:+ final_text) []).
Proof.
  intros Ha Hp Hn. unfold assess_patient. rewrite Ha. cbn [bind]. rewrite Hn.
  unfold assessment_error, get_patient. now rewrite Hp.
Qed.

(** A text that parses to an object is answered from the object. *)
Lemma assess_parse_success patient_id final_text parsed p rl asm cs :
  agent_invoke patient_id = Ok final_text ->
  patients !! patient_id = Some p ->
  parse final_text = Some parsed ->
  citations_of_json validate_int parsed = Ok cs ->
  get parsed "risk_level" (JStr "Unknown") = Ok (JStr rl) ->
  get parsed "assessment" (JStr final_text) = Ok (JStr asm) ->
  assess patient_id = Ok (mkAssessResponse patient_id (name p) rl asm cs).
Proof.
  intros Ha Hp Hs Hc Hr Hm. unfold assess_patient. rewrite Ha. cbn [bind]. rewrite Hs.
  unfold assessment_parsed, get_patient. rewrite Hp. cbn [bind].
  rewrite Hc. cbn [bind]. rewrite Hr. cbn [bind]. rewrite Hm. reflexivity.
Qed.

(** What a returned assessment is made of. *)
Lemma assess_returns patient_id r :
  assess patient_id = Ok r ->
  exists final_text p,
    agent_invoke patient_id = Ok final_text
    /\ patients !! patient_id = Some p
    /\ patient_id = Models.patient_id r
    /\ patient_name r = name p
    /\ match parse final_text with
       | None =>
           risk_level r = ASSESSMENT_ERROR
           /\ assessment r = "Agent returned non-JSON response: " +:+ final_text
           /\ assess_citations r = []
       | Some parsed =>
           citations_of_json validate_int parsed = Ok (assess_citations r)
           /\ get parsed "risk_level" (JStr "Unknown") = Ok (JStr (risk_level r))
           /\ get parsed "assessment" (JStr final_text) = Ok (JStr (assessment r))
       end.
Proof.
  unfold assess_patient. destruct (agent_invoke patient_id) as [final_text|e] eqn:Ha;
    [|discriminate]. cbn [bind].
  destruct (patients !! patient_id) as [p|] eqn:Hp.
  2:{ intros H. exfalso. unfold assessment_parsed, assessment_error, get_patient in H.
      rewrite Hp in H. cbn [bind] in H. destruct (parse final_text); discriminate. }
  intros H. exists final_text, p. split; [reflexivity|]. split; [reflexivity|].
  destruct (parse final_text) as [parsed|] eqn:Hs.
  - pose proof (assessment_parsed_not_caught patient_id final_text parsed p Hp) as Hc.
    destruct (assessment_parsed validate_int patients patient_id final_text parsed)
      as [r'|e] eqn:Hr.
    2:{ destruct e; cbn in Hc; first [discriminate Hc | discriminate H]. }
    injection H as ->.
    unfold assessment_parsed, get_patient in Hr. rewrite Hp in Hr. cbn [bind] in Hr.
    destruct (citations_of_json validate_int parsed) as [cs|]; [|discriminate].
    cbn [bind] in Hr.
    destruct (get parsed "risk_level" (JStr "Unknown")) as [rl|]; [|discriminate].
    cbn [bind] in Hr.
    destruct (get parsed "assessment" (JStr final_text)) as [asm|]; [|discriminate].
    cbn [bind] in Hr.
    destruct rl; try discriminate. destruct asm; try discriminate.
    cbn in Hr. injection Hr as <-. cbn. auto.
  - unfold assessment_error, get_patient in H. rewrite Hp in H. cbn [bind] in H.
    injection H as <-. cbn. auto.
Qed.

(** *** Main properties of the assessment *)

(** C5, in agent.py. On a text without fence that wraps an object in
    prose, the parser of chat.py reaches its brace stage and returns the
    object; the parser of agent.py has no such stage and fails, so the
    assessment of a patient on file degrades to the error response. *)
Theorem agent_parse_json_lacks_brace_stage pre mid post v :
  Py.contains pre "{" = false ->
  Py.contains post "}" = false ->
  Py.contains (pre +:+ "{" +:+ mid +:+ "}" +:+ post) Chat.FENCE = false ->
  json_loads (Py.strip (pre +:+ "{" +:+ mid +:+ "}" +:+ post)) = None ->
  json_loads ("{" +:+ mid +:+ "}") = Some v ->
  Chat._parse_json json_loads (pre +:+ "{" +:+ mid +:+ "}" +:+ post) = Some v
  /\ parse (pre +:+ "{" +:+ mid +:+ "}" +:+ post) = None
  /\ forall patient_id p,
       agent_invoke patient_id = Ok (pre +:+ "{" +:+ mid +:+ "}" +:+ post) ->
       patients !! patient_id = Some p ->
       assess patient_id
       = Ok (mkAssessResponse patient_id (name p) ASSESSMENT_ERROR
               ("Agent returned non-JSON response: "
                +:+ (pre +:+ "{" +:+ mid +:+ "}" +:+ post)) []).
Proof.
  intros Hpre Hpost Hf Hwhole Hobj.
  assert (Hagent : parse (pre +:+ "{" +:+ mid +:+ "}" +:+ post) = None).
  { unfold Agent._parse_json. now rewrite (candidate_plain _ Hf). }
  split; [|split; [exact Hagent|]].
  - rewrite parse_json_stages, (candidate_plain _ Hf), Hwhole.
    now rewrite (brace_span_spec pre mid post Hpre Hpost).
  - intros patient_id p Ha Hp. now apply assess_parse_failure.
Qed.

(** C6, as the code has it. When the final text does not parse, the
    assessment of a patient on file returns the error response: the risk
    level is the sentinel, the assessment is the raw text after a fixed
    prefix, and there is no citation. In every returned assessment the
    risk level is the sentinel, or the string the parsed object has under
    "risk_level", or "Unknown" when the object has no such key; it is not
    checked against the four levels. *)
Theorem assess_risk_level patient_id :
  (forall final_text p,
      agent_invoke patient_id = Ok final_text ->
      patients !! patient_id = Some p ->
      parse final_text = None ->
      assess patient_id
      = Ok (mkAssessResponse patient_id (name p) ASSESSMENT_ERROR
              ("Agent returned non-JSON response: " +:+ final_text) []))
  /\ (forall r,
        assess patient_id = Ok r ->
        exists final_text,
          agent_invoke patient_id = Ok final_text
          /\ match parse final_text with
             | None =>
                 risk_level r = ASSESSMENT_ERROR
                 /\ assessment r = "Agent returned non-JSON response: " +:+ final_text
                 /\ assess_citations r = []
             | Some (JDict items) =>
                 match assoc "risk_level" items with
                 | Some level => level = JStr (risk_level r)
                 | None => risk_level r = "Unknown"
                 end
             | Some _ => False
             end).
Proof.
  split.
  - intros final_text p. apply assess_parse_failure.
  - intros r Hr. destruct (assess_returns _ _ Hr) as (final_text & p & Ha & _ & _ & _ & H).
    exists final_text. split; [exact Ha|].
    destruct (parse final_text) as [parsed|]; [|exact H].
    destruct H as (_ & Hl & _). unfold get in Hl.
    destruct parsed; try discriminate Hl.
    destruct (assoc "risk_level" items); now injection Hl.
Qed.

(** C7, in agent.py. An assessment whose text is a disclaimer keeps the
    citations of the model: [assess_patient] has no disclaimer override. *)
Theorem assess_keeps_citations_of_disclaimer patient_id final_text parsed p rl asm c cs :
  agent_invoke patient_id = Ok final_text ->
  patients !! patient_id = Some p ->
  parse final_text = Some parsed ->
  citations_of_json validate_int parsed = Ok (c :: cs) ->
  get parsed "risk_level" (JStr "Unknown") = Ok (JStr rl) ->
  get parsed "assessment" (JStr final_text) = Ok (JStr asm) ->
  Chat._is_disclaimer asm = true ->
  exists r,
    assess patient_id = Ok r
    /\ Chat._is_disclaimer (assessment r) = true
    /\ assess_citations r = c :: cs.
Proof.
  intros Ha Hp Hs Hc Hr Hm Hd.
  exists (mkAssessResponse patient_id (name p) rl asm (c :: cs)).
  split; [now apply assess_parse_success with final_text parsed | now split].
Qed.

End Assess.


(** *** A concrete instance of the services, for the examples *)

Lemma agent_parse_json_lacks_brace_stage_witness :
  Py.contains "blah blah " "{" = false
  /\ Py.contains " trailing" "}" = false
  /\ Py.contains ex_prose Chat.FENCE = false
  /\ ex_loads_object (Py.strip ex_prose) = None
  /\ ex_loads_object ("{" +:+ (DQ +:+ "a" +:+ DQ +:+ ":1") +:+ "}") = Some (JDict [("a", JInt 1)])
  /\ Chat._parse_json ex_loads_object ex_prose = Some (JDict [("a", JInt 1)])
  /\ Agent._parse_json ex_loads_object ex_prose = None
  /\ forall patient_id p,
       (fun _ => Ok ex_prose) patient_id = Ok ex_prose ->
       ex_patients !! patient_id = Some p ->
       assess_patient ex_loads_object ex_validate_int ex_patients (fun _ => Ok ex_prose)
         patient_id
       = Ok (mkAssessResponse patient_id (name p) ASSESSMENT_ERROR
               ("Agent returned non-JSON response: " +:+ ex_prose) []).
Proof.
  split; [reflexivity|]. split; [reflexivity|]. split; [reflexivity|].
  split; [reflexivity|]. split; [reflexivity|].
  apply (agent_parse_json_lacks_brace_stage ex_loads_object ex_validate_int ex_patients
           (fun _ => Ok ex_prose) "blah blah " (DQ +:+ "a" +:+ DQ +:+ ":1") " trailing"
           (JDict [("a", JInt 1)])); reflexivity.
Defined.

(** The risk level of a returned assessment need not be one of the four
    levels or the sentinel: the model's own level is passed on. *)
Lemma risk_level_counterexample :
  exists r,
    assess_patient ex_loads_assessment ex_validate_int ex_patients (fun _ => Ok ex_text_high) "PT-101"
    = Ok r
    /\ risk_level r = "High"
    /\ ~ In (risk_level r) (ASSESSMENT_ERROR :: RISK_LEVELS).
Proof.
  eexists. split; [vm_compute; reflexivity|]. split; [reflexivity|].
  cbn. intros H. repeat destruct H as [H|H]; try discriminate H. exact H.
Qed.

Lemma assess_keeps_citations_of_disclaimer_witness :
  (fun _ : string => @Ok string ex_text_disclaimer) "PT-101" = Ok ex_text_disclaimer
  /\ ex_patients !! "PT-101"
     = Some (mkPatientInfo "PT-101" "John Doe" 55 "Male" "Current Smoker"
               ["unexplained hemoptysis"] 14)
  /\ Agent._parse_json ex_loads_assessment ex_text_disclaimer = Some ex_parsed_disclaimer
  /\ citations_of_json ex_validate_int ex_parsed_disclaimer
     = Ok [mkCitation "NG12 PDF" 12 "ng12_p012_c0040" "Refer people aged 40 and over."]
  /\ get ex_parsed_disclaimer "risk_level" (JStr "Unknown")
     = Ok (JStr "Low Risk - Routine Follow-up")
  /\ get ex_parsed_disclaimer "assessment" (JStr ex_text_disclaimer)
     = Ok (JStr "I could not find guidance in NG12 for this presentation.")
  /\ Chat._is_disclaimer "I could not find guidance in NG12 for this presentation." = true
  /\ exists r,
       assess_patient ex_loads_assessment ex_validate_int ex_patients (fun _ => Ok ex_text_disclaimer)
         "PT-101" = Ok r
       /\ Chat._is_disclaimer (assessment r) = true
       /\ assess_citations r
          = [mkCitation "NG12 PDF" 12 "ng12_p012_c0040" "Refer people aged 40 and over."].
Proof.
  split; [reflexivity|]. split; [reflexivity|]. split; [reflexivity|].
  split; [reflexivity|]. split; [reflexivity|]. split; [reflexivity|].
  split; [reflexivity|].
  apply (assess_keeps_citations_of_disclaimer ex_loads_assessment ex_validate_int ex_patients
           (fun _ => Ok ex_text_disclaimer) "PT-101" ex_text_disclaimer
           ex_parsed_disclaimer
           (mkPatientInfo "PT-101" "John Doe" 55 "Male" "Current Smoker"
              ["unexplained hemoptysis"] 14)
           "Low Risk - Routine Follow-up"
           "I could not find guidance in NG12 for this presentation."
           (mkCitation "NG12 PDF" 12 "ng12_p012_c0040" "Refer people aged 40 and over.")
           []); reflexivity.
Defined.

End AgentFacts.

(** * Further properties of the sources *)

(** ** Sessions and turns *)

Module SessionFacts.
Import Models Chat Sessions ChatFacts Examples Fixtures.

Lemma clear_session_lookup w session_id :
  _sessions (fst (clear_session w session_id)) !! session_id = None.
Proof.
  unfold clear_session. destruct (_sessions w !! session_id) eqn:E; cbn [fst _sessions].
  - apply lookup_delete_eq.
  - exact E.
Qed.

Lemma clear_session_deleted w session_id :
  snd (clear_session w session_id) = bool_decide (is_Some (_sessions w !! session_id)).
Proof.
  unfold clear_session. destruct (_sessions w !! session_id) eqn:E; cbn [snd].
  - symmetry. apply bool_decide_eq_true. eauto.
  - symmetry. apply bool_decide_eq_false. intros [x Hx]. discriminate.
Qed.

Section Turn.

Variable SYSTEM_PROMPT : string.
Variable json_loads : string -> option json.
Variable validate_int : json -> option Z.
Variable format_3f : float -> string.
Variable query_guidelines_text : string -> Z -> result (list Retrieved).
Variable llm_invoke : list (string * string) -> result string.

Local Abbreviation chat :=
  (chat_with_guidelines SYSTEM_PROMPT json_loads validate_int format_3f
     query_guidelines_text llm_invoke).
Local Abbreviation turn_prompt := (Chat.turn_prompt SYSTEM_PROMPT format_3f).

(** A greeting is answered with the canned response and no citation; the
    retrieval and the model are not consulted: the outcome is the same
    whatever they would have returned, and the log of model calls is
    unchanged. *)
Theorem greeting_short_circuit w session_id message top_k :
  _is_greeting message = true ->
  chat w session_id message top_k
  = (answered w session_id message GREETING_RESPONSE [] (llm_calls w),
     Ok (mkChatResponse session_id GREETING_RESPONSE []))
  /\ forall other_query other_llm,
       chat_with_guidelines SYSTEM_PROMPT json_loads validate_int format_3f
         other_query other_llm w session_id message top_k
       = chat w session_id message top_k.
Proof.
  intros Hg. split.
  - apply chat_turn. now constructor.
  - intros q l. unfold chat_with_guidelines. now rewrite Hg.
Qed.

(** When the retrieval fails, the call raises the same exception; the user
    message is already in the history and stays there without an answer,
    and the model is not called. *)
Theorem failed_retrieval_keeps_user_message w session_id message top_k e :
  _is_greeting message = false ->
  query_guidelines_text message top_k = Raise e ->
  snd (chat w session_id message top_k) = Raise e
  /\ get_history (fst (chat w session_id message top_k)) session_id
     = get_history w session_id ++ [mkChatMessage "user" message []]
  /\ llm_calls (fst (chat w session_id message top_k)) = llm_calls w.
Proof.
  intros Hg Hq. unfold chat_with_guidelines. rewrite Hg, Hq. cbn [fst snd].
  split; [reflexivity|]. split; [|reflexivity].
  apply history_of_append.
Qed.

(** When the model call fails, the call raises the same exception after
    the user message was appended: the history ends with a user message
    that has no answer. *)
Theorem failed_generation_keeps_user_message w session_id message top_k chunks e :
  _is_greeting message = false ->
  query_guidelines_text message top_k = Ok chunks ->
  _has_good_evidence chunks = true ->
  llm_invoke (turn_prompt w session_id message chunks) = Raise e ->
  snd (chat w session_id message top_k) = Raise e
  /\ get_history (fst (chat w session_id message top_k)) session_id
     = get_history w session_id ++ [mkChatMessage "user" message []].
Proof.
  intros Hg Hq He Hl. unfold chat_with_guidelines. cbv zeta.
  rewrite Hg, Hq, He. cbn [negb]. rewrite history_of_append.
  change (build_messages SYSTEM_PROMPT format_3f
            (history_of w session_id ++ [mkChatMessage "user" message []]) chunks message)
    with (turn_prompt w session_id message chunks).
  rewrite Hl. cbn [fst snd]. split; [reflexivity|].
  unfold get_history. cbn [_sessions]. apply history_of_append.
Qed.

(** The citations of the model are passed on as they are: when the answer
    is not a disclaimer and the model gave at least one citation, the
    response carries exactly the model's citations; they are not compared
    with the retrieved passages. *)
Theorem model_citations_passed_through w session_id message top_k w' resp
    chunks raw_text parsed c cs :
  chat w session_id message top_k = (w', Ok resp) ->
  _is_greeting message = false ->
  query_guidelines_text message top_k = Ok chunks ->
  llm_invoke (turn_prompt w session_id message chunks) = Ok raw_text ->
  _parse_json json_loads raw_text = Some parsed ->
  citations_of_json validate_int parsed = Ok (c :: cs) ->
  _is_disclaimer (answer resp) = false ->
  resp_citations resp = c :: cs.
Proof.
  intros H Hg Hq Hl Hp Hc Hd. apply chat_turn in H.
  destruct H as [Hg' | chunks' Hg' Hq' He' | chunks' raw parsed' a c' Hg' Hq' He' Hl' Hp' Hrec
                | chunks' raw Hg' Hq' He' Hl' Hp'].
  - congruence.
  - exfalso. cbn [answer] in Hd. discriminate Hd.
  - rewrite Hq in Hq'; injection Hq' as <-.
    rewrite Hl in Hl'; injection Hl' as <-. rewrite Hp in Hp'; injection Hp' as <-.
    cbn [answer resp_citations] in *.
    now apply (reconcile_parsed_passthrough validate_int parsed raw_text chunks a c' c cs).
  - rewrite Hq in Hq'; injection Hq' as <-.
    rewrite Hl in Hl'; injection Hl' as <-. congruence.
Qed.

(** A model text that parses to something other than an object is not
    taken to the raw-text fallback: the call raises [AttributeError], and
    the user message stays in the history without an answer. *)
Theorem non_object_answer_raises w session_id message top_k chunks raw_text parsed :
  _is_greeting message = false ->
  query_guidelines_text message top_k = Ok chunks ->
  _has_good_evidence chunks = true ->
  llm_invoke (turn_prompt w session_id message chunks) = Ok raw_text ->
  _parse_json json_loads raw_text = Some parsed ->
  (forall items, parsed <> JDict items) ->
  snd (chat w session_id message top_k) = Raise AttributeError
  /\ get_history (fst (chat w session_id message top_k)) session_id
     = get_history w session_id ++ [mkChatMessage "user" message []].
Proof.
  intros Hg Hq He Hl Hp Hn. unfold chat_with_guidelines. cbv zeta.
  rewrite Hg, Hq, He. cbn [negb]. rewrite history_of_append.
  change (build_messages SYSTEM_PROMPT format_3f
            (history_of w session_id ++ [mkChatMessage "user" message []]) chunks message)
    with (turn_prompt w session_id message chunks).
  rewrite Hl, Hp.
  assert (Hr : reconcile_parsed validate_int parsed raw_text chunks = Raise AttributeError).
  { unfold reconcile_parsed, get. destruct parsed; try reflexivity.
    now contradiction (Hn items). }
  rewrite Hr. cbn [fst snd]. split; [reflexivity|].
  unfold get_history. cbn [_sessions]. apply history_of_append.
Qed.

(** After [clear_session] the next turn that reaches generation sends the
    model no earlier message: the prompt is the system prompt and the user
    turn. *)
Theorem cleared_session_has_no_window w session_id message top_k chunks :
  _is_greeting message = false ->
  query_guidelines_text message top_k = Ok chunks ->
  _has_good_evidence chunks = true ->
  llm_calls (fst (chat (fst (clear_session w session_id)) session_id message top_k))
  = llm_calls w
    ++ [[("system", SYSTEM_PROMPT); ("user", user_turn format_3f chunks message)]].
Proof.
  intros Hg Hq He.
  assert (H : llm_calls (fst (chat (fst (clear_session w session_id)) session_id message top_k))
              = llm_calls (fst (clear_session w session_id))
                ++ [turn_prompt (fst (clear_session w session_id)) session_id message chunks]).
  { unfold chat_with_guidelines. cbv zeta. rewrite Hg, Hq, He. cbn [negb].
    rewrite history_of_append.
    change (build_messages SYSTEM_PROMPT format_3f
              (history_of (fst (clear_session w session_id)) session_id
               ++ [mkChatMessage "user" message []]) chunks message)
      with (turn_prompt (fst (clear_session w session_id)) session_id message chunks).
    destruct (llm_invoke _) as [raw|e]; [|reflexivity].
    destruct (_parse_json json_loads raw) as [parsed|].
    - destruct (reconcile_parsed validate_int parsed raw chunks) as [[a c]|[]];
        try reflexivity; now destruct (reconcile_raw raw chunks).
    - now destruct (reconcile_raw raw chunks). }
  rewrite H, (turn_prompt_window SYSTEM_PROMPT format_3f). clear H.
  assert (Hh : history_of (fst (clear_session w session_id)) session_id = []).
  { unfold clear_session, history_of.
    destruct (_sessions w !! session_id) eqn:E; cbn [fst _sessions].
    - now rewrite lookup_delete_eq.
    - now rewrite E. }
  assert (Hc : llm_calls (fst (clear_session w session_id)) = llm_calls w).
  { unfold clear_session. now destruct (_sessions w !! session_id). }
  now rewrite Hh, Hc.
Qed.

Lemma alternating_app h1 h2 : alternating h1 -> alternating h2 -> alternating (h1 ++ h2).
Proof.
  revert h1. fix IH 1. intros [|u [|a rest]]; cbn; try tauto.
  intros (Hu & Ha & Hr) H2. auto.
Qed.

Lemma alternating_even h : alternating h -> Nat.Even (length h).
Proof.
  revert h. fix IH 1. intros [|u [|a rest]]; cbn; try tauto.
  - intros _. now exists O.
  - intros (_ & _ & Hr). destruct (IH rest Hr) as [k Hk]. exists (S k). lia.
Qed.

(** A turn that returns keeps the history in user and assistant pairs. *)
Lemma returned_turn_keeps_pairs w session_id message top_k w' resp :
  chat w session_id message top_k = (w', Ok resp) ->
  alternating (get_history w session_id) ->
  alternating (get_history w' session_id)
  /\ length (get_history w' session_id) = (length (get_history w session_id) + 2)%nat.
Proof.
  intros H Ha. apply chat_turn in H.
  assert (Hh : get_history w' session_id
               = get_history w session_id
                 ++ [mkChatMessage "user" message [];
                     mkChatMessage "assistant" (answer resp) (resp_citations resp)]).
  { unfold get_history. destruct H; cbn [_sessions answered answer resp_citations];
      now rewrite lookup_insert_eq. }
  rewrite Hh. split.
  - apply alternating_app; [exact Ha | cbn; auto].
  - rewrite length_app. reflexivity.
Qed.

(** Whatever its outcome, a call stores the history with the user message
    appended; the assistant message follows exactly when the call returns. *)
Lemma chat_store w session_id message top_k :
  exists rest,
    _sessions (fst (chat w session_id message top_k))
    = <[session_id := history_of w session_id ++ mkChatMessage "user" message [] :: rest]>
        (_sessions w)
    /\ match snd (chat w session_id message top_k) with
       | Ok resp => rest = [mkChatMessage "assistant" (answer resp) (resp_citations resp)]
       | Raise _ => rest = []
       end.
Proof.
  destruct (chat w session_id message top_k) as [w' [resp|e]] eqn:H; cbn [fst snd].
  - eexists. split; [|reflexivity]. apply chat_turn in H. now destruct H.
  - exists []. split; [|reflexivity].
    revert H. unfold chat_with_guidelines, respond. cbv zeta.
    destruct (_is_greeting message); [discriminate|].
    destruct (query_guidelines_text message top_k) as [chunks|e'].
    2:{ now intros [= <- _]. }
    destruct (negb (_has_good_evidence chunks)); [discriminate|].
    destruct (llm_invoke _) as [raw|e'].
    2:{ now intros [= <- _]. }
    destruct (_parse_json json_loads raw) as [parsed|].
    + destruct (reconcile_parsed validate_int parsed raw chunks) as [[a c]|e'];
        [discriminate|].
      destruct e'; try (now intros [= <- _]);
        destruct (reconcile_raw raw chunks); discriminate.
    + destruct (reconcile_raw raw chunks); discriminate.
Qed.

Lemma chat_history_grows w session_id message top_k :
  (exists resp,
      snd (chat w session_id message top_k) = Ok resp
      /\ get_history (fst (chat w session_id message top_k)) session_id
         = get_history w session_id
           ++ [mkChatMessage "user" message [];
               mkChatMessage "assistant" (answer resp) (resp_citations resp)])
  \/ (exists e,
        snd (chat w session_id message top_k) = Raise e
        /\ get_history (fst (chat w session_id message top_k)) session_id
           = get_history w session_id ++ [mkChatMessage "user" message []]).
Proof.
  destruct (chat_store w session_id message top_k) as (rest & Hs & Hr).
  unfold get_history. rewrite Hs, lookup_insert_eq. cbn [default].
  destruct (snd (chat w session_id message top_k)) as [resp|e]; subst rest; eauto.
Qed.

(** A call that raises leaves the user message in the history without an
    answer: a history that was in user and assistant pairs no longer is. *)
Theorem raised_turn_leaves_unanswered_message w session_id message top_k w' e :
  chat w session_id message top_k = (w', Raise e) ->
  alternating (get_history w session_id) ->
  get_history w' session_id = get_history w session_id ++ [mkChatMessage "user" message []]
  /\ ~ alternating (get_history w' session_id).
Proof.
  intros H Ha.
  destruct (chat_history_grows w session_id message top_k) as [(resp & Hr & _)|(e' & _ & Hh)];
    rewrite H in *; cbn [fst snd] in *; [discriminate|].
  split; [exact Hh|]. intros Hb. apply alternating_even in Ha, Hb.
  rewrite Hh, length_app in Hb. cbn [length] in Hb.
  destruct Ha as [k Hk], Hb as [k' Hk']. lia.
Qed.

(** No call and no clearing leaves an empty history in the store. *)
Theorem sessions_stay_nonempty w session_id message top_k :
  sessions_nonempty w ->
  sessions_nonempty (fst (chat w session_id message top_k))
  /\ sessions_nonempty (fst (clear_session w session_id)).
Proof.
  intros Hw. split.
  - destruct (chat_store w session_id message top_k) as (rest & Hs & _).
    intros sid h' Hl. rewrite Hs in Hl.
    destruct (decide (session_id = sid)) as [->|Hne].
    + rewrite lookup_insert_eq in Hl. injection Hl as <-.
      now destruct (history_of w sid).
    + rewrite lookup_insert_ne in Hl by exact Hne. now apply (Hw sid).
  - unfold clear_session. destruct (_sessions w !! session_id) eqn:E; cbn [fst]; [|exact Hw].
    intros sid h' Hl. cbn [_sessions] in Hl.
    destruct (decide (session_id = sid)) as [->|Hne].
    + now rewrite lookup_delete_eq in Hl.
    + rewrite lookup_delete_ne in Hl by exact Hne. now apply (Hw sid).
Qed.

(** [clear_session] reports whether the session was stored; afterwards the
    session has no history, clearing it again reports [False], and the
    other sessions are as before. *)
Theorem clear_session_forgets w session_id :
  snd (clear_session w session_id) = bool_decide (is_Some (_sessions w !! session_id))
  /\ get_history (fst (clear_session w session_id)) session_id = []
  /\ snd (clear_session (fst (clear_session w session_id)) session_id) = false
  /\ forall other, other <> session_id ->
       get_history (fst (clear_session w session_id)) other = get_history w other.
Proof.
  pose proof (clear_session_lookup w session_id) as Hl.
  split; [|split; [|split]].
  - apply clear_session_deleted.
  - unfold get_history. now rewrite Hl.
  - unfold clear_session at 1. now rewrite Hl.
  - intros other Hne. unfold get_history, clear_session.
    destruct (_sessions w !! session_id) eqn:E; cbn [fst _sessions]; [|reflexivity].
    now rewrite lookup_delete_ne.
Qed.

End Turn.

Lemma greeting_short_circuit_witness :
  _is_greeting "Hello!" = true
  /\ fx_chat (ex_query ex_good) ex_llm fx_world "s1" "Hello!" 5
     = (answered fx_world "s1" "Hello!" GREETING_RESPONSE [] (llm_calls fx_world),
        Ok (mkChatResponse "s1" GREETING_RESPONSE []))
  /\ forall other_query other_llm,
       chat_with_guidelines "system" fx_loads ex_validate_int ex_format
         other_query other_llm fx_world "s1" "Hello!" 5
       = fx_chat (ex_query ex_good) ex_llm fx_world "s1" "Hello!" 5.
Proof.
  split; [reflexivity|].
  apply (greeting_short_circuit "system" fx_loads ex_validate_int ex_format
           (ex_query ex_good) ex_llm fx_world "s1" "Hello!" 5).
  reflexivity.
Defined.

Lemma failed_retrieval_keeps_user_message_witness :
  _is_greeting "breast lump" = false
  /\ fx_query_down "breast lump" 5 = Raise UpstreamError
  /\ snd (fx_chat fx_query_down ex_llm fx_world "s1" "breast lump" 5) = Raise UpstreamError
  /\ get_history (fst (fx_chat fx_query_down ex_llm fx_world "s1" "breast lump" 5)) "s1"
     = get_history fx_world "s1" ++ [mkChatMessage "user" "breast lump" []]
  /\ llm_calls (fst (fx_chat fx_query_down ex_llm fx_world "s1" "breast lump" 5))
     = llm_calls fx_world.
Proof.
  split; [reflexivity|]. split; [reflexivity|].
  apply (failed_retrieval_keeps_user_message "system" fx_loads ex_validate_int ex_format
           fx_query_down ex_llm fx_world "s1" "breast lump" 5 UpstreamError); reflexivity.
Defined.

Lemma failed_generation_keeps_user_message_witness :
  _is_greeting "breast lump" = false
  /\ ex_query ex_good "breast lump" 5 = Ok ex_good
  /\ _has_good_evidence ex_good = true
  /\ fx_llm_down (Chat.turn_prompt "system" ex_format fx_world "s1" "breast lump" ex_good)
     = Raise UpstreamError
  /\ snd (fx_chat (ex_query ex_good) fx_llm_down fx_world "s1" "breast lump" 5)
     = Raise UpstreamError
  /\ get_history (fst (fx_chat (ex_query ex_good) fx_llm_down fx_world "s1" "breast lump" 5))
       "s1"
     = get_history fx_world "s1" ++ [mkChatMessage "user" "breast lump" []].
Proof.
  split; [reflexivity|]. split; [reflexivity|]. split; [reflexivity|].
  split; [reflexivity|].
  apply (failed_generation_keeps_user_message "system" fx_loads ex_validate_int ex_format
           (ex_query ex_good) fx_llm_down fx_world "s1" "breast lump" 5 ex_good
           UpstreamError); reflexivity.
Defined.

(** The turn in which the model cites a passage of its own. *)
Lemma fx_turn_cited :
  fx_chat (ex_query ex_good) (fx_llm fx_text_cited) fx_world "s1" "breast lump" 5
  = (answered fx_world "s1" "breast lump" "Refer urgently." [fx_citation]
       (llm_calls fx_world
        ++ [Chat.turn_prompt "system" ex_format fx_world "s1" "breast lump" ex_good]),
     Ok (mkChatResponse "s1" "Refer urgently." [fx_citation])).
Proof.
  apply chat_turn.
  apply (turn_parsed "system" fx_loads ex_validate_int ex_format (ex_query ex_good)
           (fx_llm fx_text_cited) fx_world "s1" "breast lump" 5 ex_good fx_text_cited
           fx_parsed_cited "Refer urgently." [fx_citation]); reflexivity.
Qed.

(** The turn in which the model says that it found nothing and cites a
    passage all the same. *)
Lemma fx_turn_sorry :
  fx_chat (ex_query ex_good) (fx_llm fx_text_sorry) fx_world "s1" "breast lump" 5
  = (answered fx_world "s1" "breast lump" "I could not find this in the NG12 passages." []
       (llm_calls fx_world
        ++ [Chat.turn_prompt "system" ex_format fx_world "s1" "breast lump" ex_good]),
     Ok (mkChatResponse "s1" "I could not find this in the NG12 passages." [])).
Proof.
  apply chat_turn.
  apply (turn_parsed "system" fx_loads ex_validate_int ex_format (ex_query ex_good)
           (fx_llm fx_text_sorry) fx_world "s1" "breast lump" 5 ex_good fx_text_sorry
           fx_parsed_sorry "I could not find this in the NG12 passages." []); reflexivity.
Qed.

(** The turn in which the model is out of service. *)
Lemma fx_turn_down :
  fx_chat (ex_query ex_good) fx_llm_down fx_world "s1" "breast lump" 5
  = (mkWorld (_sessions (append_message fx_world "s1" (mkChatMessage "user" "breast lump" [])))
       (llm_calls fx_world
        ++ [Chat.turn_prompt "system" ex_format fx_world "s1" "breast lump" ex_good]),
     Raise UpstreamError).
Proof.
  unfold fx_chat, chat_with_guidelines. cbv zeta.
  change (_is_greeting "breast lump") with false. cbv iota.
  change (ex_query ex_good "breast lump" 5) with (@Ok (list Retrieved) ex_good). cbv iota.
  change (_has_good_evidence ex_good) with true. cbn [negb]. rewrite history_of_append.
  reflexivity.
Qed.

Lemma fx_world_alternating : alternating (get_history fx_world "s1").
Proof. vm_compute. auto. Qed.

Lemma model_citations_passed_through_witness :
  fx_chat (ex_query ex_good) (fx_llm fx_text_cited) fx_world "s1" "breast lump" 5
  = (answered fx_world "s1" "breast lump" "Refer urgently." [fx_citation]
       (llm_calls fx_world
        ++ [Chat.turn_prompt "system" ex_format fx_world "s1" "breast lump" ex_good]),
     Ok (mkChatResponse "s1" "Refer urgently." [fx_citation]))
  /\ _is_greeting "breast lump" = false
  /\ ex_query ex_good "breast lump" 5 = Ok ex_good
  /\ fx_llm fx_text_cited
       (Chat.turn_prompt "system" ex_format fx_world "s1" "breast lump" ex_good)
     = Ok fx_text_cited
  /\ _parse_json fx_loads fx_text_cited = Some fx_parsed_cited
  /\ citations_of_json ex_validate_int fx_parsed_cited = Ok [fx_citation]
  /\ _is_disclaimer "Refer urgently." = false
  /\ ~ In (cit_chunk_id fx_citation) (map chunk_id ex_good)
  /\ resp_citations (mkChatResponse "s1" "Refer urgently." [fx_citation]) = [fx_citation].
Proof.
  split; [exact fx_turn_cited|]. split; [reflexivity|]. split; [reflexivity|].
  split; [reflexivity|]. split; [reflexivity|]. split; [reflexivity|].
  split; [reflexivity|]. split.
  - cbn. intros [H|[H|[H|[H|[]]]]]; discriminate H.
  - apply (model_citations_passed_through "system" fx_loads ex_validate_int ex_format
             (ex_query ex_good) (fx_llm fx_text_cited) fx_world "s1" "breast lump" 5 _
             (mkChatResponse "s1" "Refer urgently." [fx_citation]) ex_good fx_text_cited
             fx_parsed_cited fx_citation [] fx_turn_cited); reflexivity.
Defined.

Lemma non_object_answer_raises_witness :
  _is_greeting "breast lump" = false
  /\ ex_query ex_good "breast lump" 5 = Ok ex_good
  /\ _has_good_evidence ex_good = true
  /\ fx_llm fx_text_list
       (Chat.turn_prompt "system" ex_format fx_world "s1" "breast lump" ex_good)
     = Ok fx_text_list
  /\ _parse_json fx_loads fx_text_list = Some (JList [JInt 1])
  /\ (forall items, JList [JInt 1] <> JDict items)
  /\ snd (fx_chat (ex_query ex_good) (fx_llm fx_text_list) fx_world "s1" "breast lump" 5)
     = Raise AttributeError
  /\ get_history
       (fst (fx_chat (ex_query ex_good) (fx_llm fx_text_list) fx_world "s1" "breast lump" 5))
       "s1"
     = get_history fx_world "s1" ++ [mkChatMessage "user" "breast lump" []].
Proof.
  split; [reflexivity|]. split; [reflexivity|]. split; [reflexivity|].
  split; [reflexivity|]. split; [reflexivity|]. split; [discriminate|].
  apply (non_object_answer_raises "system" fx_loads ex_validate_int ex_format
           (ex_query ex_good) (fx_llm fx_text_list) fx_world "s1" "breast lump" 5 ex_good
           fx_text_list (JList [JInt 1])); try reflexivity. discriminate.
Defined.

Lemma cleared_session_has_no_window_witness :
  _is_greeting "breast lump" = false
  /\ ex_query ex_good "breast lump" 5 = Ok ex_good
  /\ _has_good_evidence ex_good = true
  /\ llm_calls (fst (fx_chat (ex_query ex_good) (fx_llm fx_text_cited)
                       (fst (clear_session fx_world "s1")) "s1" "breast lump" 5))
     = llm_calls fx_world
       ++ [[("system", "system"); ("user", user_turn ex_format ex_good "breast lump")]].
Proof.
  split; [reflexivity|]. split; [reflexivity|]. split; [reflexivity|].
  apply (cleared_session_has_no_window "system" fx_loads ex_validate_int ex_format
           (ex_query ex_good) (fx_llm fx_text_cited) fx_world "s1" "breast lump" 5 ex_good);
    reflexivity.
Defined.

Lemma raised_turn_leaves_unanswered_message_witness :
  fx_chat (ex_query ex_good) fx_llm_down fx_world "s1" "breast lump" 5
  = (mkWorld (_sessions (append_message fx_world "s1" (mkChatMessage "user" "breast lump" [])))
       (llm_calls fx_world
        ++ [Chat.turn_prompt "system" ex_format fx_world "s1" "breast lump" ex_good]),
     Raise UpstreamError)
  /\ alternating (get_history fx_world "s1")
  /\ get_history
       (mkWorld (_sessions (append_message fx_world "s1"
                              (mkChatMessage "user" "breast lump" [])))
          (llm_calls fx_world
           ++ [Chat.turn_prompt "system" ex_format fx_world "s1" "breast lump" ex_good]))
       "s1"
     = get_history fx_world "s1" ++ [mkChatMessage "user" "breast lump" []]
  /\ ~ alternating
         (get_history
            (mkWorld (_sessions (append_message fx_world "s1"
                                   (mkChatMessage "user" "breast lump" [])))
               (llm_calls fx_world
                ++ [Chat.turn_prompt "system" ex_format fx_world "s1" "breast lump" ex_good]))
            "s1").
Proof.
  split; [exact fx_turn_down|]. split; [exact fx_world_alternating|].
  apply (raised_turn_leaves_unanswered_message "system" fx_loads ex_validate_int ex_format
           (ex_query ex_good) fx_llm_down fx_world "s1" "breast lump" 5 _ UpstreamError
           fx_turn_down fx_world_alternating).
Defined.

Lemma fx_world_nonempty : sessions_nonempty fx_world.
Proof.
  intros sid h H. unfold fx_world in H. cbn [_sessions] in H.
  apply lookup_singleton_Some in H as [_ <-]. discriminate.
Qed.

Lemma sessions_stay_nonempty_witness :
  sessions_nonempty fx_world
  /\ sessions_nonempty
       (fst (fx_chat (ex_query ex_good) fx_llm_down fx_world "s1" "breast lump" 5))
  /\ sessions_nonempty (fst (clear_session fx_world "s1")).
Proof.
  split; [exact fx_world_nonempty|].
  apply (sessions_stay_nonempty "system" fx_loads ex_validate_int ex_format
           (ex_query ex_good) fx_llm_down fx_world "s1" "breast lump" 5 fx_world_nonempty).
Defined.

Lemma chat_disclaimer_no_citations_witness :
  fx_chat (ex_query ex_good) (fx_llm fx_text_sorry) fx_world "s1" "breast lump" 5
  = (answered fx_world "s1" "breast lump" "I could not find this in the NG12 passages." []
       (llm_calls fx_world
        ++ [Chat.turn_prompt "system" ex_format fx_world "s1" "breast lump" ex_good]),
     Ok (mkChatResponse "s1" "I could not find this in the NG12 passages." []))
  /\ _is_disclaimer "I could not find this in the NG12 passages." = true
  /\ citations_of_json ex_validate_int fx_parsed_sorry = Ok [fx_citation]
  /\ resp_citations (mkChatResponse "s1" "I could not find this in the NG12 passages." [])
     = [].
Proof.
  split; [exact fx_turn_sorry|]. split; [reflexivity|]. split; [reflexivity|].
  apply (chat_disclaimer_no_citations "system" fx_loads ex_validate_int ex_format
           (ex_query ex_good) (fx_llm fx_text_sorry) fx_world "s1" "breast lump" 5 _ _
           fx_turn_sorry).
  reflexivity.
Defined.

End SessionFacts.

(** ** The endpoints *)

Module ApiFacts.
Import Models Chat Sessions ChatFacts.

Section Endpoints.

Variable SYSTEM_PROMPT : string.
Variable json_loads : string -> option json.
Variable validate_int : json -> option Z.
Variable format_3f : float -> string.
Variable query_guidelines_text : string -> Z -> result (list Retrieved).
Variable llm_invoke : list (string * string) -> result string.
Variable patients : gmap string PatientInfo.
Variable agent_invoke : string -> result string.
Variable exn_message : exn -> string.

Local Abbreviation api_chat :=
  (Api.chat SYSTEM_PROMPT json_loads validate_int format_3f query_guidelines_text
     llm_invoke exn_message).
Local Abbreviation api_assess :=
  (Api.assess json_loads validate_int patients agent_invoke exn_message).

Lemma api_chat_world w request :
  fst (api_chat w request)
  = fst (chat_with_guidelines SYSTEM_PROMPT json_loads validate_int format_3f
           query_guidelines_text llm_invoke w (Api.session_id request)
           (Api.message request) (Api.top_k request)).
Proof. unfold Api.chat. now destruct (chat_with_guidelines _ _ _ _ _ _ _ _ _ _). Qed.

(** [POST /assess] answers 404 for a patient that is not on file without
    running the agent, and never answers 404 for a patient on file: the
    status is then 200 or 500. *)
Theorem assess_not_found patient_id :
  (patients !! patient_id = None ->
   forall other_agent,
     Api.assess json_loads validate_int patients other_agent exn_message patient_id
     = Api.HTTPException 404 ("Patient " +:+ patient_id +:+ " not found"))
  /\ (is_Some (patients !! patient_id) ->
      Api.status (api_assess patient_id) = 200 \/ Api.status (api_assess patient_id) = 500).
Proof.
  split.
  - intros Hn agent. unfold Api.assess, Agent.get_patient. now rewrite Hn.
  - intros [p Hp]. unfold Api.assess, Agent.get_patient. rewrite Hp.
    destruct (Agent.assess_patient _ _ _ _ _); cbn; auto.
Qed.


(** After a chat call, [DELETE /chat/{id}] succeeds; then the history of
    the session is not found and deleting it again is not found either. *)
Theorem delete_after_chat w request :
  let sid := Api.session_id request in
  let w1 := fst (api_chat w request) in
  let w2 := fst (Api.delete_chat w1 sid) in
  snd (Api.delete_chat w1 sid) = Api.Success ("deleted", sid)
  /\ Api.status (Api.chat_history w2 sid) = 404
  /\ Api.status (snd (Api.delete_chat w2 sid)) = 404.
Proof.
  intros sid w1 w2.
  destruct (SessionFacts.chat_store SYSTEM_PROMPT json_loads validate_int format_3f
              query_guidelines_text llm_invoke w sid
              (Api.message request) (Api.top_k request)) as (rest & Hs & _).
  assert (H1 : is_Some (_sessions w1 !! sid)).
  { unfold w1. rewrite api_chat_world. fold sid. rewrite Hs, lookup_insert_eq. eauto. }
  pose proof (SessionFacts.clear_session_lookup w1 sid) as Hl.
  assert (Hdel : snd (clear_session w1 sid) = true).
  { rewrite SessionFacts.clear_session_deleted. now apply bool_decide_eq_true. }
  assert (Hd2 : snd (clear_session (fst (clear_session w1 sid)) sid) = false).
  { rewrite SessionFacts.clear_session_deleted. apply bool_decide_eq_false.
    rewrite Hl. intros [x Hx]. discriminate. }
  assert (Hw2 : w2 = fst (clear_session w1 sid)).
  { unfold w2, Api.delete_chat. destruct (clear_session w1 sid) as [w' []]; reflexivity. }
  split; [|split].
  - unfold Api.delete_chat. destruct (clear_session w1 sid) as [w' d].
    cbn [snd] in Hdel. now subst d.
  - unfold Api.chat_history, get_history. now rewrite Hw2, Hl.
  - unfold Api.delete_chat. rewrite Hw2.
    destruct (clear_session (fst (clear_session w1 sid)) sid) as [w' d].
    cbn [snd] in Hd2. now subst d.
Qed.

End Endpoints.

End ApiFacts.

(** ** The gate, the greeting detector and the back-fill *)

Module ClassifierFacts.
Import Models Chat Classifiers FloatOrder GateFacts StrFacts.

Lemma nan_spec (d : float) : PrimFloat.is_nan d = true -> Prim2SF d = S754_nan.
Proof.
  unfold PrimFloat.is_nan. rewrite FloatAxioms.eqb_spec.
  destruct (Prim2SF d) as [[]|[]| |[] m e]; try reflexivity;
    unfold SFeqb, SFcompare;
    change (Pos.compare_cont Eq ?a ?b) with (Pos.compare a b);
    rewrite ?Z.compare_refl, ?Pos.compare_refl; discriminate.
Qed.

Lemma ltb_nan_r (x d : float) : PrimFloat.is_nan d = true -> PrimFloat.ltb x d = false.
Proof.
  intros H. rewrite FloatAxioms.ltb_spec, (nan_spec d H).
  unfold SFltb, SFcompare. now destruct (Prim2SF x) as [[]|[]| |[] m e].
Qed.

Lemma ltb_nan_l (d y : float) : PrimFloat.is_nan d = true -> PrimFloat.ltb d y = false.
Proof.
  intros H. rewrite FloatAxioms.ltb_spec, (nan_spec d H). reflexivity.
Qed.

Lemma min_from_nan d rest : PrimFloat.is_nan d = true -> min_from d rest = d.
Proof.
  intros H. induction rest as [|x rest IH]; cbn [min_from]; [reflexivity|].
  now rewrite (ltb_nan_r x d H).
Qed.

(** A NaN at the head of the distances makes the gate reject, however
    close the other passages are. *)
Theorem nan_first_rejects c rest :
  PrimFloat.is_nan (distance c) = true ->
  _has_good_evidence (c :: rest) = false.
Proof.
  intros H. unfold _has_good_evidence, py_min. cbn [map].
  rewrite (min_from_nan _ _ H). now apply ltb_nan_l.
Qed.

(** The citations made of retrieved passages: there are as many as the
    limit allows, each names the page and the chunk id of its passage, and
    no excerpt is longer than 203 characters. *)
Lemma citations_from_chunks_bounds chunks limit :
  length (_citations_from_chunks chunks limit) = Nat.min limit (length chunks)
  /\ Forall (fun c => source c = "NG12 PDF" /\ (String.length (excerpt c) <= 203)%nat)
       (_citations_from_chunks chunks limit)
  /\ forall (i : nat) c,
       _citations_from_chunks chunks limit !! i = Some c ->
       exists r, chunks !! i = Some r /\ (i < limit)%nat
                 /\ cit_page c = page r /\ cit_chunk_id c = chunk_id r
                 /\ Py.take 200 (excerpt c) = Py.take 200 (text r).
Proof.
  unfold _citations_from_chunks. split; [|split].
  - now rewrite length_map, length_firstn.
  - apply Forall_map, Forall_forall. intros r _. cbn [source excerpt]. split; [reflexivity|].
    unfold Py.slice_to. destruct (Nat.ltb_spec 200 (String.length (text r))) as [Hl|Hl].
    + rewrite append_length, take_length by lia. cbn. lia.
    + lia.
  - intros i c Hi. rewrite list_lookup_fmap in Hi.
    destruct (firstn limit chunks !! i) as [r|] eqn:Hr; [|discriminate].
    injection Hi as <-. exists r.
    assert (Hlt : (i < limit)%nat).
    { apply lookup_lt_Some in Hr. rewrite length_firstn in Hr. lia. }
    rewrite lookup_take_lt in Hr by exact Hlt.
    repeat split; auto. cbn [excerpt]. unfold Py.slice_to.
    destruct (Nat.ltb_spec 200 (String.length (text r))) as [Hl|Hl]; [|reflexivity].
    rewrite <- (take_length 200 (text r)) at 1 by lia. apply take_app.
Qed.

Lemma is_greeting_cleaned text :
  _is_greeting text
  = Py.in_list (cleaned text) GREETING_EXACT
    || ((String.length (cleaned text) <? 60)%nat
        && existsb (fun w => Py.in_list w GREETING_WORDS) (Py.split_ws (cleaned text))).
Proof.
  unfold _is_greeting. fold (cleaned text).
  destruct (Py.in_list (cleaned text) GREETING_EXACT); [reflexivity|].
  now destruct (_ && _).
Qed.

(** Only short messages are greetings: once trimmed, put in lower case and
    stripped of final punctuation, a greeting has fewer than 60 characters. *)
Theorem greeting_is_short text :
  _is_greeting text = true -> (String.length (cleaned text) < 60)%nat.
Proof.
  rewrite is_greeting_cleaned. intros H. apply orb_prop in H as [H|H].
  - unfold Py.in_list in H. apply existsb_exists in H as (g & Hg & He).
    apply String.eqb_eq in He. rewrite He.
    unfold GREETING_EXACT in Hg. cbn [In] in Hg.
    repeat (destruct Hg as [<-|Hg]; [cbn; lia|]). contradiction.
  - apply andb_prop in H as [H _]. now apply Nat.ltb_lt.
Qed.

Lemma isspace_lower c : Py.isspace (Py.lower_char c) = Py.isspace c.
Proof. destruct c as [[] [] [] [] [] [] [] []]; reflexivity. Qed.

Lemma lower_char_idem c : Py.lower_char (Py.lower_char c) = Py.lower_char c.
Proof. destruct c as [[] [] [] [] [] [] [] []]; reflexivity. Qed.

Lemma lower_idem s : Py.lower (Py.lower s) = Py.lower s.
Proof. induction s as [|c s IH]; cbn [Py.lower]; [reflexivity|]. now rewrite lower_char_idem, IH. Qed.

Lemma lstrip_lower s :
  Py.lstrip_by Py.isspace (Py.lower s) = Py.lower (Py.lstrip_by Py.isspace s).
Proof.
  induction s as [|c s IH]; cbn [Py.lower Py.lstrip_by]; [reflexivity|].
  rewrite isspace_lower. now destruct (Py.isspace c).
Qed.

Lemma rstrip_lower s :
  Py.rstrip_by Py.isspace (Py.lower s) = Py.lower (Py.rstrip_by Py.isspace s).
Proof.
  induction s as [|c s IH]; cbn [Py.lower Py.rstrip_by]; [reflexivity|].
  rewrite IH, isspace_lower.
  destruct (Py.rstrip_by Py.isspace s); cbn [Py.lower]; [|reflexivity].
  now destruct (Py.isspace c).
Qed.

Lemma strip_lower s : Py.strip (Py.lower s) = Py.lower (Py.strip s).
Proof. unfold Py.strip. now rewrite lstrip_lower, rstrip_lower. Qed.

(** The greeting detector ignores case: two messages with the same lower
    case form are classified alike. *)
Theorem greeting_ignores_case text1 text2 :
  Py.lower text1 = Py.lower text2 -> _is_greeting text1 = _is_greeting text2.
Proof.
  intros H.
  assert (Hc : forall t, cleaned t = cleaned (Py.lower t)).
  { intros t. unfold cleaned. now rewrite strip_lower, lower_idem. }
  rewrite !is_greeting_cleaned, (Hc text1), (Hc text2), H. reflexivity.
Qed.

Lemma nan_first_rejects_witness :
  PrimFloat.is_nan (distance (Chat.mkRetrieved "ng12_p010_c0042" 10
                                "Offer advice on symptom control." PrimFloat.nan)) = true
  /\ _has_good_evidence Fixtures.fx_nan_first = false
  /\ _has_good_evidence (rev Fixtures.fx_nan_first) = true.
Proof.
  split; [reflexivity|]. split; [|reflexivity].
  apply (nan_first_rejects
           (Chat.mkRetrieved "ng12_p010_c0042" 10 "Offer advice on symptom control."
              PrimFloat.nan)
           [Chat.mkRetrieved "ng12_p024_c0090" 24 "Refer people on the pathway." 0.2%float]).
  reflexivity.
Defined.

Lemma greeting_is_short_witness :
  _is_greeting "  Hey there, how are you?  " = true
  /\ (String.length (cleaned "  Hey there, how are you?  ") < 60)%nat.
Proof.
  split; [reflexivity|]. apply (greeting_is_short "  Hey there, how are you?  "). reflexivity.
Defined.

Lemma greeting_ignores_case_witness :
  Py.lower "GOOD Morning" = Py.lower "good morning"
  /\ _is_greeting "GOOD Morning" = _is_greeting "good morning".
Proof.
  split; [reflexivity|]. apply (greeting_ignores_case "GOOD Morning" "good morning").
  reflexivity.
Defined.

End ClassifierFacts.

(** ** More on the output parser *)

Module ParserMore.
Import Models Chat Classifiers StrFacts ParserFacts.

Lemma sub_refl s : substring_of s s.
Proof. exists EmptyString, EmptyString. now rewrite append_nil_r. Qed.

Lemma sub_trans a b c : substring_of a b -> substring_of b c -> substring_of a c.
Proof.
  intros (p1 & q1 & ->) (p2 & q2 & ->). exists (p2 +:+ p1), (q1 +:+ q2).
  now rewrite !append_assoc.
Qed.

Lemma sub_prefix a t : substring_of a (a +:+ t).
Proof. now exists EmptyString, t. Qed.

Lemma sub_suffix p a : substring_of a (p +:+ a).
Proof. exists p, EmptyString. now rewrite append_nil_r. Qed.

Lemma sub_take n s : substring_of (Py.take n s) s.
Proof. rewrite <- (take_drop n s) at 2. apply sub_prefix. Qed.

Lemma sub_drop n s : substring_of (Py.drop n s) s.
Proof. rewrite <- (take_drop n s) at 2. apply sub_suffix. Qed.

Lemma sub_lstrip p s : substring_of (Py.lstrip_by p s) s.
Proof.
  induction s as [|c s IH]; cbn [Py.lstrip_by]; [apply sub_refl|].
  destruct (p c); [|apply sub_refl].
  apply (sub_trans _ s); [exact IH|]. apply (sub_suffix (String c EmptyString)).
Qed.

Lemma rstrip_prefix p s : exists t, s = Py.rstrip_by p s +:+ t.
Proof.
  induction s as [|c s [t IH]]; cbn [Py.rstrip_by]; [now exists EmptyString|].
  destruct (Py.rstrip_by p s) as [|d r'] eqn:E.
  - destruct (p c); [now exists (String c s) | now exists s].
  - exists t. rewrite IH at 1. reflexivity.
Qed.

Lemma sub_rstrip p s : substring_of (Py.rstrip_by p s) s.
Proof. destruct (rstrip_prefix p s) as [t Ht]. rewrite Ht at 2. apply sub_prefix. Qed.

Lemma sub_strip s : substring_of (Py.strip s) s.
Proof. unfold Py.strip. eapply sub_trans; [apply sub_rstrip | apply sub_lstrip]. Qed.

Lemma sub_before sep s : substring_of (Py.before sep s) s.
Proof.
  unfold Py.before. destruct (Py.cut s sep) as [[b a]|] eqn:Hc; [|apply sub_refl].
  apply cut_spec in Hc as [-> _]. apply sub_prefix.
Qed.

Lemma sub_fenced text sep :
  sep <> EmptyString -> Py.contains text sep = true -> substring_of (fenced text sep) text.
Proof.
  intros Hsep Hin. destruct (Py.cut text sep) as [[b a]|] eqn:Hc.
  - rewrite (fenced_cut _ _ _ _ Hsep Hc).
    apply (sub_trans _ (Py.before sep a)); [apply sub_before|].
    apply (sub_trans _ a); [apply sub_before|].
    apply cut_spec in Hc as [-> _]. rewrite <- append_assoc. apply sub_suffix.
  - apply cut_None in Hc. congruence.
Qed.

Lemma sub_candidate raw_text : substring_of (candidate raw_text) raw_text.
Proof.
  unfold candidate.
  destruct (Py.contains raw_text FENCE_JSON) eqn:Hj; [apply sub_fenced; [discriminate|exact Hj]|].
  destruct (Py.contains raw_text FENCE) eqn:Hf; [apply sub_fenced; [discriminate|exact Hf]|].
  apply sub_refl.
Qed.

Lemma sub_slice s lo hi : substring_of (Py.slice s lo hi) s.
Proof. unfold Py.slice. eapply sub_trans; [apply sub_take | apply sub_drop]. Qed.

(** The parser invents nothing: what it returns is what [json.loads] makes
    of a piece of the model text. *)
Theorem parse_json_reads_a_substring json_loads raw_text v :
  _parse_json json_loads raw_text = Some v ->
  exists sub, substring_of sub raw_text /\ json_loads sub = Some v.
Proof.
  unfold _parse_json.
  destruct (json_loads (Py.strip (candidate raw_text))) as [v'|] eqn:H1.
  - intros [= <-]. exists (Py.strip (candidate raw_text)). split; [|exact H1].
    eapply sub_trans; [apply sub_strip | apply sub_candidate].
  - destruct (Py.find raw_text "{"), (Py.rfind raw_text "}"); try discriminate.
    destruct (_ <? _)%nat; [|discriminate].
    intros H. eexists. split; [apply sub_slice | exact H].
Qed.

(** *** A fenced block *)

Lemma no_char_cons c a x :
  Py.contains (String a x) (String c EmptyString) = false ->
  Ascii.eqb c a = false /\ Py.contains x (String c EmptyString) = false.
Proof.
  unfold Py.contains. cbn [Py.find Py.startswith].
  destruct (Ascii.eqb c a); [destruct x; discriminate|].
  destruct (Py.find x (String c EmptyString)); [discriminate | auto].
Qed.

Lemma find_cons a s sub :
  Py.find (String a s) sub
  = if Py.startswith (String a s) sub then Some O else option_map S (Py.find s sub).
Proof. reflexivity. Qed.

Lemma find_app_head c sep x y :
  Py.contains x (String c EmptyString) = false ->
  Py.find (x +:+ String c sep +:+ y) (String c sep) = Some (String.length x).
Proof.
  induction x as [|a x IH]; intros H.
  - cbn [String.append String.length].
    pose proof (startswith_app (String c sep) y) as Hs.
    cbn [String.append] in Hs. destruct sep; cbn [Py.find]; now rewrite Hs.
  - apply no_char_cons in H as [Ha Hx].
    cbn [String.append String.length]. rewrite find_cons.
    cbn [Py.startswith]. rewrite Ha.
    pose proof (IH Hx) as E. cbn [String.append] in E. now rewrite E.
Qed.

Lemma before_app_head c sep x y :
  Py.contains x (String c EmptyString) = false ->
  Py.before (String c sep) (x +:+ String c sep +:+ y) = x.
Proof.
  intros H. unfold Py.before, Py.cut. rewrite (find_app_head c sep x y H).
  apply take_app.
Qed.

Lemma cut_app_head c sep x y :
  Py.contains x (String c EmptyString) = false ->
  Py.cut (x +:+ String c sep +:+ y) (String c sep) = Some (x, y).
Proof.
  intros H. unfold Py.cut. rewrite (find_app_head c sep x y H). f_equal. f_equal.
  - apply take_app.
  - rewrite <- drop_drop, drop_app. apply (drop_app (String c sep) y).
Qed.

Lemma no_char_no_sep c sep x :
  Py.contains x (String c EmptyString) = false -> Py.contains x (String c sep) = false.
Proof.
  intros H. destruct (Py.contains x (String c sep)) eqn:E; [|reflexivity].
  apply contains_spec in E as (pre & post & ->).
  assert (Py.contains (pre +:+ String c sep +:+ post) (String c EmptyString) = true);
    [|congruence].
  apply contains_spec. exists pre, (sep +:+ post). reflexivity.
Qed.

Lemma append_eq_append (a b c d : string) :
  a +:+ b = c +:+ d ->
  (exists u, a = c +:+ u /\ d = u +:+ b) \/ (exists u, c = a +:+ u /\ b = u +:+ d).
Proof.
  revert c. induction a as [|x a IH]; intros c H.
  - right. exists c. auto.
  - destruct c as [|y c].
    + left. exists (String x a). auto.
    + cbn [String.append] in H. injection H as -> H.
      destruct (IH c H) as [(u & -> & ->)|(u & -> & ->)]; [left|right]; exists u; auto.
Qed.

(** A json fence in a text that has no other backquote before the block or
    inside it: the candidate is the block. *)
Theorem fenced_json_block_extracted json_loads pre body post :
  Py.contains pre "`" = false ->
  Py.contains body "`" = false ->
  Py.startswith post "`" = false ->
  candidate (pre +:+ FENCE_JSON +:+ body +:+ FENCE +:+ post) = body
  /\ _parse_json json_loads (pre +:+ FENCE_JSON +:+ body +:+ FENCE +:+ post)
     = match json_loads (Py.strip body) with
       | Some v => Some v
       | None =>
           match brace_span (pre +:+ FENCE_JSON +:+ body +:+ FENCE +:+ post) with
           | Some s => json_loads s
           | None => None
           end
       end.
Proof.
  intros Hpre Hbody Hpost.
  assert (Hc : candidate (pre +:+ FENCE_JSON +:+ body +:+ FENCE +:+ post) = body).
  { rewrite (candidate_fence_json _ pre (body +:+ FENCE +:+ post))
      by (apply (cut_app_head "`" "``json"); exact Hpre).
    destruct (Py.cut (body +:+ FENCE +:+ post) FENCE_JSON) as [[x t]|] eqn:Hx.
    2:{ unfold Py.before at 2. rewrite Hx. apply (before_app_head "`" "``"), Hbody. }
    unfold Py.before at 2. rewrite Hx.
    apply cut_spec in Hx as [Hx _].
    destruct (append_eq_append _ _ _ _ Hx) as [(u & Hb & Hu)|(u & -> & Hu)].
    - (* [x] is a prefix of the block: it is the block *)
      destruct u as [|d u].
      + rewrite append_nil_r in Hb. subst x.
        apply before_id, (no_char_no_sep "`" "``"), Hbody.
      + exfalso. cbn in Hu. inversion Hu; subst.
        assert (Py.contains (x +:+ String "`" u) "`" = true); [|congruence].
        apply contains_spec. exists x, u. reflexivity.
    - (* the block is a prefix of [x] *)
      destruct u as [|d1 [|d2 [|d3 u]]].
      + rewrite append_nil_r. apply before_id, (no_char_no_sep "`" "``"), Hbody.
      + exfalso. cbn in Hu. inversion Hu; subst. cbn in Hpost. discriminate.
      + exfalso. cbn in Hu. inversion Hu; subst. cbn in Hpost. discriminate.
      + cbn in Hu. inversion Hu; subst.
        apply (before_app_head "`" "``" body u), Hbody. }
  split; [exact Hc|]. now rewrite parse_json_stages, Hc.
Qed.

Lemma parse_json_reads_a_substring_witness :
  _parse_json Examples.ex_loads_object Examples.ex_prose = Some (JDict [("a", JInt 1)])
  /\ exists sub,
       substring_of sub Examples.ex_prose
       /\ Examples.ex_loads_object sub = Some (JDict [("a", JInt 1)]).
Proof.
  split; [reflexivity|].
  apply (parse_json_reads_a_substring Examples.ex_loads_object Examples.ex_prose
           (JDict [("a", JInt 1)])).
  reflexivity.
Defined.

Lemma fenced_json_block_extracted_witness :
  Py.contains Fixtures.fx_fenced_pre "`" = false
  /\ Py.contains Examples.ex_object "`" = false
  /\ Py.startswith Fixtures.fx_fenced_post "`" = false
  /\ candidate (Fixtures.fx_fenced_pre +:+ FENCE_JSON +:+ Examples.ex_object +:+ FENCE
                +:+ Fixtures.fx_fenced_post)
     = Examples.ex_object
  /\ _parse_json Examples.ex_loads_object
       (Fixtures.fx_fenced_pre +:+ FENCE_JSON +:+ Examples.ex_object +:+ FENCE
        +:+ Fixtures.fx_fenced_post)
     = Some (JDict [("a", JInt 1)]).
Proof.
  split; [reflexivity|]. split; [reflexivity|]. split; [reflexivity|].
  apply (fenced_json_block_extracted Examples.ex_loads_object Fixtures.fx_fenced_pre
           Examples.ex_object Fixtures.fx_fenced_post); reflexivity.
Defined.

End ParserMore.

(** ** The prompt of a chat turn *)

Module PromptFacts.
Import Models Chat Classifiers StrFacts ParserMore.

Section Prompt.

Variable SYSTEM_PROMPT : string.
Variable format_3f : float -> string.

Lemma sub_app_l a b t : substring_of a b -> substring_of a (b +:+ t).
Proof. intros H. eapply sub_trans; [exact H | apply sub_prefix]. Qed.

Lemma sub_app_r a b p : substring_of a b -> substring_of a (p +:+ b).
Proof. intros H. eapply sub_trans; [exact H | apply sub_suffix]. Qed.

Lemma sub_join sep parts p : In p parts -> substring_of p (join sep parts).
Proof.
  induction parts as [|q rest IH]; [intros []|].
  intros [-> | Hin]; cbn [join]; destruct rest as [|r rest'].
  - apply sub_refl.
  - apply sub_prefix.
  - destruct Hin.
  - apply sub_app_r, sub_app_r, IH, Hin.
Qed.

(** The model is asked with everything that was retrieved: the prompt
    starts with the system prompt and ends with one user message that
    holds the question and, for every retrieved chunk, its id and its
    whole text. *)
Theorem prompt_holds_question_and_chunks history retrieved_chunks message :
  exists middle ctx,
    build_messages SYSTEM_PROMPT format_3f history retrieved_chunks message
    = ("system", SYSTEM_PROMPT) :: middle ++ [("user", ctx)]
    /\ substring_of message ctx
    /\ forall c, In c retrieved_chunks ->
         substring_of (chunk_id c) ctx /\ substring_of (text c) ctx.
Proof.
  unfold build_messages. cbn [app]. eexists _, _. split; [reflexivity|]. split.
  - do 7 apply sub_app_r. apply sub_refl.
  - intros c Hc.
    assert (Hpart : forall x, substring_of x
                      ("[Chunk " +:+ chunk_id c +:+ " | Page " +:+ Py.str_int (page c)
                       +:+ " | Distance " +:+ format_3f (distance c) +:+ "]" +:+ NL
                       +:+ text c) ->
                    substring_of x
                      (_format_context format_3f retrieved_chunks +:+ NL +:+ NL
                       +:+ "USER QUESTION:" +:+ NL +:+ message)).
    { intros x Hx. apply sub_app_l. eapply sub_trans; [exact Hx|].
      unfold _format_context. destruct retrieved_chunks as [|c0 rest]; [destruct Hc|].
      apply sub_join.
      apply (in_map (fun c => "[Chunk " +:+ chunk_id c +:+ " | Page " +:+ Py.str_int (page c)
                              +:+ " | Distance " +:+ format_3f (distance c) +:+ "]" +:+ NL
                              +:+ text c) _ c Hc). }
    split; apply sub_app_r, sub_app_r, Hpart.
    + apply sub_app_r, sub_prefix.
    + do 8 apply sub_app_r. apply sub_refl.
Qed.

End Prompt.

End PromptFacts.

(** ** The patient file and its listing *)

Module ToolsFacts.
Import Models Tools Api.

Lemma str_compare_trans s1 :
  forall s2 s3,
    String.compare s1 s2 <> Gt -> String.compare s2 s3 <> Gt ->
    String.compare s1 s3 <> Gt.
Proof.
  induction s1 as [|a s1 IH]; intros [|b s2] [|c s3]; cbn; try congruence.
  unfold Ascii.compare.
  destruct (N.compare_spec (N_of_ascii a) (N_of_ascii b)) as [Eab|Lab|Gab];
    destruct (N.compare_spec (N_of_ascii b) (N_of_ascii c)) as [Ebc|Lbc|Gbc];
    destruct (N.compare_spec (N_of_ascii a) (N_of_ascii c)) as [Eac|Lac|Gac];
    try congruence; try lia.
  apply IH.
Qed.

Lemma str_leb_spec a b : String.leb a b = true <-> String.compare a b <> Gt.
Proof. unfold String.leb. destruct (String.compare a b); split; congruence. Qed.

#[local] Instance str_le_trans : Transitive str_le.
Proof.
  intros a b c. unfold str_le. rewrite !str_leb_spec. apply str_compare_trans.
Qed.

#[local] Instance str_le_total : Total str_le.
Proof. intros a b. apply String.leb_total. Qed.

(** [GET /patients] lists the ids of the patient file in ascending
    order, each once, and these are exactly the ids for which
    [GET /patients/{patient_id}] answers 200 rather than 404. *)
Theorem listed_patients_are_found patients :
  StronglySorted str_le (list_patient_ids patients)
  /\ NoDup (list_patient_ids patients)
  /\ forall patient_id,
       In patient_id (list_patient_ids patients)
       <-> status (get_patient_detail patients patient_id) = 200.
Proof.
  unfold list_patient_ids. split; [|split].
  - apply StronglySorted_merge_sort; apply _.
  - rewrite merge_sort_Permutation. apply (NoDup_fst_map_to_list patients).
  - intros patient_id. rewrite <- list_elem_of_In, merge_sort_Permutation.
    change (map fst (map_to_list patients)) with ((map_to_list patients).*1).
    rewrite list_elem_of_fmap.
    unfold get_patient_detail, Agent.get_patient. split.
    + intros ([k p] & -> & Hkp). apply elem_of_map_to_list in Hkp. cbn.
      now rewrite Hkp.
    + destruct (patients !! patient_id) as [p|] eqn:E; cbn; [|discriminate].
      intros _. exists (patient_id, p). split; [reflexivity|].
      now apply elem_of_map_to_list.
Qed.

End ToolsFacts.

(** ** The box of a risk level *)

Module UiFacts.
Import Classifiers StrFacts ParserMore Ui.

(** The level "Non-Urgent Referral" of the agent's prompt, and any text
    that holds it, is shown in the error box of an urgent referral: the
    test for "Urgent Referral" comes first and matches inside it, so the
    branch for "Non-Urgent" is not reached. *)
Theorem non_urgent_referral_shown_as_error risk :
  substring_of "Non-Urgent Referral" risk -> risk_style risk = st_error.
Proof.
  intros H. unfold risk_style.
  assert (Hc : Py.contains risk "Urgent Referral" = true).
  { apply contains_spec. apply (sub_trans _ "Non-Urgent Referral"); [|exact H].
    exists "Non-", EmptyString. reflexivity. }
  now rewrite Hc.
Qed.

Lemma non_urgent_referral_shown_as_error_witness :
  substring_of "Non-Urgent Referral" "Non-Urgent Referral"
  /\ In "Non-Urgent Referral" Agent.RISK_LEVELS
  /\ risk_style "Non-Urgent Referral" = st_error.
Proof.
  assert (H : substring_of "Non-Urgent Referral" "Non-Urgent Referral")
    by (exists EmptyString, EmptyString; reflexivity).
  split; [exact H|]. split; [cbn; auto|].
  apply (non_urgent_referral_shown_as_error "Non-Urgent Referral" H).
Defined.

End UiFacts.

(** ** More on the assessment *)

Module AgentMore.
Import Models Agent.

Section Assess.

Variable json_loads : string -> option json.
Variable validate_int : json -> option Z.
Variable patients : gmap string PatientInfo.
Variable agent_invoke : string -> result string.
Variable exn_message : exn -> string.

Local Abbreviation assess := (assess_patient json_loads validate_int patients agent_invoke).

(** A final text that is valid JSON but not an object is not taken to the
    error response: [assess_patient] raises [AttributeError], and the
    endpoint answers 500. *)
Theorem assess_non_object_raises patient_id final_text parsed p :
  agent_invoke patient_id = Ok final_text ->
  patients !! patient_id = Some p ->
  Agent._parse_json json_loads final_text = Some parsed ->
  (forall items, parsed <> JDict items) ->
  assess patient_id = Raise AttributeError
  /\ Api.assess json_loads validate_int patients agent_invoke exn_message patient_id
     = Api.HTTPException 500 ("Assessment failed: " +:+ exn_message AttributeError).
Proof.
  intros Ha Hp Hs Hn.
  assert (H : assess patient_id = Raise AttributeError).
  { unfold assess_patient. rewrite Ha. cbn [bind]. rewrite Hs.
    unfold assessment_parsed, get_patient. rewrite Hp. cbn [bind].
    unfold citations_of_json, get. destruct parsed; try reflexivity.
    now contradiction (Hn items). }
  split; [exact H|]. unfold Api.assess, get_patient. now rewrite Hp, H.
Qed.

(** For a patient that is not on file [assess_patient] runs the agent
    first and then raises [KeyError], whatever the agent answered. *)
Theorem assess_unknown_patient_raises patient_id final_text :
  agent_invoke patient_id = Ok final_text ->
  patients !! patient_id = None ->
  assess patient_id = Raise KeyError.
Proof.
  intros Ha Hp. unfold assess_patient. rewrite Ha. cbn [bind].
  unfold assessment_parsed, assessment_error, get_patient. rewrite Hp. cbn [bind].
  now destruct (Agent._parse_json json_loads final_text).
Qed.

End Assess.

Lemma assess_non_object_raises_witness :
  (fun _ : string => @Ok string Fixtures.fx_text_list) "PT-101" = Ok Fixtures.fx_text_list
  /\ Examples.ex_patients !! "PT-101"
     = Some (mkPatientInfo "PT-101" "John Doe" 55 "Male" "Current Smoker"
               ["unexplained hemoptysis"] 14)
  /\ Agent._parse_json Fixtures.fx_loads Fixtures.fx_text_list = Some (JList [JInt 1])
  /\ (forall items, JList [JInt 1] <> JDict items)
  /\ assess_patient Fixtures.fx_loads Examples.ex_validate_int Examples.ex_patients
       (fun _ => Ok Fixtures.fx_text_list) "PT-101"
     = Raise AttributeError
  /\ Api.assess Fixtures.fx_loads Examples.ex_validate_int Examples.ex_patients
       (fun _ => Ok Fixtures.fx_text_list) (fun _ => "error") "PT-101"
     = Api.HTTPException 500 ("Assessment failed: " +:+ "error").
Proof.
  split; [reflexivity|]. split; [reflexivity|]. split; [reflexivity|].
  split; [discriminate|].
  apply (assess_non_object_raises Fixtures.fx_loads Examples.ex_validate_int
           Examples.ex_patients (fun _ => Ok Fixtures.fx_text_list) (fun _ => "error")
           "PT-101" Fixtures.fx_text_list (JList [JInt 1])
           (mkPatientInfo "PT-101" "John Doe" 55 "Male" "Current Smoker"
              ["unexplained hemoptysis"] 14)); try reflexivity.
  discriminate.
Defined.

Lemma assess_unknown_patient_raises_witness :
  (fun _ : string => @Ok string Examples.ex_text_high) "PT-999" = Ok Examples.ex_text_high
  /\ Examples.ex_patients !! "PT-999" = None
  /\ assess_patient Examples.ex_loads_assessment Examples.ex_validate_int
       Examples.ex_patients (fun _ => Ok Examples.ex_text_high) "PT-999"
     = Raise KeyError.
Proof.
  split; [reflexivity|]. split; [reflexivity|].
  apply (assess_unknown_patient_raises Examples.ex_loads_assessment
           Examples.ex_validate_int Examples.ex_patients
           (fun _ => Ok Examples.ex_text_high) "PT-999" Examples.ex_text_high);
    reflexivity.
Defined.

End AgentMore.

(** ** From the document to the chunks *)

Module IngestionFacts.
Import Models Ingest Ingestion Classifiers StrFacts IngestFacts ParserMore.

(** *** [extract_pages] *)

Lemma extract_from_spec doc :
  forall base p,
    In p (extract_from base doc)
    <-> exists i : nat,
          doc !! i = Some (page_text p)
          /\ page_num p = Z.of_nat (base + i) + 1
          /\ Py.strip (page_text p) <> EmptyString.
Proof.
  induction doc as [|t rest IH]; intros base p; cbn [extract_from].
  - split; [intros [] | intros (i & Hi & _); destruct i; discriminate].
  - assert (Hrest : In p (extract_from (S base) rest)
                    <-> exists i : nat, (t :: rest) !! S i = Some (page_text p)
                          /\ page_num p = Z.of_nat (base + S i) + 1
                          /\ Py.strip (page_text p) <> EmptyString).
    { rewrite IH. split; intros (i & Hi & Hn & Hs); exists i; (split; [exact Hi|]);
        (split; [|exact Hs]); rewrite Hn; f_equal; lia. }
    destruct (Py.strip t) as [|c r] eqn:Ht.
    + rewrite Hrest. split.
      * intros (i & H); eauto.
      * intros ([|i] & Hi & Hn & Hs); [|eauto].
        cbn in Hi. injection Hi as Hi. rewrite <- Hi in Hs. contradiction.
    + cbn [In]. rewrite Hrest. split.
      * intros [<-|(i & H)]; [|eauto]. exists O. cbn [page_text page_num].
        split; [reflexivity|]. split; [lia | rewrite Ht; discriminate].
      * intros ([|i] & Hi & Hn & Hs); [left|right; eauto].
        cbn in Hi. injection Hi as Hi. destruct p as [pn pt]. cbn in *. subst.
        f_equal. lia.
Qed.

Lemma extract_from_sorted doc :
  forall base,
    StronglySorted (fun p q => page_num p < page_num q) (extract_from base doc).
Proof.
  induction doc as [|t rest IH]; intros base; cbn [extract_from]; [constructor|].
  destruct (Py.strip t) as [|c r]; [apply IH|].
  constructor; [apply IH|]. apply Forall_forall. intros q Hq.
  apply list_elem_of_In, extract_from_spec in Hq as (i & _ & Hn & _).
  cbn [page_num]. lia.
Qed.

(** [extract_pages] keeps exactly the pages with text, each with its text
    and its number counted from 1, in increasing order of page number. *)
Theorem extract_pages_numbers doc :
  (forall p, In p (extract_pages doc)
             <-> exists i : nat, doc !! i = Some (page_text p)
                   /\ page_num p = Z.of_nat i + 1
                   /\ Py.strip (page_text p) <> EmptyString)
  /\ StronglySorted (fun p q => page_num p < page_num q) (extract_pages doc)
  /\ Forall (fun p => 1 <= page_num p <= Z.of_nat (length doc)) (extract_pages doc).
Proof.
  split; [|split].
  - intros p. unfold extract_pages. now rewrite extract_from_spec.
  - apply extract_from_sorted.
  - apply Forall_forall. intros p Hp.
    apply list_elem_of_In, extract_from_spec in Hp as (i & Hi & Hn & _).
    apply lookup_lt_Some in Hi. lia.
Qed.

(** *** What [strip] leaves *)

Lemma lstrip_head p s c r : Py.lstrip_by p s = String c r -> p c = false.
Proof.
  induction s as [|a s IH]; cbn [Py.lstrip_by]; [discriminate|].
  destruct (p a) eqn:E; [exact IH|]. now intros [= <- _].
Qed.

Lemma rstrip_idem p s : Py.rstrip_by p (Py.rstrip_by p s) = Py.rstrip_by p s.
Proof.
  induction s as [|a s IH]; cbn [Py.rstrip_by]; [reflexivity|].
  destruct (Py.rstrip_by p s) as [|d r] eqn:E.
  - destruct (p a) eqn:Ea; cbn [Py.rstrip_by]; [reflexivity | now rewrite Ea].
  - cbn [Py.rstrip_by]. cbn [Py.rstrip_by] in IH. now rewrite IH.
Qed.

Lemma rstrip_head p a s : p a = false -> exists r, Py.rstrip_by p (String a s) = String a r.
Proof.
  intros Ha. cbn [Py.rstrip_by]. destruct (Py.rstrip_by p s); [rewrite Ha|]; eauto.
Qed.

Lemma strip_idem s : Py.strip (Py.strip s) = Py.strip s.
Proof.
  unfold Py.strip. destruct (Py.lstrip_by Py.isspace s) as [|a y] eqn:E; [reflexivity|].
  pose proof (lstrip_head _ _ _ _ E) as Ha.
  destruct (rstrip_head Py.isspace a y Ha) as [r Hr]. rewrite Hr.
  cbn [Py.lstrip_by]. rewrite Ha, <- Hr. apply rstrip_idem.
Qed.

Lemma all_space_lstrip s : Py.lstrip_by Py.isspace s = EmptyString <-> all_space s = true.
Proof.
  induction s as [|a s IH]; cbn [Py.lstrip_by all_space]; [tauto|].
  destruct (Py.isspace a); cbn [andb]; [exact IH|]. split; discriminate.
Qed.

Lemma all_space_rstrip s : Py.rstrip_by Py.isspace s = EmptyString <-> all_space s = true.
Proof.
  induction s as [|a s IH]; cbn [Py.rstrip_by all_space]; [tauto|].
  destruct (Py.rstrip_by Py.isspace s) as [|d r].
  - destruct (Py.isspace a); cbn [andb]; [tauto | split; discriminate].
  - split; [discriminate|]. intros H. apply andb_prop in H as [_ H].
    apply IH in H. discriminate.
Qed.

Lemma all_space_sub a b : substring_of a b -> all_space b = true -> all_space a = true.
Proof.
  intros (pre & post & ->). induction pre as [|c pre IH]; cbn [String.append all_space].
  - induction a as [|c a IH]; cbn [String.append all_space]; [reflexivity|].
    intros H. apply andb_prop in H as [-> H]. now apply IH.
  - intros H. apply andb_prop in H as [_ H]. now apply IH.
Qed.

Lemma all_space_app a b : all_space (a +:+ b) = all_space a && all_space b.
Proof.
  induction a as [|c a IH]; cbn [String.append all_space]; [reflexivity|].
  now rewrite IH, andb_assoc.
Qed.

(** A text is blank for [strip] exactly when it is made of white space. *)
Lemma strip_empty s : Py.strip s = EmptyString <-> all_space s = true.
Proof.
  unfold Py.strip. rewrite all_space_rstrip. split.
  - intros H. destruct (Py.lstrip_by Py.isspace s) as [|a y] eqn:E.
    + now apply all_space_lstrip.
    + pose proof (lstrip_head _ _ _ _ E) as Ha. cbn [all_space] in H.
      rewrite Ha in H. discriminate.
  - intros H. apply (all_space_sub _ s); [apply sub_lstrip | exact H].
Qed.

Lemma sub_length a b : substring_of a b -> (String.length a <= String.length b)%nat.
Proof. intros (pre & post & ->). rewrite !append_length. lia. Qed.

Lemma take_length_le n s : (String.length (Py.take n s) <= n)%nat.
Proof.
  revert s. induction n as [|n IH]; intros s; [cbn; lia|].
  destruct s; cbn; [lia|]. specialize (IH s). lia.
Qed.

Lemma slice_length s lo hi :
  0 <= lo -> 0 <= hi - lo -> (Z.of_nat (String.length (Py.slice s lo hi)) <= hi - lo).
Proof.
  intros Hlo Hhi. unfold Py.slice.
  pose proof (take_length_le
                (Z.to_nat (Py.clamp hi (Py.len s) - Py.clamp lo (Py.len s)))
                (Py.drop (Z.to_nat (Py.clamp lo (Py.len s))) s)) as H.
  unfold Py.clamp in *. unfold Py.len in *.
  destruct (Z.ltb_spec lo 0); [lia|]. destruct (Z.ltb_spec hi 0); [lia|]. lia.
Qed.

(** *** What the chunks hold *)

(** The chunk a window adds, if it adds one. *)
Lemma window_step_chunks pn txt csz start st :
  (Py.strip (Py.slice txt start (start + csz)) = EmptyString
   /\ window_step pn txt csz start st
      = mkLoop (chunks st) (chunk_counter st) (S (steps st)))
  \/ exists c,
       window_step pn txt csz start st
       = mkLoop (chunks st ++ [c]) (S (chunk_counter st)) (S (steps st))
       /\ chunk_id c = make_chunk_id pn (chunk_counter st)
       /\ page c = pn
       /\ text c = Py.strip (Py.slice txt start (start + csz))
       /\ text c <> EmptyString.
Proof.
  unfold window_step.
  destruct (Py.strip (Py.slice txt start (start + csz))) as [|a r] eqn:E.
  - now left.
  - right. eexists. cbn. repeat split. discriminate.
Qed.

Lemma page_loop_inv (Q : list Chunk -> Z -> Prop) pn txt csz cov :
  (forall start st,
      0 <= start < Py.len txt -> Q (chunks st) start ->
      Q (chunks (window_step pn txt csz start st)) (start + (csz - cov))) ->
  forall fuel start st st',
    0 <= start -> 0 < csz - cov -> Q (chunks st) start ->
    page_loop fuel pn txt csz cov start st = Some st' ->
    exists stop, Py.len txt <= stop /\ Q (chunks st') stop.
Proof.
  intros Hstep. induction fuel as [|f IH]; intros start st st' H0 Hs HQ; cbn [page_loop].
  - destruct (Z.ltb_spec start (Py.len txt)); [discriminate|].
    intros [= <-]. eauto.
  - destruct (Z.ltb_spec start (Py.len txt)).
    + intros H'. apply IH in H'; [exact H' | lia | exact Hs |].
      apply Hstep; [lia | exact HQ].
    + intros [= <-]. eauto.
Qed.

Lemma page_loop_excerpts all p csz cov fuel st st' :
  In p all -> 0 <= csz -> 0 < csz - cov ->
  Forall (excerpt_of all csz) (chunks st) ->
  page_loop fuel (page_num p) (page_text p) csz cov 0 st = Some st' ->
  Forall (excerpt_of all csz) (chunks st').
Proof.
  intros Hp Hc Hs HQ H.
  apply (page_loop_inv (fun l _ => Forall (excerpt_of all csz) l)) in H;
    [now destruct H as (? & _ & H) | | lia | exact Hs | exact HQ].
  clear - Hc Hp. intros start st Hstart HQ.
  destruct (window_step_chunks (page_num p) (page_text p) csz start st)
    as [[_ ->] | (c & -> & _ & Hpg & Ht & Hne)]; [exact HQ|]. cbn [chunks].
  apply Forall_app. split; [exact HQ|]. constructor; [|constructor].
  repeat split; [exact Hne | | |].
  - unfold trimmed. rewrite Ht. apply strip_idem.
  - rewrite Ht.
    pose proof (sub_length _ _ (sub_strip (Py.slice (page_text p) start (start + csz)))).
    pose proof (slice_length (page_text p) start (start + csz)). lia.
  - exists p. split; [exact Hp|]. split; [exact Hpg|]. rewrite Ht.
    eapply sub_trans; [apply sub_strip | apply sub_slice].
Qed.

Lemma pages_loop_excerpts all chunk_size overlap fuel :
  0 <= chunk_size -> overlap < chunk_size ->
  forall pages st st' tr,
    (forall p, In p pages -> In p all) ->
    Forall (excerpt_of all (chunk_size * 4)) (chunks st) ->
    pages_loop fuel pages chunk_size overlap st = Some (st', tr) ->
    Forall (excerpt_of all (chunk_size * 4)) (chunks st').
Proof.
  intros Hc Ho. induction pages as [|p rest IH]; intros st st' tr Hin HQ; cbn [pages_loop].
  - now intros [= <- _].
  - destruct (page_loop fuel (page_num p) (page_text p) (chunk_size * 4) (overlap * 4) 0
                (mkLoop (chunks st) (chunk_counter st) 0)) as [st1|] eqn:E1; [|discriminate].
    destruct (pages_loop fuel rest chunk_size overlap st1) as [[st2 tr2]|] eqn:E2;
      [|discriminate].
    intros [= <- _]. apply (IH st1 st2 tr2); [intros q Hq; apply Hin; now right | | exact E2].
    apply (page_loop_excerpts all p) in E1; [exact E1 | apply Hin; now left | lia | lia |].
    exact HQ.
Qed.

(** Every chunk is a non-empty excerpt of one of the pages, carries that
    page's number, has no white space at either end and is at most
    [chunk_size * 4] characters long. *)
Theorem chunks_are_excerpts pages chunk_size overlap fuel :
  0 <= chunk_size -> overlap < chunk_size ->
  (enough_fuel pages <= fuel)%nat ->
  exists chunks,
    chunk_text fuel pages chunk_size overlap = Some chunks
    /\ Forall (excerpt_of pages (chunk_size * 4)) chunks.
Proof.
  intros Hc Ho Hf.
  destruct (pages_loop_runs chunk_size overlap Ho pages fuel (mkLoop [] O O) Hf)
    as (new & st' & E & _).
  unfold chunk_text, chunk_text_steps. rewrite E. cbn [option_map fst].
  eexists. split; [reflexivity|].
  apply (pages_loop_excerpts pages chunk_size overlap fuel Hc Ho) in E; auto.
Qed.

(** *** No text is lost *)

Lemma take_add a b s : Py.take (a + b) s = Py.take a s +:+ Py.take b (Py.drop a s).
Proof.
  revert s. induction a as [|a IH]; intros s; [reflexivity|].
  destruct s as [|c s]; cbn [Nat.add Py.take Py.drop String.append].
  - now destruct b.
  - now rewrite IH.
Qed.

Lemma take_all n s : (String.length s <= n)%nat -> Py.take n s = s.
Proof.
  revert s. induction n as [|n IH]; intros [|c s] H; cbn in *; try reflexivity; try lia.
  rewrite IH; [reflexivity | lia].
Qed.

Lemma all_space_take_le a b s :
  (a <= b)%nat -> all_space (Py.take b s) = true -> all_space (Py.take a s) = true.
Proof.
  revert b s. induction a as [|a IH]; intros b s Hab; [reflexivity|].
  destruct b as [|b]; [lia|]. destruct s as [|c s]; [reflexivity|].
  cbn [Py.take all_space]. intros H. apply andb_prop in H as [-> H].
  apply (IH b); [lia | exact H].
Qed.

Lemma drop_length n s : String.length (Py.drop n s) = (String.length s - n)%nat.
Proof.
  revert s. induction n as [|n IH]; intros [|c s]; cbn; try reflexivity; try lia; apply IH.
Qed.

(** A blank window that reaches to the next start leaves the text that
    was read blank. *)
Lemma blank_window txt csz step start :
  0 <= start < Py.len txt -> 0 < step <= csz ->
  all_space (Py.take (Z.to_nat start) txt) = true ->
  Py.strip (Py.slice txt start (start + csz)) = EmptyString ->
  all_space (Py.take (Z.to_nat (start + step)) txt) = true.
Proof.
  intros Hs Hstep Hread Hblank. apply strip_empty in Hblank.
  replace (Z.to_nat (start + step)) with (Z.to_nat start + Z.to_nat step)%nat by lia.
  rewrite take_add, all_space_app, Hread. cbn [andb].
  unfold Py.slice, Py.clamp, Py.len in *.
  destruct (Z.ltb_spec start 0); [lia|]. destruct (Z.ltb_spec (start + csz) 0); [lia|].
  replace (Z.to_nat (Z.min start (Z.of_nat (String.length txt)))) with (Z.to_nat start)
    in Hblank by lia.
  set (x := Py.drop (Z.to_nat start) txt) in *.
  destruct (Z.le_gt_cases (Z.of_nat (String.length txt)) (start + csz)) as [Hend|Hend].
  - rewrite take_all in Hblank.
    + apply (all_space_sub _ x); [apply sub_take | exact Hblank].
    + subst x. rewrite drop_length. lia.
  - eapply all_space_take_le; [|exact Hblank]. lia.
Qed.

(** The chunks of a loop state only grow. *)
Lemma window_step_keeps pn txt csz start st c :
  In c (chunks st) -> In c (chunks (window_step pn txt csz start st)).
Proof.
  intros H. destruct (window_step_chunks pn txt csz start st)
    as [[_ ->] | (d & -> & _)]; cbn [chunks]; [exact H|].
  apply in_or_app. now left.
Qed.

Lemma page_loop_covers pn txt csz cov fuel st st' :
  0 <= cov -> 0 < csz - cov ->
  all_space txt = false ->
  page_loop fuel pn txt csz cov 0 st = Some st' ->
  exists c, In c (chunks st') /\ page c = pn /\ substring_of (text c) txt.
Proof.
  intros Hcov Hs Htxt H.
  apply (page_loop_inv
           (fun l start =>
              (exists c, In c l /\ page c = pn /\ substring_of (text c) txt)
              \/ (0 <= start /\ all_space (Py.take (Z.to_nat start) txt) = true))) in H;
    [ | | lia | exact Hs | right; split; [lia | reflexivity] ].
  - destruct H as (stop & Hstop & [H | [_ H]]); [exact H|].
    rewrite take_all in H by (unfold Py.len in Hstop; lia). congruence.
  - clear - Hcov Hs. intros start st Hstart [(c & Hin & Hc) | [_ Hread]].
    + left. exists c. split; [now apply window_step_keeps | exact Hc].
    + destruct (window_step_chunks pn txt csz start st)
        as [[Hblank ->] | (c & -> & _ & Hpg & Ht & _)]; cbn [chunks].
      * right. split; [lia|]. apply (blank_window txt csz); auto; lia.
      * left. exists c. split; [apply in_or_app; right; now left|].
        split; [exact Hpg|]. rewrite Ht.
        eapply sub_trans; [apply sub_strip | apply sub_slice].
Qed.

Lemma page_loop_grows pn txt csz cov fuel :
  forall start st st' c,
    In c (chunks st) ->
    page_loop fuel pn txt csz cov start st = Some st' -> In c (chunks st').
Proof.
  induction fuel as [|f IH]; intros start st st' c Hc; cbn [page_loop];
    destruct (start <? Py.len txt); try discriminate; try (now intros [= <-]).
  apply IH. now apply window_step_keeps.
Qed.

Lemma pages_loop_grows chunk_size overlap fuel pages :
  forall st st' tr c,
    In c (chunks st) ->
    pages_loop fuel pages chunk_size overlap st = Some (st', tr) -> In c (chunks st').
Proof.
  induction pages as [|p rest IH]; intros st st' tr c Hc; cbn [pages_loop].
  - now intros [= <- _].
  - destruct (page_loop fuel (page_num p) (page_text p) (chunk_size * 4) (overlap * 4) 0
                (mkLoop (chunks st) (chunk_counter st) 0)) as [st1|] eqn:E1; [|discriminate].
    destruct (pages_loop fuel rest chunk_size overlap st1) as [[st2 tr2]|] eqn:E2;
      [|discriminate].
    intros [= <- _]. apply (IH st1 st2 tr2); [|exact E2].
    apply (page_loop_grows _ _ _ _ _ _ _ _ c) in E1; [exact E1 | exact Hc].
Qed.

Lemma pages_loop_covers chunk_size overlap fuel :
  0 <= overlap -> overlap < chunk_size ->
  forall pages st st' tr p,
    In p pages -> all_space (page_text p) = false ->
    pages_loop fuel pages chunk_size overlap st = Some (st', tr) ->
    exists c, In c (chunks st') /\ page c = page_num p
              /\ substring_of (text c) (page_text p).
Proof.
  intros H0 Ho. induction pages as [|q rest IH]; intros st st' tr p Hin Hp;
    [destruct Hin|]. cbn [pages_loop].
  destruct (page_loop fuel (page_num q) (page_text q) (chunk_size * 4) (overlap * 4) 0
              (mkLoop (chunks st) (chunk_counter st) 0)) as [st1|] eqn:E1; [|discriminate].
  destruct (pages_loop fuel rest chunk_size overlap st1) as [[st2 tr2]|] eqn:E2;
    [|discriminate].
  intros [= <- _]. destruct Hin as [-> | Hin].
  - apply page_loop_covers in E1 as (c & Hc & Hrest); [| lia | lia | exact Hp].
    exists c. split; [|exact Hrest]. eapply pages_loop_grows; eauto.
  - eapply IH; eauto.
Qed.

(** With an overlap that is not negative no page is skipped: every page
    that has some text other than white space gets a chunk cut from it. *)
Theorem every_page_with_text_is_chunked pages chunk_size overlap fuel :
  0 <= overlap -> overlap < chunk_size ->
  (enough_fuel pages <= fuel)%nat ->
  exists chunks,
    chunk_text fuel pages chunk_size overlap = Some chunks
    /\ forall p, In p pages -> all_space (page_text p) = false ->
         exists c, In c chunks /\ page c = page_num p
                   /\ substring_of (text c) (page_text p).
Proof.
  intros H0 Ho Hf.
  destruct (pages_loop_runs chunk_size overlap Ho pages fuel (mkLoop [] O O) Hf)
    as (new & st' & E & _).
  unfold chunk_text, chunk_text_steps. rewrite E. cbn [option_map fst].
  eexists. split; [reflexivity|]. intros p Hin Hp.
  eapply pages_loop_covers; eauto.
Qed.

(** *** Pages that fit into one step *)

Lemma slice_whole txt csz : Py.len txt <= csz -> Py.slice txt 0 (0 + csz) = txt.
Proof.
  intros H. unfold Py.slice, Py.clamp, Py.len in *.
  destruct (Z.ltb_spec 0 0); [lia|]. destruct (Z.ltb_spec (0 + csz) 0); [lia|].
  replace (Z.to_nat (Z.min 0 (Z.of_nat (String.length txt)))) with O by lia.
  cbn [Py.drop]. apply take_all. lia.
Qed.

Lemma page_loop_done fuel pn txt csz cov start st :
  Py.len txt <= start -> page_loop fuel pn txt csz cov start st = Some st.
Proof.
  intros H. destruct fuel; cbn [page_loop];
    destruct (Z.ltb_spec start (Py.len txt)); try lia; reflexivity.
Qed.

Lemma page_loop_short fuel p csz cov st :
  0 <= cov -> Py.len (page_text p) <= csz - cov ->
  exists n,
    page_loop (S fuel) (page_num p) (page_text p) csz cov 0 st
    = Some (mkLoop (chunks st ++ whole_pages (chunk_counter st) [p])
                   (chunk_counter st + length (whole_pages (chunk_counter st) [p])) n).
Proof.
  intros Hcov Hlen. cbn [page_loop whole_pages].
  destruct (Z.ltb_spec 0 (Py.len (page_text p))) as [Hpos|Hzero].
  - rewrite page_loop_done by lia. unfold window_step.
    rewrite slice_whole by lia.
    destruct (Py.strip (page_text p)); cbn [length]; eexists.
    + now rewrite app_nil_r, Nat.add_0_r.
    + now rewrite Nat.add_1_r.
  - assert (E : page_text p = EmptyString).
    { unfold Py.len in Hzero. destruct (page_text p); [reflexivity | cbn in Hzero; lia]. }
    rewrite E. destruct st as [l k n0]. cbn. exists n0. now rewrite app_nil_r, Nat.add_0_r.
Qed.

Lemma whole_pages_cons k p rest :
  whole_pages k (p :: rest)
  = whole_pages k [p] ++ whole_pages (k + length (whole_pages k [p])) rest.
Proof.
  cbn [whole_pages]. destruct (Py.strip (page_text p)); cbn [app length].
  - now rewrite Nat.add_0_r.
  - now rewrite Nat.add_1_r.
Qed.

Lemma pages_loop_short chunk_size overlap fuel :
  0 <= overlap ->
  forall pages st,
    Forall (fun p => Py.len (page_text p) <= (chunk_size - overlap) * 4) pages ->
    exists st' tr,
      pages_loop (S fuel) pages chunk_size overlap st = Some (st', tr)
      /\ chunks st' = chunks st ++ whole_pages (chunk_counter st) pages.
Proof.
  intros H0. induction pages as [|p rest IH]; intros st Hshort.
  - exists st, []. cbn. now rewrite app_nil_r.
  - inversion Hshort as [|? ? Hp Hrest]; subst. cbn [pages_loop].
    destruct (page_loop_short fuel p (chunk_size * 4) (overlap * 4)
                (mkLoop (chunks st) (chunk_counter st) 0)) as (n & ->); [lia | lia|].
    cbn [chunks chunk_counter].
    destruct (IH (mkLoop (chunks st ++ whole_pages (chunk_counter st) [p])
                    (chunk_counter st + length (whole_pages (chunk_counter st) [p])) n)
                Hrest) as (st' & tr & -> & Hc).
    eexists _, _. split; [reflexivity|]. rewrite Hc. cbn [chunks chunk_counter].
    now rewrite (whole_pages_cons _ p rest), app_assoc.
Qed.

(** With an overlap that is not negative, pages no longer than one step
    of [(chunk_size - overlap) * 4] characters are not cut: each page
    that is not blank becomes one chunk, its text without the white space
    around it, and one iteration of the loop is enough for each. *)
Theorem short_pages_are_kept_whole pages chunk_size overlap fuel :
  0 <= overlap ->
  Forall (fun p => Py.len (page_text p) <= (chunk_size - overlap) * 4) pages ->
  (1 <= fuel)%nat ->
  chunk_text fuel pages chunk_size overlap = Some (whole_pages 0 pages).
Proof.
  intros H0 Hshort Hf. destruct fuel as [|fuel]; [lia|].
  destruct (pages_loop_short chunk_size overlap fuel H0 pages (mkLoop [] O O) Hshort)
    as (st' & tr & E & Hc).
  unfold chunk_text, chunk_text_steps. rewrite E. cbn [option_map fst]. now rewrite Hc.
Qed.

(** *** From the document to the chunks *)

Lemma not_blank s : Py.strip s <> EmptyString <-> all_space s = false.
Proof.
  rewrite strip_empty. destruct (all_space s); split; congruence.
Qed.

(** [chunk_text(extract_pages(pdf_path))] as [main] and the automatic
    ingestion call it: the pages the chunks name are exactly the pages of
    the document that have some text other than white space, counted
    from one. *)
Theorem chunked_pages_are_the_pages_with_text doc fuel :
  (enough_fuel (extract_pages doc) <= fuel)%nat ->
  exists chunks,
    chunk_text fuel (extract_pages doc) CHUNK_SIZE CHUNK_OVERLAP = Some chunks
    /\ forall n : Z,
         (exists c, In c chunks /\ page c = n)
         <-> (exists (i : nat) t,
                 doc !! i = Some t /\ n = Z.of_nat i + 1 /\ all_space t = false).
Proof.
  intros Hf.
  assert (Ho : CHUNK_OVERLAP < CHUNK_SIZE) by reflexivity.
  assert (H0 : 0 <= CHUNK_OVERLAP) by (unfold CHUNK_OVERLAP; lia).
  destruct (pages_loop_runs CHUNK_SIZE CHUNK_OVERLAP Ho (extract_pages doc) fuel
              (mkLoop [] O O) Hf) as (new & st' & E & Hc & _ & _ & Hp).
  unfold chunk_text, chunk_text_steps. rewrite E. cbn [option_map fst].
  eexists. split; [reflexivity|]. intros n. split.
  - intros (c & Hin & <-). rewrite Hc in Hin. cbn [chunks app] in Hin.
    rewrite Forall_forall in Hp. apply list_elem_of_In, Hp, in_map_iff in Hin.
    destruct Hin as (p & Hpn & Hin). unfold extract_pages in Hin.
    apply extract_from_spec in Hin as (i & Hi & Hn & Hs).
    exists i, (page_text p). rewrite <- Hpn, Hn. repeat split; auto.
    now apply not_blank.
  - intros (i & t & Hi & -> & Ht).
    assert (Hin : In (mkPage (Z.of_nat i + 1) t) (extract_pages doc)).
    { unfold extract_pages. apply extract_from_spec. exists i. cbn.
      repeat split; auto. now apply not_blank. }
    destruct (pages_loop_covers CHUNK_SIZE CHUNK_OVERLAP fuel H0 Ho _ _ _ _ _ Hin Ht E)
      as (c & Hc' & Hpg & _).
    exists c. split; [exact Hc' | exact Hpg].
Qed.

(** *** Several files *)

Lemma gather_app fuel f1 f2 :
  forall acc,
    gather fuel (f1 ++ f2) acc
    = match gather fuel f1 acc with
      | Some a => gather fuel f2 a
      | None => None
      end.
Proof.
  induction f1 as [|[doc|e] f1 IH]; intros acc; cbn [app gather]; [reflexivity | | apply IH].
  destruct (chunk_text fuel (extract_pages doc) CHUNK_SIZE CHUNK_OVERLAP); [apply IH|].
  reflexivity.
Qed.

Lemma files_fuel_app f1 f2 :
  files_fuel (f1 ++ f2) = Nat.max (files_fuel f1) (files_fuel f2).
Proof.
  induction f1 as [|[doc|e] f1 IH]; cbn [app files_fuel]; [reflexivity | | exact IH].
  rewrite IH. lia.
Qed.

Lemma chunk_text_runs pages fuel :
  (enough_fuel pages <= fuel)%nat ->
  exists chunks, chunk_text fuel pages CHUNK_SIZE CHUNK_OVERLAP = Some chunks.
Proof.
  intros Hf.
  destruct (pages_loop_runs CHUNK_SIZE CHUNK_OVERLAP eq_refl pages fuel (mkLoop [] O O) Hf)
    as (new & st' & E & _).
  unfold chunk_text, chunk_text_steps. rewrite E. cbn. eauto.
Qed.

Lemma gather_runs fuel files :
  (files_fuel files <= fuel)%nat ->
  forall acc, exists l, gather fuel files acc = Some (acc ++ l).
Proof.
  induction files as [|[doc|e] files IH]; intros Hf acc; cbn [gather files_fuel] in *.
  - exists []. now rewrite app_nil_r.
  - destruct (chunk_text_runs (extract_pages doc) fuel) as (l1 & ->); [lia|].
    destruct (IH ltac:(lia) (acc ++ l1)) as (l2 & ->).
    exists (l1 ++ l2). now rewrite app_assoc.
  - apply IH. exact Hf.
Qed.

(** The first chunk of a document whose first page has text. *)
Lemma first_chunk doc t fuel :
  doc !! O = Some t -> all_space t = false ->
  (enough_fuel (extract_pages doc) <= fuel)%nat ->
  exists c rest,
    chunk_text fuel (extract_pages doc) CHUNK_SIZE CHUNK_OVERLAP = Some (c :: rest)
    /\ chunk_id c = make_chunk_id 1 0.
Proof.
  intros Hd Ht. destruct doc as [|t' doc']; [discriminate|].
  cbn in Hd. injection Hd as ->.
  unfold extract_pages. cbn [extract_from].
  destruct (Py.strip t) eqn:Es; [apply strip_empty in Es; congruence|].
  clear Es. change (Z.of_nat 0 + 1) with 1.
  set (rest := extract_from 1 doc'). cbn [enough_fuel page_text]. intros Hf.
  unfold chunk_text, chunk_text_steps. cbn [pages_loop page_num page_text chunks chunk_counter].
  assert (Hs : 0 < CHUNK_SIZE * 4 - CHUNK_OVERLAP * 4) by reflexivity.
  destruct (page_loop_runs 1 t _ _ Hs fuel 0 (mkLoop [] O O)) as (new1 & E1 & Hpg & Hnum & _).
  { pose proof (iterations_le_len (Py.len t) _ Hs ltac:(unfold Py.len; lia)) as Hi.
    unfold Py.len in *. lia. }
  assert (H0 : 0 <= CHUNK_OVERLAP * 4) by (unfold CHUNK_OVERLAP; lia).
  pose proof (page_loop_covers 1 t _ _ fuel _ _ H0 Hs Ht E1) as (c0 & Hc0 & _).
  rewrite E1. cbn [chunks app] in Hc0 |- *.
  destruct new1 as [|c1 r1]; [destruct Hc0|].
  match goal with
  | |- context [pages_loop fuel rest _ _ ?st1] =>
      destruct (pages_loop_runs CHUNK_SIZE CHUNK_OVERLAP eq_refl rest fuel st1)
        as (new2 & st2 & E2 & Hc2 & _); [lia|]
  end.
  rewrite E2. cbn [chunks app] in Hc2. cbn [option_map fst]. rewrite Hc2.
  eexists _, _. split; [reflexivity|].
  rewrite (Hnum O c1 eq_refl). inversion Hpg as [|? ? Hp1 _]; subst. now rewrite Hp1.
Qed.

(** The chunk counter starts at zero for every file, so the ids are
    unique within one file only: two files whose first page has text
    both produce the id of page 1, chunk 0, and the list that is embedded
    and stored holds it twice. *)
Theorem chunk_ids_repeat_across_files fuel before d1 between d2 after t1 t2 :
  d1 !! O = Some t1 -> all_space t1 = false ->
  d2 !! O = Some t2 -> all_space t2 = false ->
  (files_fuel (before ++ Ok d1 :: between ++ Ok d2 :: after) <= fuel)%nat ->
  exists all_chunks,
    gather fuel (before ++ Ok d1 :: between ++ Ok d2 :: after) [] = Some all_chunks
    /\ In (make_chunk_id 1 0) (map chunk_id all_chunks)
    /\ ~ NoDup (map chunk_id all_chunks).
Proof.
  intros Hd1 Ht1 Hd2 Ht2 Hf.
  rewrite files_fuel_app in Hf. cbn [files_fuel] in Hf.
  rewrite files_fuel_app in Hf. cbn [files_fuel] in Hf.
  rewrite gather_app.
  destruct (gather_runs fuel before ltac:(lia) []) as (A & ->). cbn [gather app].
  destruct (first_chunk d1 t1 fuel Hd1 Ht1 ltac:(lia)) as (c1 & r1 & -> & Hid1).
  rewrite gather_app.
  destruct (gather_runs fuel between ltac:(lia) (A ++ c1 :: r1)) as (B & ->).
  cbn [gather].
  destruct (first_chunk d2 t2 fuel Hd2 Ht2 ltac:(lia)) as (c2 & r2 & -> & Hid2).
  destruct (gather_runs fuel after ltac:(lia) (((A ++ c1 :: r1) ++ B) ++ c2 :: r2))
    as (C & ->).
  eexists. split; [reflexivity|].
  assert (H1 : In (make_chunk_id 1 0) (map chunk_id ((A ++ c1 :: r1) ++ B))).
  { rewrite <- Hid1. apply in_map, in_or_app. left. apply in_or_app. right. now left. }
  split.
  - rewrite 2!map_app. apply in_or_app. left. apply in_or_app. now left.
  - rewrite !map_app in *. rewrite <- app_assoc. intros Hnd.
    apply NoDup_app in Hnd as (_ & Hdis & _).
    apply (Hdis (make_chunk_id 1 0)); [now apply list_elem_of_In|].
    apply list_elem_of_In, in_or_app. left. cbn [map]. left. exact Hid2.
Qed.

(** *** Embedding in batches *)

Section Batches.

Variable embed_documents : list string -> result (list (list float)).
Variable embed_one : string -> list float.

Lemma firstn_add {A} a b (l : list A) :
  firstn (a + b) l = firstn a l ++ firstn b (skipn a l).
Proof.
  revert l. induction a as [|a IH]; intros [|x l]; cbn; try reflexivity.
  - now destruct b.
  - now rewrite IH.
Qed.

Lemma embed_loop_batches chunks :
  (forall texts, (0 < length texts <= batch_size)%nat ->
                 embed_documents texts = Ok (map embed_one texts)) ->
  forall m k0 embeddings,
    (m = 0 \/ (k0 + m - 1) * batch_size < length chunks)%nat ->
    embed_loop embed_documents chunks
      (map (fun k => k * batch_size)%nat (seq k0 m)) embeddings
    = Ok (embeddings
          ++ map (fun c => embed_one (text c))
                 (firstn (m * batch_size) (skipn (k0 * batch_size) chunks))).
Proof.
  intros Hembed. induction m as [|m IH]; intros k0 embeddings Hm.
  - cbn. now rewrite app_nil_r.
  - cbn [seq map embed_loop]. rewrite Hembed.
    + rewrite IH.
      * f_equal. rewrite <- app_assoc. f_equal.
        unfold batch_texts. rewrite map_map, <- map_app. f_equal.
        replace (S m * batch_size)%nat with (batch_size + m * batch_size)%nat by lia.
        rewrite firstn_add. f_equal. f_equal.
        change drop with (@skipn Chunk). rewrite skipn_skipn. f_equal.
      * destruct m as [|m]; [now left | right]. destruct Hm as [Hm|Hm]; [discriminate|].
        lia.
    + destruct Hm as [Hm|Hm]; [discriminate|].
      unfold batch_texts. rewrite length_map, length_firstn, length_skipn.
      unfold batch_size in *. lia.
Qed.

(** Batching does not show in the result: when the embedding service
    embeds every text of a batch of 1 to 20 texts on its own, the
    embeddings come back one for each chunk, in the order of the chunks.
    No batch is empty and none has more than 20 texts. *)
Theorem create_embeddings_aligned chunks :
  (forall texts, (0 < length texts <= batch_size)%nat ->
                 embed_documents texts = Ok (map embed_one texts)) ->
  create_embeddings embed_documents chunks
  = Ok (map (fun c => embed_one (text c)) chunks).
Proof.
  intros Hembed. unfold create_embeddings, range_step.
  rewrite (embed_loop_batches chunks Hembed).
  - cbn [app Nat.mul]. f_equal. f_equal. cbn [skipn]. apply firstn_all2.
    unfold batch_size.
    pose proof (Nat.div_mod_eq (length chunks + 20 - 1) 20).
    pose proof (Nat.mod_upper_bound (length chunks + 20 - 1) 20). lia.
  - unfold batch_size.
    pose proof (Nat.div_mod_eq (length chunks + 20 - 1) 20).
    pose proof (Nat.mod_upper_bound (length chunks + 20 - 1) 20).
    destruct ((length chunks + 20 - 1) / 20)%nat; [now left | right]. lia.
Qed.

End Batches.

(** *** The properties on a small document *)

Lemma chunks_are_excerpts_witness :
  0 <= 2 /\ 1 < 2
  /\ (enough_fuel Fixtures.fx_pages <= enough_fuel Fixtures.fx_pages)%nat
  /\ exists chunks,
       chunk_text (enough_fuel Fixtures.fx_pages) Fixtures.fx_pages 2 1 = Some chunks
       /\ Forall (excerpt_of Fixtures.fx_pages (2 * 4)) chunks.
Proof.
  split; [lia|]. split; [lia|]. split; [lia|].
  apply (chunks_are_excerpts Fixtures.fx_pages 2 1 (enough_fuel Fixtures.fx_pages)); lia.
Defined.

Lemma every_page_with_text_is_chunked_witness :
  0 <= 1 /\ 1 < 2
  /\ (enough_fuel Fixtures.fx_pages <= enough_fuel Fixtures.fx_pages)%nat
  /\ exists chunks,
       chunk_text (enough_fuel Fixtures.fx_pages) Fixtures.fx_pages 2 1 = Some chunks
       /\ forall p, In p Fixtures.fx_pages -> all_space (page_text p) = false ->
            exists c, In c chunks /\ page c = page_num p
                      /\ substring_of (text c) (page_text p).
Proof.
  split; [lia|]. split; [lia|]. split; [lia|].
  apply (every_page_with_text_is_chunked Fixtures.fx_pages 2 1
           (enough_fuel Fixtures.fx_pages)); lia.
Defined.

Lemma short_pages_are_kept_whole_witness :
  0 <= CHUNK_OVERLAP
  /\ Forall (fun p => Py.len (page_text p) <= (CHUNK_SIZE - CHUNK_OVERLAP) * 4)
       Fixtures.fx_pages
  /\ (1 <= 1)%nat
  /\ chunk_text 1 Fixtures.fx_pages CHUNK_SIZE CHUNK_OVERLAP
     = Some [ mkChunk "ng12_p001_c0000" 1 "Lung cancer";
              mkChunk "ng12_p003_c0001" 3 "Refer people aged 40 and over." ].
Proof.
  assert (H0 : 0 <= CHUNK_OVERLAP) by (unfold CHUNK_OVERLAP; lia).
  assert (Hs : Forall (fun p => Py.len (page_text p) <= (CHUNK_SIZE - CHUNK_OVERLAP) * 4)
                 Fixtures.fx_pages)
    by (repeat constructor; vm_compute; discriminate).
  split; [exact H0|]. split; [exact Hs|]. split; [lia|].
  apply (short_pages_are_kept_whole Fixtures.fx_pages CHUNK_SIZE CHUNK_OVERLAP 1 H0 Hs).
  lia.
Defined.

Lemma chunked_pages_are_the_pages_with_text_witness :
  (enough_fuel (extract_pages Fixtures.fx_doc)
   <= enough_fuel (extract_pages Fixtures.fx_doc))%nat
  /\ exists chunks,
       chunk_text (enough_fuel (extract_pages Fixtures.fx_doc))
         (extract_pages Fixtures.fx_doc) CHUNK_SIZE CHUNK_OVERLAP = Some chunks
       /\ forall n : Z,
            (exists c, In c chunks /\ page c = n)
            <-> (exists (i : nat) t,
                    Fixtures.fx_doc !! i = Some t /\ n = Z.of_nat i + 1
                    /\ all_space t = false).
Proof.
  split; [lia|].
  apply (chunked_pages_are_the_pages_with_text Fixtures.fx_doc
           (enough_fuel (extract_pages Fixtures.fx_doc))).
  lia.
Defined.

Lemma chunk_ids_repeat_across_files_witness :
  Fixtures.fx_doc !! O = Some "  Suspected cancer: recognition and referral  "
  /\ all_space "  Suspected cancer: recognition and referral  " = false
  /\ Fixtures.fx_doc2 !! O = Some "Appendix"
  /\ all_space "Appendix" = false
  /\ (files_fuel Fixtures.fx_files <= files_fuel Fixtures.fx_files)%nat
  /\ exists all_chunks,
       gather (files_fuel Fixtures.fx_files) Fixtures.fx_files [] = Some all_chunks
       /\ In (make_chunk_id 1 0) (map chunk_id all_chunks)
       /\ ~ NoDup (map chunk_id all_chunks).
Proof.
  split; [reflexivity|]. split; [reflexivity|]. split; [reflexivity|].
  split; [reflexivity|]. split; [lia|].
  apply (chunk_ids_repeat_across_files (files_fuel Fixtures.fx_files) []
           Fixtures.fx_doc [Raise UpstreamError] Fixtures.fx_doc2 []
           "  Suspected cancer: recognition and referral  " "Appendix");
    reflexivity.
Defined.

Lemma fx_embed_batches texts :
  (0 < length texts <= batch_size)%nat ->
  Fixtures.fx_embed_documents texts = Ok (map Fixtures.fx_embed_one texts).
Proof.
  intros [H1 H2]. unfold Fixtures.fx_embed_documents.
  apply Nat.ltb_lt in H1. apply Nat.leb_le in H2. now rewrite H1, H2.
Qed.

Lemma create_embeddings_aligned_witness :
  (forall texts, (0 < length texts <= batch_size)%nat ->
                 Fixtures.fx_embed_documents texts = Ok (map Fixtures.fx_embed_one texts))
  /\ Fixtures.fx_embed_documents (map text Fixtures.fx_chunks) = Raise UpstreamError
  /\ create_embeddings Fixtures.fx_embed_documents Fixtures.fx_chunks
     = Ok (map (fun c => Fixtures.fx_embed_one (text c)) Fixtures.fx_chunks).
Proof.
  split; [exact fx_embed_batches|]. split; [reflexivity|].
  apply (create_embeddings_aligned Fixtures.fx_embed_documents Fixtures.fx_embed_one
           Fixtures.fx_chunks fx_embed_batches).
Defined.

End IngestionFacts.
